(** * qe_apidoc: the documentation stub generator of QuantEcon.py

    A shallow embedding of [docs/qe_apidoc.py].  The script is Python 2
    code ([map] returns a list, which is then sorted in place), and it is
    modelled with that meaning.  Strings are byte strings ([string]), the
    file system is an explicit world threaded through a state-and-exception
    monad, and every system call leaves an event in a log. *)

From Stdlib Require Import Ascii.
From Stdlib Require String.
From stdpp Require Import base option list sorting gmap strings.

Local Open Scope char_scope.
Local Open Scope stdpp_scope.

#[local] Set Warnings "-clear-no-such-hyp".

(** ** Exceptions and results *)

Inductive errno := EEXIST | EACCES | ENOENT | ENOSPC.

Inductive exn :=
  | NameError (name : string)
  | KeyError (key : string)
  | IndexError
  | ValueError
  | IOError (code : errno) (path : string)
  | OSError (code : errno) (path : string).

Inductive res (A : Type) :=
  | Ok (a : A)
  | Raise (e : exn).
Arguments Ok {A} a.
Arguments Raise {A} e.

Definition res_map {A B} (f : A → B) (r : res A) : res B :=
  match r with
  | Ok a => Ok (f a)
  | Raise e => Raise e
  end.

#[global] Instance errno_eq_dec : EqDecision errno.
Proof. solve_decision. Defined.

#[global] Instance exn_eq_dec : EqDecision exn.
Proof. solve_decision. Defined.

(** ** The string primitives of Python the script uses *)

Module Py.

Definition LF : ascii := "010".
Definition nl : string := String LF "".

(** [len(s)] *)
Definition len (s : string) : nat := String.length s.

(** [s * n] *)
Fixpoint mul (s : string) (n : nat) : string :=
  match n with
  | O => ""
  | S n' => s +:+ mul s n'
  end.

(** [s.split(sep)] for a one-character separator: never empty. *)
Fixpoint split (sep : ascii) (s : string) : list string :=
  match s with
  | "" => [""]
  | String c s' =>
      if Ascii.eqb c sep then "" :: split sep s'
      else match split sep s' with
           | [] => [String c ""]
           | w :: ws => String c w :: ws
           end
  end.

(** [l[-1]] and [l[0]] on the result of a split (which has a head). *)
Definition last_item (l : list string) : string := List.last l "".
Definition first_item (l : list string) : string := List.hd "" l.

(** [s[:-3]] *)
Definition drop_last3 (s : string) : string :=
  String.substring 0 (String.length s - 3) s.

(** [sep.join(l)] *)
Definition join (sep : string) (l : list string) : string :=
  String.concat sep l.

(** [l.sort()] on a list of byte strings: the order is that of the bytes. *)
Definition sort (l : list string) : list string :=
  merge_sort String.le l.

Definition is_lower (c : ascii) : bool :=
  (N.leb 97 (N_of_ascii c) && N.leb (N_of_ascii c) 122)%bool.
Definition is_upper (c : ascii) : bool :=
  (N.leb 65 (N_of_ascii c) && N.leb (N_of_ascii c) 90)%bool.
Definition upper (c : ascii) : ascii :=
  if is_lower c then ascii_of_N (N_of_ascii c - 32) else c.
Definition lower (c : ascii) : ascii :=
  if is_upper c then ascii_of_N (N_of_ascii c + 32) else c.

Fixpoint lower_all (s : string) : string :=
  match s with
  | "" => ""
  | String c s' => String (lower c) (lower_all s')
  end.

(** [s.capitalize()] *)
Definition capitalize (s : string) : string :=
  match s with
  | "" => ""
  | String c s' => String (upper c) (lower_all s')
  end.

(** [template.format(...)] with keyword arguments, for templates whose
    replacement fields are plain names, as the templates of the script
    are. *)
Inductive fstate :=
  | FText
  | FOpen
  | FField (key : string)
  | FClose.

Fixpoint kw_lookup (k : string) (kw : list (string * string)) : res string :=
  match kw with
  | [] => Raise (KeyError k)
  | (k', v) :: kw' => if String.eqb k k' then Ok v else kw_lookup k kw'
  end.

Fixpoint format_go (st : fstate) (t : string) (kw : list (string * string))
    : res string :=
  match t with
  | "" => match st with FText => Ok "" | _ => Raise ValueError end
  | String c t' =>
      match st with
      | FText =>
          if Ascii.eqb c "{" then format_go FOpen t' kw
          else if Ascii.eqb c "}" then format_go FClose t' kw
          else res_map (String c) (format_go FText t' kw)
      | FOpen =>
          if Ascii.eqb c "{" then res_map (String "{") (format_go FText t' kw)
          else if Ascii.eqb c "}" then Raise IndexError
          else format_go (FField (String c "")) t' kw
      | FField k =>
          if Ascii.eqb c "}" then
            match kw_lookup k kw with
            | Ok v => res_map (String.app v) (format_go FText t' kw)
            | Raise e => Raise e
            end
          else format_go (FField (k +:+ String c "")) t' kw
      | FClose =>
          if Ascii.eqb c "}" then res_map (String "}") (format_go FText t' kw)
          else Raise ValueError
      end
  end.

Definition format (t : string) (kw : list (string * string)) : res string :=
  format_go FText t kw.

End Py.

(** ** posixpath: the functions of [os.path] the script and [glob] use *)

Module Path.

Definition starts_with_slash (s : string) : bool :=
  match s with
  | String c _ => Ascii.eqb c "/"
  | "" => false
  end.

Definition ends_with_slash (s : string) : bool :=
  starts_with_slash (String.rev s).

(** [os.path.join(a, b)] *)
Definition join2 (a b : string) : string :=
  if starts_with_slash b then b
  else if (String.eqb a "" || ends_with_slash a)%bool then a +:+ b
  else a +:+ "/" +:+ b.

(** [os.path.join(a, *p)] *)
Definition join (a : string) (p : list string) : string :=
  foldl join2 a p.

Fixpoint lstrip_slash (s : string) : string :=
  match s with
  | String c s' => if Ascii.eqb c "/" then lstrip_slash s' else s
  | "" => ""
  end.

Definition rstrip_slash (s : string) : string :=
  String.rev (lstrip_slash (String.rev s)).

(** [os.path.split(p)]: the head loses its trailing slashes unless it is
    made of slashes only. *)
Definition split (p : string) : string * string :=
  let segs := Py.split "/" p in
  let tail := Py.last_item segs in
  let head :=
    match List.removelast segs with
    | [] => ""
    | front => Py.join "/" front +:+ "/"
    end in
  (if String.eqb (lstrip_slash head) "" then head else rstrip_slash head, tail).

End Path.

(** ** fnmatch: shell patterns with [*], [?] and character classes *)

Module Fnmatch.

Inductive item :=
  | Lit (c : ascii)
  | AnyChar
  | Star
  | Class (negated : bool) (ranges : list (ascii * ascii)).

Fixpoint ranges (s : string) : list (ascii * ascii) :=
  match s with
  | "" => []
  | String a s1 =>
      match s1 with
      | String dash (String b s3) =>
          if Ascii.eqb dash "-" then (a, b) :: ranges s3 else (a, a) :: ranges s1
      | _ => (a, a) :: ranges s1
      end
  end.

Definition class_of (stuff : string) : item :=
  match stuff with
  | String c rest => if Ascii.eqb c "!" then Class true (ranges rest)
                     else Class false (ranges stuff)
  | "" => Class false []
  end.

(** The characters after a bracket that is never closed: the bracket is a
    literal and so is every later bracket. *)
Fixpoint plain (p : string) : list item :=
  match p with
  | "" => []
  | String c p' =>
      if Ascii.eqb c "*" then Star :: plain p'
      else if Ascii.eqb c "?" then AnyChar :: plain p'
      else Lit c :: plain p'
  end.

(** [inside] holds the characters read since an open bracket. *)
Fixpoint items (inside : option string) (p : string) : list item :=
  match p with
  | "" =>
      match inside with
      | None => []
      | Some stuff => Lit "[" :: plain stuff
      end
  | String c p' =>
      match inside with
      | None =>
          if Ascii.eqb c "*" then Star :: items None p'
          else if Ascii.eqb c "?" then AnyChar :: items None p'
          else if Ascii.eqb c "[" then items (Some "") p'
          else Lit c :: items None p'
      | Some stuff =>
          if (Ascii.eqb c "]" && negb (String.eqb stuff "" || String.eqb stuff "!"))%bool
          then class_of stuff :: items None p'
          else items (Some (stuff +:+ String c "")) p'
      end
  end.

Definition in_range (c : ascii) (r : ascii * ascii) : bool :=
  (N.leb (N_of_ascii r.1) (N_of_ascii c) && N.leb (N_of_ascii c) (N_of_ascii r.2))%bool.

Definition in_class (negated : bool) (rs : list (ascii * ascii)) (c : ascii) : bool :=
  xorb negated (existsb (in_range c) rs).

Fixpoint matches (its : list item) (s : string) : bool :=
  match its with
  | [] => String.eqb s ""
  | Lit c :: rest =>
      match s with
      | String d s' => (Ascii.eqb c d && matches rest s')%bool
      | "" => false
      end
  | AnyChar :: rest =>
      match s with
      | String _ s' => matches rest s'
      | "" => false
      end
  | Class neg rs :: rest =>
      match s with
      | String d s' => (in_class neg rs d && matches rest s')%bool
      | "" => false
      end
  | Star :: rest =>
      (fix star (s : string) : bool :=
         (matches rest s ||
          match s with
          | String _ s' => star s'
          | "" => false
          end)%bool) s
  end.

(** [fnmatch.fnmatch(name, pat)] on a POSIX system (no case folding) *)
Definition fnmatch (name pat : string) : bool :=
  matches (items None pat) name.

(** [fnmatch.filter(names, pat)] *)
Definition filter (names : list string) (pat : string) : list string :=
  List.filter (λ n, fnmatch n pat) names.

End Fnmatch.

(** ** The file system

    The package tree that is scanned ([../quantecon]) and the output tree
    ([source]) are different parts of the file system: the first is only
    read, through [os.listdir], the second only tested and written.  Which
    requests the operating system refuses (permissions, a full disk) is
    part of the world and does not change during a run. *)

Inductive call := Listdir | Mkdir | Open | Write.

(** What the operating system was asked and did: a directory made, a file
    opened for writing (created or emptied), bytes appended, a handle
    released, or a call that failed with an error. *)
Inductive event :=
  | EvMkdir (p : string)
  | EvOpen (p : string)
  | EvWrite (p : string) (s : string)
  | EvClose (p : string)
  | EvFail (c : call) (e : exn).

#[global] Instance call_eq_dec : EqDecision call.
Proof. solve_decision. Defined.

#[global] Instance event_eq_dec : EqDecision event.
Proof. solve_decision. Defined.

Record world := World {
  scan : gmap string (list string);
  unreadable : gset string;
  dirs : gset string;
  files : gmap string string;
  handles : list string;
  refuse_mkdir : gset string;
  refuse_open : gset string;
  short_write : gmap string nat;
  log : list event
}.

Definition set_dirs (d : gset string) (w : world) : world :=
  World (scan w) (unreadable w) d (files w) (handles w)
        (refuse_mkdir w) (refuse_open w) (short_write w) (log w).
Definition set_files (f : gmap string string) (w : world) : world :=
  World (scan w) (unreadable w) (dirs w) f (handles w)
        (refuse_mkdir w) (refuse_open w) (short_write w) (log w).
Definition set_handles (h : list string) (w : world) : world :=
  World (scan w) (unreadable w) (dirs w) (files w) h
        (refuse_mkdir w) (refuse_open w) (short_write w) (log w).
Definition emit (e : event) (w : world) : world :=
  World (scan w) (unreadable w) (dirs w) (files w) (handles w)
        (refuse_mkdir w) (refuse_open w) (short_write w) (log w ++ [e]).

(** ** The monad of the script: state and exceptions *)

Definition M (A : Type) : Type := world → res A * world.

Definition ret {A} (a : A) : M A := λ w, (Ok a, w).
Definition raise {A} (e : exn) : M A := λ w, (Raise e, w).
Definition bind {A B} (m : M A) (k : A → M B) : M B :=
  λ w, match m w with
       | (Ok a, w') => k a w'
       | (Raise e, w') => (Raise e, w')
       end.
Definition lift {A} (r : res A) : M A := λ w, (r, w).

Declare Scope py_scope.
Delimit Scope py_scope with py.
Notation "x <- m ;; k" := (bind m (λ x, k))
  (at level 100, m at next level, right associativity) : py_scope.
Notation "m ;; k" := (bind m (λ _, k))
  (at level 100, right associativity) : py_scope.
Local Open Scope py_scope.

(** [for x in l: body(x)] *)
Fixpoint for_each {A} (l : list A) (body : A → M unit) : M unit :=
  match l with
  | [] => ret tt
  | x :: l' => body x ;; for_each l' body
  end.

(** [try: m finally: h]; the handler cannot fail here. *)
Definition finally {A} (m : M A) (h : world → world) : M A :=
  λ w, let (r, w') := m w in (r, h w').

(** The events a computation adds to the log. *)
Definition trace {A} (m : M A) (w : world) : list event :=
  drop (length (log w)) (log (m w).2).

Definition empty_world : world := World ∅ ∅ ∅ ∅ [] ∅ ∅ ∅ [].

(** ** System calls *)

(** [os.listdir(d)] *)
Definition os_listdir (d : string) : M (list string) := λ w,
  if bool_decide (d ∈ unreadable w) then
    (Raise (OSError EACCES d), emit (EvFail Listdir (OSError EACCES d)) w)
  else match scan w !! d with
       | Some names => (Ok names, w)
       | None => (Raise (OSError ENOENT d), emit (EvFail Listdir (OSError ENOENT d)) w)
       end.

(** [os.path.exists(p)]: [p] names a directory or a file. *)
Definition exists_b (p : string) (w : world) : bool :=
  bool_decide (p ∈ dirs w) || bool_decide (is_Some (files w !! p)).

Definition os_path_exists (p : string) : M bool := λ w,
  (Ok (exists_b p w), w).

(** [os.mkdir(p)] *)
Definition os_mkdir (p : string) : M unit :=
  ex <- os_path_exists p ;;
  if ex : bool then
    λ w, (Raise (OSError EEXIST p), emit (EvFail Mkdir (OSError EEXIST p)) w)
  else λ w,
    if bool_decide (p ∈ refuse_mkdir w) then
      (Raise (OSError EACCES p), emit (EvFail Mkdir (OSError EACCES p)) w)
    else (Ok tt, emit (EvMkdir p) (set_dirs ({[p]} ∪ dirs w) w)).

(** [try: m except OSError as e: if e.errno != EEXIST: raise] *)
Definition ignoring_eexist (m : M unit) : M unit := λ w,
  match m w with
  | (Raise (OSError EEXIST _), w') => (Ok tt, w')
  | rw => rw
  end.

(** [os.makedirs(name)]: the missing parents first, then the leaf.  The
    recursion of the library is on the head of [os.path.split]; the fuel is
    the length of the name, which every head is shorter than. *)
Fixpoint makedirs_go (fuel : nat) (name : string) : M unit :=
  match fuel with
  | O => os_mkdir name
  | S fuel' =>
      let '(head, tail) := Path.split name in
      let '(head, tail) := if String.eqb tail "" then Path.split head
                           else (head, tail) in
      ex <- os_path_exists head ;;
      if (negb (String.eqb head "") && negb (String.eqb tail "") && negb ex)%bool
      then
        ignoring_eexist (makedirs_go fuel' head) ;;
        if String.eqb tail "." then ret tt else os_mkdir name
      else os_mkdir name
  end.

Definition os_makedirs (name : string) : M unit :=
  makedirs_go (String.length name) name.

(** [open(p, "w")]: the file is created or emptied; the handle is the
    path. *)
Definition open_w (p : string) : M string := λ w,
  if bool_decide (p ∈ refuse_open w) then
    (Raise (IOError EACCES p), emit (EvFail Open (IOError EACCES p)) w)
  else
    (Ok p, emit (EvOpen p) (set_handles (p :: handles w)
                            (set_files (<[p := ""]> (files w)) w))).

Definition append_to (f s : string) (w : world) : world :=
  emit (EvWrite f s)
    (set_files (<[f := default "" (files w !! f) +:+ s]> (files w)) w).

(** [f.write(s)]: when the device takes only part of [s], that part is in
    the file and the call raises. *)
Definition file_write (f s : string) : M unit := λ w,
  match short_write w !! f with
  | Some n =>
      if bool_decide (n < String.length s) then
        (Raise (IOError ENOSPC f),
         emit (EvFail Write (IOError ENOSPC f)) (append_to f (String.substring 0 n s) w))
      else (Ok tt, append_to f s w)
  | None => (Ok tt, append_to f s w)
  end.

Fixpoint remove_first (f : string) (l : list string) : list string :=
  match l with
  | [] => []
  | g :: l' => if String.eqb f g then l' else g :: remove_first f l'
  end.

(** [f.close()] *)
Definition file_close (f : string) (w : world) : world :=
  emit (EvClose f) (set_handles (remove_first f (handles w)) w).

(** [with open(p, "w") as f: body(f)] *)
Definition with_open {A} (p : string) (body : string → M A) : M A :=
  f <- open_w p ;;
  finally (body f) (file_close f).

(** ** glob *)

Definition starts_with_dot (s : string) : bool :=
  match s with
  | String c _ => Ascii.eqb c "."
  | "" => false
  end.

(** [glob.glob1(dirname, pattern)]: an error of [os.listdir] is caught and
    gives no name; hidden files need a pattern that starts with a dot. *)
Definition glob1 (dirname pattern : string) : M (list string) := λ w,
  match os_listdir (if String.eqb dirname "" then "." else dirname) w with
  | (Ok names, w') =>
      let names := if starts_with_dot pattern then names
                   else List.filter (λ x, negb (starts_with_dot x)) names in
      (Ok (Fnmatch.filter names pattern), w')
  | (Raise (OSError _ _), w') => (Ok [], w')
  | (Raise e, w') => (Raise e, w')
  end.

(** [glob.glob(pathname)] for a pathname with a wildcard in its base name
    and none in its directory, as at every call of the script. *)
Definition glob (pathname : string) : M (list string) :=
  let '(dirname, basename) := Path.split pathname in
  names <- glob1 dirname basename ;;
  ret (map (λ name, Path.join dirname [name]) names).

(** ** String templates *)

Definition module_template : string := "{mod_name}
{equals}

.. automodule:: quantecon.{mod_name}
    :members:
    :undoc-members:
    :show-inheritance:
".

Definition markov_module_template : string := "{mod_name}
{equals}

.. automodule:: quantecon.markov.{mod_name}
    :members:
    :undoc-members:
    :show-inheritance:
".

Definition model_module_template : string := "{mod_name}
{equals}

.. automodule:: quantecon.models.{mod_name}
    :members:
    :undoc-members:
    :show-inheritance:
".

Definition solow_model_module_template : string := "{mod_name}
{equals}

.. automodule:: quantecon.models.solow.{mod_name}
    :members:
    :undoc-members:
    :show-inheritance:
".

Definition random_module_template : string := "{mod_name}
{equals}

.. automodule:: quantecon.random.{mod_name}
    :members:
    :undoc-members:
    :show-inheritance:
".

Definition util_module_template : string := "{mod_name}
{equals}

.. automodule:: quantecon.util.{mod_name}
    :members:
    :undoc-members:
    :show-inheritance:
".

Definition all_index_template : string := "=======================
QuantEcon documentation
=======================

Auto-generated documentation by module:

.. toctree::
   :maxdepth: 2

   {generated}


Indices and tables
==================

* :ref:`genindex`
* :ref:`modindex`
* :ref:`search`
".

Definition split_index_template : string := "=======================
QuantEcon documentation
=======================

The `quantecon` python library is composed of two main section: models
and tools. The models section contains implementations of standard
models, many of which are discussed in lectures on the website `quant-
econ.net <http://quant-econ.net>`_.

.. toctree::
   :maxdepth: 2

   markov
   models
   random
   tools

Indices and tables
==================

* :ref:`genindex`
* :ref:`modindex`
* :ref:`search`
".

Definition split_file_template : string := "{name}
{equals}

.. toctree::
   :maxdepth: 2

   {files}
".


(** ** Helper functions *)

Definition source_join (f_name : string) : string :=
  Path.join "source" [f_name].

(** ** Main functions *)

Definition all_auto : M unit :=
  mod_names <- glob "../quantecon/[a-z0-9]*.py" ;;
  let mod_names := map (λ x, Py.last_item (Py.split "/" x)) mod_names in
  ex <- os_path_exists (source_join "modules") ;;
  (if negb ex then os_makedirs (source_join "modules") else ret tt) ;;
  for_each mod_names (λ modl,
    let name := Py.first_item (Py.split "." modl) in
    let new_path := Path.join "source" ["modules"; name +:+ ".rst"] in
    with_open new_path (λ f, raise (NameError "gen_module"))) ;;
  with_open (source_join "index.rst") (λ index,
    let generated :=
      Py.join (Py.nl +:+ "   ")
        (map (λ x, "modules/" +:+ Py.first_item (Py.split "." x)) mod_names) in
    temp <- lift (Py.format all_index_template [("generated", generated)]) ;;
    file_write index temp).

(** [glob(pattern)], the base name without its last three characters, and
    the sort in place. *)
Definition discover (pattern : string) : M (list string) :=
  found <- glob pattern ;;
  ret (Py.sort (map (λ x, Py.drop_last3 (Py.last_item (Py.split "/" x))) found)).

(** The text of a module's file: the underline, then the template filled
    in. *)
Definition render_module (template modl : string) : res string :=
  let equals := Py.mul "=" (Py.len modl) in
  Py.format template [("mod_name", modl); ("equals", equals)].

(** One of the six loops that write a file for each module. *)
Definition write_modules (folder : list string) (template : string)
    (mods : list string) : M unit :=
  for_each mods (λ modl,
    let new_path := Path.join "source" (folder ++ [modl +:+ ".rst"]) in
    with_open new_path (λ f,
      text <- lift (render_module template modl) ;;
      file_write f text)).

Definition dict_get (d : gmap string string) (k : string) : res string :=
  match d !! k with
  | Some v => Ok v
  | None => Raise (KeyError k)
  end.

Definition model_tool : M unit :=
  markov <- discover "../quantecon/markov/[a-z0-9]*.py" ;;
  models <- discover "../quantecon/models/[a-z0-9]*.py" ;;
  solow <- discover "../quantecon/models/solow/[a-z0-9]*.py" ;;
  random <- discover "../quantecon/random/[a-z0-9]*.py" ;;
  tools <- discover "../quantecon/[a-z0-9]*.py" ;;
  util <- discover "../quantecon/util/[a-z0-9]*.py" ;;
  for_each ["markov"; "models"; "models/solow"; "random"; "tools"; "util"]
    (λ folder,
      ex <- os_path_exists (source_join folder) ;;
      if negb ex then os_makedirs (source_join folder) else ret tt) ;;
  write_modules ["markov"] markov_module_template markov ;;
  write_modules ["models"] model_module_template models ;;
  write_modules ["models"; "solow"] solow_model_module_template solow ;;
  write_modules ["random"] random_module_template random ;;
  write_modules ["tools"] module_template tools ;;
  write_modules ["util"] util_module_template util ;;
  with_open (source_join "index.rst") (λ index,
    file_write index split_index_template) ;;
  let mark := "markov/" +:+ Py.join (Py.nl +:+ "   markov/") markov in
  let mods := "models/" +:+ Py.join (Py.nl +:+ "   models/") models in
  let mods := mods +:+ Py.nl +:+ "   solow/" in
  let rand := "random/" +:+ Py.join (Py.nl +:+ "   random/") random in
  let tlz := "tools/" +:+ Py.join (Py.nl +:+ "   tools/") tools in
  let utls := "util/" +:+ Py.join (Py.nl +:+ "   util/") util in
  let toc_tree_list : gmap string string :=
    {[ "markov" := mark; "models" := mods; "tools" := tlz;
       "random" := rand; "util" := utls ]} in
  for_each ["markov"; "models"; "random"; "tools"; "util"] (λ f_name,
    with_open (source_join (f_name +:+ ".rst")) (λ f,
      files_ <- lift (dict_get toc_tree_list f_name) ;;
      temp <- lift (Py.format split_file_template
                      [("name", Py.capitalize f_name);
                       ("equals", Py.mul "=" (Py.len f_name));
                       ("files", files_)]) ;;
      file_write f temp)).

(** The script's entry point; [argv] is [sys.argv]. *)
Definition main (argv : list string) : M unit :=
  if bool_decide ("single" ∈ tail argv) then all_auto else model_tool.


(** * Properties *)

(** ** Lines of a rendered document *)

Fixpoint has_char (c : ascii) (s : string) : bool :=
  match s with
  | "" => false
  | String d s' => (Ascii.eqb d c || has_char c s')%bool
  end.

(** [doc.split(LF)[i]] *)
Definition line (i : nat) (doc : string) : option string :=
  Py.split Py.LF doc !! i.

Definition module_templates : list string :=
  [ markov_module_template; model_module_template;
    solow_model_module_template; random_module_template;
    module_template; util_module_template ].

Lemma app_nil_l_str (s : string) : "" +:+ s = s.
Proof. reflexivity. Qed.

Lemma app_cons_str (c : ascii) (s t : string) :
  String c s +:+ t = String c (s +:+ t).
Proof. reflexivity. Qed.

Lemma split_line (m rest : string) :
  has_char Py.LF m = false →
  Py.split Py.LF (m +:+ String Py.LF rest) = m :: Py.split Py.LF rest.
Proof.
  induction m as [|c m IH]; intros Hm.
  - reflexivity.
  - simpl in Hm. apply orb_false_iff in Hm as [Hc Hm].
    rewrite app_cons_str. cbn [Py.split]. rewrite Hc, (IH Hm). reflexivity.
Qed.

Lemma mul_eq_no_LF (n : nat) : has_char Py.LF (Py.mul "=" n) = false.
Proof. induction n as [|n IH]; [reflexivity | exact IH]. Qed.

Lemma len_mul_eq (n : nat) : Py.len (Py.mul "=" n) = n.
Proof.
  unfold Py.len. induction n as [|n IH]; [reflexivity|].
  cbn [Py.mul]. rewrite app_cons_str, app_nil_l_str. simpl. by rewrite IH.
Qed.

(** Every module template starts with the name, the underline and an empty
    line. *)
Lemma render_module_shape (t m : string) :
  t ∈ module_templates →
  ∃ body, render_module t m =
    Ok (m +:+ String Py.LF (Py.mul "=" (Py.len m) +:+ String Py.LF body)).
Proof.
  unfold module_templates. rewrite !elem_of_cons, elem_of_nil.
  intros [->|[->|[->|[->|[->|[->|[]]]]]]]; eexists; reflexivity.
Qed.

(** ** The effect of a run on the world

    Every computation of the script leaves the world as it was except for
    the directories, the files and the log: [upd w d f ev]. *)

Definition upd (w : world) (d : gset string) (f : gmap string string)
    (ev : list event) : world :=
  World (scan w) (unreadable w) d f (handles w)
        (refuse_mkdir w) (refuse_open w) (short_write w) (log w ++ ev).

Lemma upd_upd w d f ev d' f' ev' :
  upd (upd w d f ev) d' f' ev' = upd w d' f' (ev ++ ev').
Proof. unfold upd; simpl. by rewrite app_assoc. Qed.

Lemma upd_id w : upd w (dirs w) (files w) [] = w.
Proof. destruct w; unfold upd; simpl. by rewrite app_nil_r. Qed.

Lemma emit_upd e w : emit e w = upd w (dirs w) (files w) [e].
Proof. reflexivity. Qed.

Lemma trace_upd {A} (m : M A) w r d f ev :
  m w = (r, upd w d f ev) → trace m w = ev.
Proof.
  intros H. unfold trace. rewrite H. simpl. by rewrite drop_app_length.
Qed.

Lemma bind_ext {A B} (m m' : M A) (k k' : A → M B) w :
  m w = m' w → (∀ a w', k a w' = k' a w') → bind m k w = bind m' k' w.
Proof. intros Hm Hk. unfold bind. rewrite Hm. destruct (m' w) as [[a|e] w']; auto. Qed.

Lemma for_each_ext {A} (l : list A) (body body' : A → M unit) w :
  (∀ x w', body x w' = body' x w') → for_each l body w = for_each l body' w.
Proof.
  intros H. revert w. induction l as [|x l IH]; intros w; [done|].
  cbn [for_each]. apply bind_ext; auto.
Qed.

Lemma for_each_single {A} (x : A) (body : A → M unit) w :
  for_each [x] body w = body x w.
Proof. cbn. unfold bind, ret. by destruct (body x w) as [[[]|e] w']. Qed.

Lemma for_each_map {A B} (g : A → B) (l : list A) (body : B → M unit) :
  for_each (map g l) body = for_each l (λ x, body (g x)).
Proof. induction l as [|x l IH]; [done|]. cbn [for_each map]. by rewrite IH. Qed.

Lemma for_each_app {A} (l1 l2 : list A) (body : A → M unit) w :
  for_each (l1 ++ l2) body w = (for_each l1 body ;; for_each l2 body) w.
Proof.
  revert w. induction l1 as [|x l1 IH]; intros w; [done|].
  cbn [for_each app]. unfold bind.
  destruct (body x w) as [[[]|e] w']; [|done]. rewrite IH. done.
Qed.

(** ** Files written under [with open]

    The two shapes of block the script has: one writes a text (which a
    failed [format] may replace by an exception), one calls a function. *)

Inductive action :=
  | Put (p : string) (text : res string)
  | Call (p : string) (name : string).

Definition do_action (a : action) : M unit :=
  match a with
  | Put p text => with_open p (λ f, t <- lift text ;; file_write f t)
  | Call p name => with_open p (λ f, raise (NameError name))
  end.

Definition target (a : action) : string :=
  match a with Put p _ => p | Call p _ => p end.

(** Result, events and final content of the target, from what the system
    refuses. *)
Definition act_sem (ro : gset string) (sw : gmap string nat) (a : action)
    : res unit * list event * list (string * string) :=
  let p := target a in
  if bool_decide (p ∈ ro) then
    (Raise (IOError EACCES p), [EvFail Open (IOError EACCES p)], [])
  else
    match a with
    | Call _ name => (Raise (NameError name), [EvOpen p; EvClose p], [(p, "")])
    | Put _ (Raise e) => (Raise e, [EvOpen p; EvClose p], [(p, "")])
    | Put _ (Ok s) =>
        match sw !! p with
        | Some n =>
            if bool_decide (n < String.length s) then
              (Raise (IOError ENOSPC p),
               [EvOpen p; EvWrite p (String.substring 0 n s);
                EvFail Write (IOError ENOSPC p); EvClose p],
               [(p, String.substring 0 n s)])
            else (Ok tt, [EvOpen p; EvWrite p s; EvClose p], [(p, s)])
        | None => (Ok tt, [EvOpen p; EvWrite p s; EvClose p], [(p, s)])
        end
    end.

Fixpoint acts_sem (ro : gset string) (sw : gmap string nat) (l : list action)
    : res unit * list event * list (string * string) :=
  match l with
  | [] => (Ok tt, [], [])
  | a :: l' =>
      match act_sem ro sw a with
      | (Ok _, ev, kv) =>
          let '(r, ev', kv') := acts_sem ro sw l' in (r, ev ++ ev', kv ++ kv')
      | (Raise e, ev, kv) => (Raise e, ev, kv)
      end
  end.

Definition store (kvs : list (string * string)) (f : gmap string string)
    : gmap string string :=
  foldl (λ m kv, <[kv.1 := kv.2]> m) f kvs.

Lemma store_app kvs kvs' f : store (kvs ++ kvs') f = store kvs' (store kvs f).
Proof. apply foldl_app. Qed.

Lemma remove_first_head f l : remove_first f (f :: l) = l.
Proof. simpl. by rewrite String.eqb_refl. Qed.

Lemma do_action_sem a w :
  do_action a w =
    let '(r, ev, kvs) := act_sem (refuse_open w) (short_write w) a in
    (r, upd w (dirs w) (store kvs (files w)) ev).
Proof.
  destruct w as [sc ur d f h rm ro sw lg].
  destruct a as [p [s|e]|p name]; unfold act_sem, do_action, with_open, bind,
    open_w, finally, file_close, lift, raise, file_write, append_to, upd, emit,
    set_handles, set_files, store; cbn -[String.substring String.length];
    case_bool_decide; try done.
  - destruct (sw !! p) as [n|] eqn:Hsw;
      cbn -[String.substring String.length]; rewrite ?Hsw;
      try case_bool_decide; cbn -[String.substring String.length];
      rewrite String.eqb_refl, lookup_insert_eq, insert_insert_eq;
      rewrite <- !app_assoc; reflexivity.
  - cbn. rewrite ?String.eqb_refl, ?remove_first_head, <- ?app_assoc. reflexivity.
  - cbn. rewrite ?String.eqb_refl, ?remove_first_head, <- ?app_assoc. reflexivity.
Qed.

Lemma for_each_actions l w :
  for_each l do_action w =
    let '(r, ev, kvs) := acts_sem (refuse_open w) (short_write w) l in
    (r, upd w (dirs w) (store kvs (files w)) ev).
Proof.
  revert w. induction l as [|a l IH]; intros w.
  - cbn. by rewrite upd_id.
  - cbn [for_each acts_sem]. unfold bind. rewrite do_action_sem.
    destruct (act_sem _ _ a) as [[[[]|e] ev] kvs]; [|done].
    rewrite IH. cbn [refuse_open short_write upd dirs files].
    destruct (acts_sem _ _ l) as [[r ev'] kvs'].
    by rewrite upd_upd, store_app.
Qed.

(** ** The scan

    What [glob] finds depends on the scanned tree only; a failed
    [os.listdir] is logged and gives no name. *)

Definition scan_world (sc : gmap string (list string)) (ur : gset string)
    : world :=
  World sc ur ∅ ∅ [] ∅ ∅ ∅ [].

Definition found (sc : gmap string (list string)) (ur : gset string)
    (pattern : string) : list string :=
  match (discover pattern (scan_world sc ur)).1 with
  | Ok names => names
  | Raise _ => []
  end.

Definition globbed (sc : gmap string (list string)) (ur : gset string)
    (pattern : string) : list string :=
  match (glob pattern (scan_world sc ur)).1 with
  | Ok names => names
  | Raise _ => []
  end.

Definition scan_events (sc : gmap string (list string)) (ur : gset string)
    (pattern : string) : list event :=
  log (glob pattern (scan_world sc ur)).2.

Lemma glob_sem pattern w :
  glob pattern w =
    (Ok (globbed (scan w) (unreadable w) pattern),
     upd w (dirs w) (files w) (scan_events (scan w) (unreadable w) pattern)).
Proof.
  destruct w as [sc ur d f h rm ro sw lg].
  unfold globbed, scan_events, glob, scan_world.
  destruct (Path.split pattern) as [dirname basename].
  unfold bind, glob1, os_listdir, ret, upd, emit. cbn.
  case_bool_decide; cbn; [done|].
  destruct (sc !! _); cbn; [|done]. by rewrite app_nil_r.
Qed.

Lemma discover_sem pattern w :
  discover pattern w =
    (Ok (found (scan w) (unreadable w) pattern),
     upd w (dirs w) (files w) (scan_events (scan w) (unreadable w) pattern)).
Proof.
  unfold found, discover, bind. rewrite !glob_sem. reflexivity.
Qed.

(** ** Directories

    [os.makedirs] under its guard, as a recursion on the chain of
    directories from the leaf up to the root of the output tree. *)

Fixpoint ensure_chain (chain : list string) : M unit :=
  match chain with
  | [] => ret tt
  | c :: parents =>
      ex <- os_path_exists c ;;
      if negb ex then ensure_chain parents ;; os_mkdir c else ret tt
  end.

Definition mkdir_events (ds : list string) (r : res unit) : list event :=
  map EvMkdir ds ++ match r with Ok _ => [] | Raise e => [EvFail Mkdir e] end.

Lemma os_mkdir_sem p w :
  os_mkdir p w =
    if exists_b p w then
      (Raise (OSError EEXIST p),
       upd w (dirs w) (files w) [EvFail Mkdir (OSError EEXIST p)])
    else if bool_decide (p ∈ refuse_mkdir w) then
      (Raise (OSError EACCES p),
       upd w (dirs w) (files w) [EvFail Mkdir (OSError EACCES p)])
    else (Ok tt, upd w ({[p]} ∪ dirs w) (files w) [EvMkdir p]).
Proof.
  unfold os_mkdir, bind, os_path_exists. destruct (exists_b p w); reflexivity.
Qed.

Lemma exists_b_upd p w d ev :
  exists_b p (upd w d (files w) ev)
  = (bool_decide (p ∈ d) || bool_decide (is_Some (files w !! p)))%bool.
Proof. reflexivity. Qed.

Lemma exists_b_mono p w d ev :
  dirs w ⊆ d → exists_b p w = true → exists_b p (upd w d (files w) ev) = true.
Proof.
  unfold exists_b; cbn. intros Hd [H|H]%orb_true_iff; apply orb_true_iff.
  - left. apply bool_decide_eq_true. apply bool_decide_eq_true in H. set_solver.
  - by right.
Qed.

Lemma ensure_chain_skip c parents w :
  exists_b c w = true → ensure_chain (c :: parents) w = (Ok tt, w).
Proof. intros H. cbn. unfold bind, os_path_exists. by rewrite H. Qed.

Lemma ensure_chain_spec chain :
  NoDup chain → ∀ w, ∃ r ds,
    ensure_chain chain w
      = (r, upd w (list_to_set ds ∪ dirs w) (files w) (mkdir_events ds r))
    ∧ ds ⊆ chain
    ∧ (∀ p, p ∉ chain → exists_b p w = false →
         exists_b p (upd w (list_to_set ds ∪ dirs w) (files w) []) = false)
    ∧ (r = Ok tt → ∀ c parents, chain = c :: parents →
         exists_b c (upd w (list_to_set ds ∪ dirs w) (files w) []) = true)
    ∧ (∀ e, r = Raise e → ∀ v,
         dirs v = list_to_set ds ∪ dirs w → files v = files w →
         refuse_mkdir v = refuse_mkdir w →
         ensure_chain chain v
         = (Raise e, upd v (dirs v) (files v) [EvFail Mkdir e]))
    ∧ (refuse_mkdir w = ∅ → r = Ok tt).
Proof.
  induction chain as [|c parents IH]; intros Hnd w.
  { exists (Ok tt), []. cbn. unfold ret, mkdir_events. cbn.
    rewrite (left_id_L ∅ (∪)), upd_id.
    split_and!; done. }
  apply NoDup_cons in Hnd as [Hc Hnd].
  destruct (exists_b c w) eqn:Hex.
  { exists (Ok tt), []. rewrite ensure_chain_skip by done.
    unfold mkdir_events. cbn. rewrite (left_id_L ∅ (∪)), upd_id.
    split_and!; try done; [set_solver|].
    by intros _ c' parents' [= <- <-]. }
  destruct (IH Hnd w) as (ra & ds & Hrun & Hds & Hframe & Hhead & Hagain & Hcalm).
  cbn [ensure_chain]. unfold bind at 1. unfold os_path_exists. rewrite Hex.
  cbn [negb]. unfold bind. rewrite Hrun.
  destruct ra as [[]|e].
  - (* the parents are there *)
    rewrite os_mkdir_sem.
    assert (Hexc : exists_b c (upd w (list_to_set ds ∪ dirs w) (files w)
                                 (mkdir_events ds (Ok tt))) = false).
    { specialize (Hframe c Hc Hex). exact Hframe. }
    rewrite Hexc. cbn [refuse_mkdir upd].
    case_bool_decide as Href.
    + exists (Raise (OSError EACCES c)), ds. rewrite upd_upd.
      cbn [dirs files upd].
      split; [unfold mkdir_events; cbn; by rewrite app_nil_r|].
      split; [set_solver|].
      split; [intros p Hp; apply Hframe; set_solver|].
      split; [done|].
      split; [|intros Hempty; rewrite Hempty in Href; set_solver].
      intros e [= <-] v Hdv Hfv Hrv.
      assert (Hexv : exists_b c v = false).
      { unfold exists_b. rewrite Hdv, Hfv. exact Hexc. }
      rewrite Hexv. cbn [negb]. cbv beta.
      assert (Hpar : ensure_chain parents v = (Ok tt, v)).
      { destruct parents as [|c' parents']; [done|].
        apply ensure_chain_skip. specialize (Hhead eq_refl c' parents' eq_refl).
        unfold exists_b. rewrite Hdv, Hfv. exact Hhead. }
      rewrite Hpar, os_mkdir_sem, Hexv, Hrv.
      by rewrite bool_decide_eq_true_2 by done.
    + exists (Ok tt), (ds ++ [c]). rewrite upd_upd. cbn [dirs files upd].
      split.
      { unfold mkdir_events. rewrite map_app, !app_nil_r. cbn.
        do 2 f_equal. rewrite list_to_set_app_L. cbn. set_solver. }
      split; [set_solver|].
      split.
      { intros p Hp Hpw. rewrite exists_b_upd.
        assert (Hp' : p ∉ parents) by set_solver.
        specialize (Hframe p Hp' Hpw). rewrite exists_b_upd in Hframe.
        apply orb_false_iff in Hframe as [H1 H2]. rewrite H2, orb_false_r.
        apply bool_decide_eq_false. apply bool_decide_eq_false in H1.
        rewrite list_to_set_app_L. cbn. set_solver. }
      split.
      { intros _ c' parents' [= <- <-]. rewrite exists_b_upd.
        apply orb_true_iff. left. apply bool_decide_eq_true.
        rewrite list_to_set_app_L. cbn. set_solver. }
      split; [done|done].
  - (* a parent could not be made *)
    exists (Raise e), ds.
    split; [done|]. split; [set_solver|].
    split; [intros p Hp; apply Hframe; set_solver|].
    split; [done|].
    split; [|intros Hempty; by specialize (Hcalm Hempty)].
    intros e' [= <-] v Hdv Hfv Hrv.
    assert (Hexv : exists_b c v = false).
    { specialize (Hframe c Hc Hex). unfold exists_b. rewrite Hdv, Hfv. exact Hframe. }
    rewrite Hexv. cbn [negb]. cbv beta.
    by rewrite (Hagain e eq_refl v Hdv Hfv Hrv).
Qed.

(** ** [os.makedirs] on the directories of the script *)

Definition ensure (folder : string) : M unit :=
  ex <- os_path_exists (source_join folder) ;;
  if negb ex then os_makedirs (source_join folder) else ret tt.

Lemma ignoring_eexist_mkdir p w :
  exists_b p w = false → ignoring_eexist (os_mkdir p) w = os_mkdir p w.
Proof.
  intros H. unfold ignoring_eexist. rewrite os_mkdir_sem, H.
  by case_bool_decide.
Qed.

Lemma bind_exists {B} p (k : bool → M B) w :
  (ex <- os_path_exists p ;; k ex) w = k (exists_b p w) w.
Proof. reflexivity. Qed.

Lemma bind_run {A B} (m : M A) (k : A → M B) w :
  (x <- m ;; k x) w = match m w with
                      | (Ok a, w') => k a w'
                      | (Raise e, w') => (Raise e, w')
                      end.
Proof. reflexivity. Qed.

(** [os.makedirs] of a directory right under [source]. *)
Definition makedirs2 (child : string) : M unit :=
  ex <- os_path_exists "source" ;;
  if negb ex then ignoring_eexist (os_mkdir "source") ;; os_mkdir child
  else os_mkdir child.

Lemma makedirs2_chain child w :
  child ≠ "source" → exists_b child w = false →
  makedirs2 child w = (ensure_chain ["source"] ;; os_mkdir child) w.
Proof.
  intros Hne Hex. unfold makedirs2. cbn [ensure_chain].
  rewrite bind_exists, (bind_run (bind _ _)), bind_exists.
  destruct (exists_b "source" w) eqn:Hs; cbn [negb]; [done|].
  rewrite !bind_run, ignoring_eexist_mkdir by done. done.
Qed.

Lemma ensure2_chain folder child w :
  source_join folder = child →
  makedirs_go (String.length child) child = makedirs2 child →
  child ≠ "source" →
  ensure folder w = ensure_chain [child; "source"] w.
Proof.
  intros <- Hgo Hne. unfold ensure, os_makedirs. rewrite Hgo.
  cbn [ensure_chain]. rewrite !bind_exists.
  destruct (exists_b _ w) eqn:Hex; cbn [negb]; [done|].
  by apply makedirs2_chain.
Qed.

Ltac ensure2 := intros; apply ensure2_chain; [reflexivity | reflexivity | discriminate].

Lemma ensure_modules w :
  ensure "modules" w = ensure_chain ["source/modules"; "source"] w.
Proof. revert w. ensure2. Qed.

Lemma ensure_markov w :
  ensure "markov" w = ensure_chain ["source/markov"; "source"] w.
Proof. revert w. ensure2. Qed.

Lemma ensure_models w :
  ensure "models" w = ensure_chain ["source/models"; "source"] w.
Proof. revert w. ensure2. Qed.

Lemma ensure_random w :
  ensure "random" w = ensure_chain ["source/random"; "source"] w.
Proof. revert w. ensure2. Qed.

Lemma ensure_tools w :
  ensure "tools" w = ensure_chain ["source/tools"; "source"] w.
Proof. revert w. ensure2. Qed.

Lemma ensure_util w :
  ensure "util" w = ensure_chain ["source/util"; "source"] w.
Proof. revert w. ensure2. Qed.

Lemma exists_b_after_mkdir p q w ev :
  p ≠ q →
  exists_b p (upd w ({[q]} ∪ dirs w) (files w) ev) = exists_b p w.
Proof.
  intros Hne. unfold exists_b. cbn. f_equal.
  apply bool_decide_ext. set_solver.
Qed.

Lemma ensure_solow w :
  ensure "models/solow" w
  = ensure_chain ["source/models/solow"; "source/models"; "source"] w.
Proof.
  unfold ensure, os_makedirs.
  change (source_join "models/solow") with "source/models/solow".
  change (makedirs_go (String.length "source/models/solow") "source/models/solow")
    with (ex <- os_path_exists "source/models" ;;
          if negb ex
          then ignoring_eexist (makedirs2 "source/models") ;;
               os_mkdir "source/models/solow"
          else os_mkdir "source/models/solow").
  cbn [ensure_chain]. rewrite !bind_exists.
  destruct (exists_b "source/models/solow" w) eqn:Hex; cbn [negb]; [done|].
  rewrite bind_exists, (bind_run (bind _ _)), bind_exists.
  destruct (exists_b "source/models" w) eqn:Hm; cbn [negb]; [done|].
  assert (Hig : ignoring_eexist (makedirs2 "source/models") w
                = (ensure_chain ["source"] ;; os_mkdir "source/models") w).
  { rewrite <- makedirs2_chain by done.
    unfold ignoring_eexist at 1. unfold makedirs2. rewrite bind_exists.
    destruct (exists_b "source" w) eqn:Hs; cbn [negb].
    - rewrite os_mkdir_sem, Hm. by case_bool_decide.
    - rewrite bind_run, ignoring_eexist_mkdir by done.
      rewrite (os_mkdir_sem "source"), Hs.
      case_bool_decide; [done|]. rewrite os_mkdir_sem.
      rewrite exists_b_after_mkdir, Hm by done. cbn [refuse_mkdir upd].
      by case_bool_decide. }
  rewrite bind_run, Hig. reflexivity.
Qed.

(** ** The two modes as a scan, directories and a list of files *)

Definition module_actions (folder : list string) (template : string)
    (mods : list string) : list action :=
  map (λ modl, Put (Path.join "source" (folder ++ [modl +:+ ".rst"]))
                   (render_module template modl)) mods.

(** The inclusion block of a category index, as the script builds it. *)
Definition toc (prefix : string) (names : list string) : string :=
  prefix +:+ Py.join (Py.nl +:+ "   " +:+ prefix) names.

Definition category_index (f_name files_ : string) : res string :=
  Py.format split_file_template
    [("name", Py.capitalize f_name);
     ("equals", Py.mul "=" (Py.len f_name));
     ("files", files_)].

Definition index_actions (markov models random tools util : list string)
    : list action :=
  [ Put "source/markov.rst" (category_index "markov" (toc "markov/" markov));
    Put "source/models.rst"
      (category_index "models" (toc "models/" models +:+ Py.nl +:+ "   solow/"));
    Put "source/random.rst" (category_index "random" (toc "random/" random));
    Put "source/tools.rst" (category_index "tools" (toc "tools/" tools));
    Put "source/util.rst" (category_index "util" (toc "util/" util)) ].

Definition split_actions (markov models solow random tools util : list string)
    : list action :=
  module_actions ["markov"] markov_module_template markov
  ++ module_actions ["models"] model_module_template models
  ++ module_actions ["models"; "solow"] solow_model_module_template solow
  ++ module_actions ["random"] random_module_template random
  ++ module_actions ["tools"] module_template tools
  ++ module_actions ["util"] util_module_template util
  ++ [Put "source/index.rst" (Ok split_index_template)]
  ++ index_actions markov models random tools util.

Definition split_folders : list string :=
  ["markov"; "models"; "models/solow"; "random"; "tools"; "util"].

Definition split_patterns : list string :=
  [ "../quantecon/markov/[a-z0-9]*.py"; "../quantecon/models/[a-z0-9]*.py";
    "../quantecon/models/solow/[a-z0-9]*.py"; "../quantecon/random/[a-z0-9]*.py";
    "../quantecon/[a-z0-9]*.py"; "../quantecon/util/[a-z0-9]*.py" ].

Definition split_plan (sc : gmap string (list string)) (ur : gset string)
    : list action :=
  split_actions
    (found sc ur "../quantecon/markov/[a-z0-9]*.py")
    (found sc ur "../quantecon/models/[a-z0-9]*.py")
    (found sc ur "../quantecon/models/solow/[a-z0-9]*.py")
    (found sc ur "../quantecon/random/[a-z0-9]*.py")
    (found sc ur "../quantecon/[a-z0-9]*.py")
    (found sc ur "../quantecon/util/[a-z0-9]*.py").

Lemma write_modules_actions folder template mods :
  write_modules folder template mods
  = for_each (module_actions folder template mods) do_action.
Proof. unfold write_modules, module_actions. by rewrite for_each_map. Qed.

Lemma seq_actions l (rest : M unit) l' w :
  (∀ w', rest w' = for_each l' do_action w') →
  (for_each l do_action ;; rest) w = for_each (l ++ l') do_action w.
Proof. intros H. rewrite for_each_app. apply bind_ext; auto. Qed.

Lemma with_open_ext {A} p (body body' : string → M A) w :
  (∀ f w', body f w' = body' f w') → with_open p body w = with_open p body' w.
Proof.
  intros H. unfold with_open. apply bind_ext; [done|]. intros f w'.
  unfold finally. by rewrite H.
Qed.

Lemma index_block_ext p (d : gmap string string) f_name files_ w :
  d !! f_name = Some files_ →
  with_open p (λ f,
    files_ <- lift (dict_get d f_name) ;;
    temp <- lift (Py.format split_file_template
                    [("name", Py.capitalize f_name);
                     ("equals", Py.mul "=" (Py.len f_name));
                     ("files", files_)]) ;;
    file_write f temp) w
  = do_action (Put p (category_index f_name files_)) w.
Proof.
  intros Hd. cbn [do_action]. apply with_open_ext. intros f w'.
  unfold dict_get. rewrite Hd. reflexivity.
Qed.

Lemma model_tool_run w :
  model_tool w =
    (for_each split_folders ensure ;;
     for_each (split_plan (scan w) (unreadable w)) do_action)
      (upd w (dirs w) (files w)
         (concat (map (scan_events (scan w) (unreadable w)) split_patterns))).
Proof.
  unfold model_tool.
  do 6 (rewrite bind_run, discover_sem; cbn [scan unreadable upd dirs files];
        rewrite ?upd_upd).
  replace (concat (map (scan_events (scan w) (unreadable w)) split_patterns))
    with (((((scan_events (scan w) (unreadable w)
              "../quantecon/markov/[a-z0-9]*.py" ++
            scan_events (scan w) (unreadable w)
              "../quantecon/models/[a-z0-9]*.py") ++
           scan_events (scan w) (unreadable w)
             "../quantecon/models/solow/[a-z0-9]*.py") ++
          scan_events (scan w) (unreadable w)
            "../quantecon/random/[a-z0-9]*.py") ++
         scan_events (scan w) (unreadable w) "../quantecon/[a-z0-9]*.py") ++
        scan_events (scan w) (unreadable w) "../quantecon/util/[a-z0-9]*.py")
    by (cbn; rewrite app_nil_r, <- !app_assoc; reflexivity).
  apply bind_ext; [reflexivity|]. intros _ w1.
  unfold split_plan, split_actions.
  do 6 (rewrite write_modules_actions; apply seq_actions; intros ?).
  cbn [for_each app index_actions].
  apply bind_ext; [reflexivity|]. intros _ ?.
  repeat (apply bind_ext; [by apply index_block_ext|]; intros _ ?).
  reflexivity.
Qed.

Definition single_names (sc : gmap string (list string)) (ur : gset string)
    : list string :=
  map (λ x, Py.last_item (Py.split "/" x))
      (globbed sc ur "../quantecon/[a-z0-9]*.py").

Definition single_index (mod_names : list string) : res string :=
  Py.format all_index_template
    [("generated",
      Py.join (Py.nl +:+ "   ")
        (map (λ x, "modules/" +:+ Py.first_item (Py.split "." x)) mod_names))].

Definition single_actions (mod_names : list string) : list action :=
  map (λ modl,
         Call (Path.join "source"
                 ["modules"; Py.first_item (Py.split "." modl) +:+ ".rst"])
              "gen_module") mod_names
  ++ [Put "source/index.rst" (single_index mod_names)].

Definition single_plan (sc : gmap string (list string)) (ur : gset string)
    : list action :=
  single_actions (single_names sc ur).

Lemma all_auto_run w :
  all_auto w =
    (ensure "modules" ;; for_each (single_plan (scan w) (unreadable w)) do_action)
      (upd w (dirs w) (files w)
         (scan_events (scan w) (unreadable w) "../quantecon/[a-z0-9]*.py")).
Proof.
  unfold all_auto. rewrite bind_run, glob_sem.
  fold (single_names (scan w) (unreadable w)).
  unfold single_plan, single_actions.
  generalize (single_names (scan w) (unreadable w)) as names. intros names.
  change (ex <- os_path_exists (source_join "modules") ;;
          (if negb ex then os_makedirs (source_join "modules") else ret tt) ;;
          ?k) with (ensure "modules" ;; k).
  apply bind_ext; [reflexivity|]. intros _ w1.
  rewrite for_each_app, for_each_map.
  apply bind_ext; [reflexivity|]. intros _ w2.
  by rewrite for_each_single.
Qed.

(** ** All the directories of a mode *)

Definition split_chains : list (list string) :=
  [ ["source/markov"; "source"]; ["source/models"; "source"];
    ["source/models/solow"; "source/models"; "source"];
    ["source/random"; "source"]; ["source/tools"; "source"];
    ["source/util"; "source"] ].

Definition single_chains : list (list string) :=
  [ ["source/modules"; "source"] ].

Lemma ensure_split w :
  for_each split_folders ensure w = for_each split_chains ensure_chain w.
Proof.
  unfold split_folders, split_chains. cbn [for_each].
  apply bind_ext; [apply ensure_markov|]; intros _ ?.
  apply bind_ext; [apply ensure_models|]; intros _ ?.
  apply bind_ext; [apply ensure_solow|]; intros _ ?.
  apply bind_ext; [apply ensure_random|]; intros _ ?.
  apply bind_ext; [apply ensure_tools|]; intros _ ?.
  apply bind_ext; [apply ensure_util|]; intros _ ?. done.
Qed.

Lemma ensure_single w :
  ensure "modules" w = for_each single_chains ensure_chain w.
Proof. unfold single_chains. by rewrite for_each_single, ensure_modules. Qed.

Definition good_chain (ch : list string) : Prop := NoDup ch ∧ ch ≠ [].

Lemma mkdir_events_app ds ds' r :
  mkdir_events ds (Ok tt) ++ mkdir_events ds' r = mkdir_events (ds ++ ds') r.
Proof. unfold mkdir_events. by rewrite map_app, app_nil_r, app_assoc. Qed.

Lemma ensure_all_skip chains w :
  (∀ ch, ch ∈ chains → ∃ c parents, ch = c :: parents ∧ exists_b c w = true) →
  for_each chains ensure_chain w = (Ok tt, w).
Proof.
  induction chains as [|ch chains IH]; intros H; [done|].
  destruct (H ch) as (c & parents & -> & Hc); [left|].
  cbn [for_each]. rewrite bind_run, ensure_chain_skip by done.
  apply IH. intros ch' Hch'. apply H. by right.
Qed.

Lemma ensure_all_spec chains :
  Forall good_chain chains → ∀ w, ∃ r ds,
    for_each chains ensure_chain w
      = (r, upd w (list_to_set ds ∪ dirs w) (files w) (mkdir_events ds r))
    ∧ ds ⊆ concat chains
    ∧ (r = Ok tt → ∀ c parents, c :: parents ∈ chains →
         exists_b c (upd w (list_to_set ds ∪ dirs w) (files w) []) = true)
    ∧ (∀ e, r = Raise e → ∀ v,
         dirs v = list_to_set ds ∪ dirs w → files v = files w →
         refuse_mkdir v = refuse_mkdir w →
         for_each chains ensure_chain v
         = (Raise e, upd v (dirs v) (files v) [EvFail Mkdir e]))
    ∧ (refuse_mkdir w = ∅ → r = Ok tt).
Proof.
  induction chains as [|ch chains IH]; intros Hgood w.
  { exists (Ok tt), []. cbn. unfold ret, mkdir_events. cbn.
    rewrite (left_id_L ∅ (∪)), upd_id. split_and!; try done.
    intros _ c parents Hin. by apply elem_of_nil in Hin. }
  apply Forall_cons in Hgood as [[Hnd Hne] Hgood].
  destruct (ensure_chain_spec ch Hnd w)
    as (r1 & ds1 & Hrun1 & Hds1 & _ & Hhead1 & Hagain1 & Hcalm1).
  cbn [for_each]. rewrite bind_run, Hrun1.
  destruct r1 as [[]|e].
  - destruct (IH Hgood (upd w (list_to_set ds1 ∪ dirs w) (files w)
                               (mkdir_events ds1 (Ok tt))))
      as (r2 & ds2 & Hrun2 & Hds2 & Hhead2 & Hagain2 & Hcalm2).
    exists r2, (ds1 ++ ds2). rewrite Hrun2, upd_upd.
    cbn [dirs files upd refuse_mkdir] in *.
    rewrite mkdir_events_app, list_to_set_app_L.
    assert (Hset : list_to_set ds2 ∪ (list_to_set ds1 ∪ dirs w)
                   = list_to_set ds1 ∪ list_to_set ds2 ∪ dirs w :> gset string)
      by set_solver.
    rewrite Hset in *.
    specialize (Hhead1 eq_refl).
    assert (Hhead1' : ∀ c parents d, ch = c :: parents →
              list_to_set ds1 ∪ dirs w ⊆ d →
              (bool_decide (c ∈ d) || bool_decide (is_Some (files w !! c)))%bool = true).
    { intros c parents d Hch Hd. specialize (Hhead1 c parents Hch).
      rewrite exists_b_upd in Hhead1.
      apply orb_true_iff in Hhead1 as [H|H]; apply orb_true_iff; [left|by right].
      apply bool_decide_eq_true. apply bool_decide_eq_true in H. set_solver. }
    split; [done|].
    split; [cbn [concat]; set_solver|].
    split.
    { intros -> c parents [[= <-]|Hin]%elem_of_cons.
      - rewrite exists_b_upd. apply (Hhead1' c parents); [done|set_solver].
      - exact (Hhead2 eq_refl c parents Hin). }
    split; [|by auto].
    intros e -> v Hdv Hfv Hrv.
    cbn [for_each]. rewrite bind_run.
    destruct ch as [|c parents]; [done|].
    rewrite ensure_chain_skip.
    + by apply (Hagain2 e eq_refl v).
    + unfold exists_b. rewrite Hdv, Hfv.
      apply (Hhead1' c parents); [done|set_solver].
  - exists (Raise e), ds1.
    split; [done|]. split; [cbn [concat]; set_solver|].
    split; [done|].
    split; [|intros Hempty; by specialize (Hcalm1 Hempty)].
    intros e' [= <-] v Hdv Hfv Hrv.
    cbn [for_each]. by rewrite bind_run, (Hagain1 e eq_refl v Hdv Hfv Hrv).
Qed.

Lemma split_chains_good : Forall good_chain split_chains.
Proof.
  unfold split_chains, good_chain.
  repeat (apply Forall_cons_2;
          [split; [apply (bool_decide_unpack _); by vm_compute|done]|]).
  apply Forall_nil_2.
Qed.

Lemma single_chains_good : Forall good_chain single_chains.
Proof.
  unfold single_chains, good_chain.
  repeat (apply Forall_cons_2;
          [split; [apply (bool_decide_unpack _); by vm_compute|done]|]).
  apply Forall_nil_2.
Qed.

(** ** Names and paths *)

Definition no_slash (s : string) : Prop := has_char "/" s = false.

Lemma split_segments sep c s :
  has_char c s = false ∨ c = sep →
  Py.split sep s ≠ [] ∧ Forall (λ seg, has_char c seg = false) (Py.split sep s).
Proof.
  induction s as [|d s IH]; intros H.
  - split; [done|]. by repeat constructor.
  - assert (H' : has_char c s = false ∨ c = sep).
    { destruct H as [H|H]; [|by right]. left. simpl in H.
      by apply orb_false_iff in H as [_ H]. }
    destruct (IH H') as [Hne Hall]. cbn [Py.split].
    destruct (Ascii.eqb d sep) eqn:Hd.
    + split; [done|]. by constructor.
    + destruct (Py.split sep s) as [|seg segs]; [done|]. split; [done|].
      apply Forall_cons in Hall as [Hseg Hall]. constructor; [|done].
      simpl. rewrite Hseg, orb_false_r.
      destruct H as [H | ->]; [|done].
      simpl in H. by apply orb_false_iff in H as [H _].
Qed.

Lemma last_item_in (l : list string) : l ≠ [] → Py.last_item l ∈ l.
Proof.
  unfold Py.last_item. induction l as [|x [|y l] IH]; intros H; [done|left|].
  right. by apply IH.
Qed.

Lemma first_item_in (l : list string) : l ≠ [] → Py.first_item l ∈ l.
Proof. destruct l; [done|left]. Qed.

Lemma last_segment_no_slash x : no_slash (Py.last_item (Py.split "/" x)).
Proof.
  destruct (split_segments "/" "/" x) as [Hne Hall]; [by right|].
  rewrite Forall_forall in Hall. apply Hall. by apply last_item_in.
Qed.

Lemma first_segment_no_slash sep s :
  no_slash s → no_slash (Py.first_item (Py.split sep s)).
Proof.
  intros Hs. destruct (split_segments sep "/" s) as [Hne Hall]; [by left|].
  rewrite Forall_forall in Hall. apply Hall. by apply first_item_in.
Qed.

Lemma substring_no_char c n s :
  has_char c s = false → has_char c (String.substring 0 n s) = false.
Proof.
  revert s. induction n as [|n IH]; intros [|d s] H; try done.
  simpl in *. apply orb_false_iff in H as [-> H]. by apply IH.
Qed.

Lemma drop_last3_no_slash s : no_slash s → no_slash (Py.drop_last3 s).
Proof. apply substring_no_char. Qed.

Lemma no_slash_start n ext :
  no_slash n → Path.starts_with_slash ext = false →
  Path.starts_with_slash (n +:+ ext) = false.
Proof.
  destruct n as [|c n]; intros Hn Hext; [done|].
  simpl in Hn. apply orb_false_iff in Hn as [Hc _]. exact Hc.
Qed.

(** The path of a file named after a module, in a directory of the output
    tree. *)
Lemma join_single n :
  no_slash n →
  Path.join "source" ["modules"; n +:+ ".rst"] = "source/modules/" +:+ n +:+ ".rst".
Proof.
  intros Hn. unfold Path.join. cbn [foldl].
  change (Path.join2 "source" "modules") with "source/modules".
  unfold Path.join2. by rewrite no_slash_start.
Qed.

Definition module_folders : list (list string * string) :=
  [ (["markov"], "source/markov/"); (["models"], "source/models/");
    (["models"; "solow"], "source/models/solow/");
    (["random"], "source/random/"); (["tools"], "source/tools/");
    (["util"], "source/util/") ].

Lemma join_split folder prefix n :
  (folder, prefix) ∈ module_folders → no_slash n →
  Path.join "source" (folder ++ [n +:+ ".rst"]) = prefix +:+ n +:+ ".rst".
Proof.
  unfold module_folders. rewrite !elem_of_cons, elem_of_nil.
  intros [H|[H|[H|[H|[H|[H|[]]]]]]] Hn; injection H as -> ->;
    unfold Path.join; cbn [foldl app];
    repeat match goal with
    | |- context [Path.join2 ?a ?b] =>
        lazymatch b with
        | String.append _ _ => fail
        | _ => let v := eval vm_compute in (Path.join2 a b) in
               change (Path.join2 a b) with v
        end
    end;
    unfold Path.join2; by rewrite no_slash_start.
Qed.

(** ** Stored files *)

Lemma store_snoc kvs k v f : store (kvs ++ [(k, v)]) f = <[k := v]> (store kvs f).
Proof. unfold store. by rewrite foldl_app. Qed.

Lemma store_union kvs f : store kvs f = store kvs ∅ ∪ f.
Proof.
  induction kvs as [|[k v] kvs IH] using rev_ind.
  - cbn. by rewrite (left_id_L ∅ (∪)).
  - rewrite !store_snoc, IH. by rewrite insert_union_l.
Qed.

Lemma store_idem kvs f : store kvs (store kvs f) = store kvs f.
Proof.
  rewrite (store_union kvs (store kvs f)), (store_union kvs f).
  by rewrite (assoc_L (∪)), (idemp_L (∪)).
Qed.

Lemma store_is_Some kvs f p : is_Some (f !! p) → is_Some (store kvs f !! p).
Proof.
  intros H. rewrite store_union. apply lookup_union_is_Some. by right.
Qed.

Lemma store_lookup_other kvs f p :
  p ∉ kvs.*1 → store kvs f !! p = f !! p.
Proof.
  induction kvs as [|[k v] kvs IH] using rev_ind; intros Hp; [done|].
  rewrite store_snoc. rewrite fmap_app in Hp. cbn in Hp.
  rewrite lookup_insert_ne by set_solver. apply IH. set_solver.
Qed.

Lemma store_lookup_agree kvs f p s :
  p ∈ kvs.*1 → (∀ s', (p, s') ∈ kvs → s' = s) → store kvs f !! p = Some s.
Proof.
  induction kvs as [|[k v] kvs IH] using rev_ind; intros Hp Hs.
  - by apply elem_of_nil in Hp.
  - rewrite store_snoc. destruct (decide (k = p)) as [->|Hne].
    + rewrite lookup_insert_eq. f_equal. apply Hs. set_solver.
    + rewrite lookup_insert_ne by done. apply IH.
      * rewrite fmap_app in Hp. set_solver.
      * intros s' Hin. apply Hs. set_solver.
Qed.

(** ** A mode: scan, directories, files *)

Definition mode_run (chains : list (list string)) (plan : list action)
    (sev : list event) : M unit := λ w,
  (for_each chains ensure_chain ;; for_each plan do_action)
    (upd w (dirs w) (files w) sev).

Definition split_scan (sc : gmap string (list string)) (ur : gset string)
    : list event :=
  concat (map (scan_events sc ur) split_patterns).

Lemma model_tool_mode w :
  model_tool w
  = mode_run split_chains (split_plan (scan w) (unreadable w))
      (split_scan (scan w) (unreadable w)) w.
Proof.
  rewrite model_tool_run. unfold mode_run, split_scan.
  rewrite !bind_run, ensure_split. reflexivity.
Qed.

Lemma all_auto_mode w :
  all_auto w
  = mode_run single_chains (single_plan (scan w) (unreadable w))
      (scan_events (scan w) (unreadable w) "../quantecon/[a-z0-9]*.py") w.
Proof.
  rewrite all_auto_run. unfold mode_run.
  rewrite !bind_run, ensure_single. reflexivity.
Qed.

(** The result of a mode, from the result of its directories and of its
    files. *)
Definition mode_result (w : world) (plan : list action) (sev : list event)
    (rd : res unit) (ds : list string) : res unit * world :=
  match rd with
  | Ok _ =>
      let '(rf, fev, kvs) := acts_sem (refuse_open w) (short_write w) plan in
      (rf, upd w (list_to_set ds ∪ dirs w) (store kvs (files w))
             (sev ++ mkdir_events ds (Ok tt) ++ fev))
  | Raise e =>
      (Raise e, upd w (list_to_set ds ∪ dirs w) (files w)
                  (sev ++ mkdir_events ds (Raise e)))
  end.

Lemma mode_run_spec chains plan sev w :
  Forall good_chain chains → ∃ rd ds,
    mode_run chains plan sev w = mode_result w plan sev rd ds
    ∧ ds ⊆ concat chains
    ∧ (rd = Ok tt → ∀ c parents, c :: parents ∈ chains →
         c ∈ (list_to_set ds ∪ dirs w : gset string) ∨ is_Some (files w !! c))
    ∧ (refuse_mkdir w = ∅ → rd = Ok tt).
Proof.
  intros Hgood. unfold mode_run.
  destruct (ensure_all_spec chains Hgood (upd w (dirs w) (files w) sev))
    as (rd & ds & Hrun & Hds & Hhead & _ & Hcalm).
  exists rd, ds. rewrite bind_run, Hrun. cbn [dirs files upd refuse_mkdir] in *.
  rewrite upd_upd. split_and!; try done.
  - destruct rd as [[]|e]; [|done]. rewrite for_each_actions.
    cbn [refuse_open short_write upd dirs files mode_result].
    destruct (acts_sem _ _ plan) as [[rf fev] kvs].
    by rewrite upd_upd, <- app_assoc.
  - intros Hrd c parents Hin. specialize (Hhead Hrd c parents Hin).
    unfold exists_b in Hhead. cbn [dirs files upd] in Hhead.
    apply orb_true_iff in Hhead as [H|H]; [left|right];
      by apply bool_decide_eq_true in H.
Qed.

Definition is_file_event (e : event) : bool :=
  match e with
  | EvOpen _ | EvWrite _ _ | EvClose _ => true
  | EvFail Open _ | EvFail Write _ => true
  | _ => false
  end.

Definition file_events (ev : list event) : list event :=
  List.filter is_file_event ev.

Lemma file_events_app ev ev' :
  file_events (ev ++ ev') = file_events ev ++ file_events ev'.
Proof. apply List.filter_app. Qed.

Lemma file_events_mkdir ds r : file_events (mkdir_events ds r) = [].
Proof.
  unfold mkdir_events. rewrite file_events_app.
  assert (H : file_events (map EvMkdir ds) = []) by (by induction ds).
  rewrite H. by destruct r.
Qed.

(** Running a mode again on the world the first run left. *)
Lemma mode_run_again chains plan sev w :
  Forall good_chain chains →
  let '(r1, w1) := mode_run chains plan sev w in
  let '(r2, w2) := mode_run chains plan sev w1 in
  r2 = r1 ∧ dirs w2 = dirs w1 ∧ files w2 = files w1
  ∧ file_events (trace (mode_run chains plan sev) w1)
    = file_events (trace (mode_run chains plan sev) w).
Proof.
  intros Hgood.
  destruct (ensure_all_spec chains Hgood (upd w (dirs w) (files w) sev))
    as (rd & ds & Hrun & Hds & Hhead & Hagain & _).
  cbn [dirs files upd refuse_mkdir] in *. rewrite upd_upd in Hrun.
  destruct rd as [[]|e].
  - (* the directories are there: the second run makes none *)
    destruct (acts_sem (refuse_open w) (short_write w) plan)
      as [[rf fev] kvs] eqn:Hacts.
    pose (w1 := upd w (list_to_set ds ∪ dirs w) (store kvs (files w))
                  (sev ++ mkdir_events ds (Ok tt) ++ fev)).
    assert (Hrun1 : mode_run chains plan sev w = (rf, w1)).
    { unfold mode_run. rewrite bind_run, Hrun, for_each_actions.
      cbn [refuse_open short_write upd dirs files]. rewrite Hacts.
      by rewrite upd_upd, <- app_assoc. }
    assert (Hskip : for_each chains ensure_chain (upd w1 (dirs w1) (files w1) sev)
                    = (Ok tt, upd w1 (dirs w1) (files w1) sev)).
    { apply ensure_all_skip. intros ch Hch.
      assert (Hg : good_chain ch) by (rewrite Forall_forall in Hgood; auto).
      destruct ch as [|c parents]; [by destruct Hg|].
      exists c, parents. split; [done|].
      specialize (Hhead eq_refl c parents Hch).
      unfold exists_b in Hhead. cbn [dirs files upd] in Hhead.
      unfold exists_b, w1. cbn [dirs files upd].
      apply orb_true_iff in Hhead as [H|H]; apply orb_true_iff; [by left|right].
      apply bool_decide_eq_true. apply store_is_Some.
      by apply bool_decide_eq_true in H. }
    assert (Hrun2 : mode_run chains plan sev w1
                    = (rf, upd w1 (dirs w1) (store kvs (files w1)) (sev ++ fev))).
    { unfold mode_run. rewrite bind_run, Hskip, for_each_actions.
      cbn [refuse_open short_write upd dirs files w1]. rewrite Hacts.
      by rewrite upd_upd. }
    rewrite Hrun1, Hrun2.
    rewrite (trace_upd _ _ _ _ _ _ Hrun2), (trace_upd _ _ _ _ _ _ Hrun1).
    split; [done|]. split; [done|].
    split; [cbn [files upd w1]; apply store_idem|].
    by rewrite !file_events_app, file_events_mkdir.
  - (* a directory was refused: it is refused again *)
    pose (w1 := upd w (list_to_set ds ∪ dirs w) (files w)
                  (sev ++ mkdir_events ds (Raise e))).
    assert (Hrun1 : mode_run chains plan sev w = (Raise e, w1)).
    { unfold mode_run. by rewrite bind_run, Hrun. }
    assert (Hrun2 : mode_run chains plan sev w1
                    = (Raise e, upd w1 (dirs w1) (files w1)
                                  (sev ++ [EvFail Mkdir e]))).
    { unfold mode_run. rewrite bind_run.
      rewrite (Hagain e eq_refl (upd w1 (dirs w1) (files w1) sev)) by done.
      by rewrite upd_upd. }
    rewrite Hrun1, Hrun2.
    rewrite (trace_upd _ _ _ _ _ _ Hrun2), (trace_upd _ _ _ _ _ _ Hrun1).
    split; [done|]. split; [done|]. split; [done|].
    by rewrite !file_events_app, file_events_mkdir.
Qed.

Lemma trace_ext {A} (m m' : M A) w : m w = m' w → trace m w = trace m' w.
Proof. intros H. unfold trace. by rewrite H. Qed.

Lemma mode_run_env chains plan sev w :
  Forall good_chain chains →
  scan (mode_run chains plan sev w).2 = scan w
  ∧ unreadable (mode_run chains plan sev w).2 = unreadable w
  ∧ handles (mode_run chains plan sev w).2 = handles w.
Proof.
  intros Hgood.
  destruct (mode_run_spec chains plan sev w Hgood) as (rd & ds & -> & _).
  unfold mode_result. destruct rd; [|done].
  by destruct (acts_sem _ _ plan) as [[rf fev] kvs].
Qed.

(** ** The log of a run *)

Definition is_close (e : event) : bool :=
  match e with EvClose _ => true | _ => false end.

(** What follows an open in the log: the handle is released, after a whole
    write, after a failed write, or with nothing written. *)
Definition opened_then_closed (p : string) (post : list event) : Prop :=
  ∃ rest, post = EvClose p :: rest
          ∨ (∃ s, post = EvWrite p s :: EvClose p :: rest)
          ∨ (∃ s e, post = EvWrite p s :: EvFail Write e :: EvClose p :: rest).

Definition bracketed (ev : list event) : Prop :=
  ∀ pre p post, ev = pre ++ EvOpen p :: post → opened_then_closed p post.

(** An error of the file system other than a failed scan ends the run: it
    is the run's result and only releases of handles follow it. *)
Definition fail_stop (r : res unit) (ev : list event) : Prop :=
  ∀ pre c e post, ev = pre ++ EvFail c e :: post → c ≠ Listdir →
    r = Raise e ∧ Forall (λ x, is_close x = true) post.

(** The files, from the files before and the log: an open empties the
    file, a write appends to it. *)
Definition replay_event (f : gmap string string) (e : event)
    : gmap string string :=
  match e with
  | EvOpen p => <[p := ""]> f
  | EvWrite p s => <[p := default "" (f !! p) +:+ s]> f
  | _ => f
  end.

Definition replay (ev : list event) (f : gmap string string)
    : gmap string string :=
  foldl replay_event f ev.

Definition harmless (e : event) : Prop :=
  match e with
  | EvMkdir _ | EvClose _ | EvFail Listdir _ => True
  | _ => False
  end.

Lemma replay_app ev ev' f : replay (ev ++ ev') f = replay ev' (replay ev f).
Proof. apply foldl_app. Qed.

Definition inert (e : event) : Prop :=
  match e with
  | EvOpen _ | EvWrite _ _ => False
  | _ => True
  end.

Lemma replay_inert ev f : Forall inert ev → replay ev f = f.
Proof.
  induction 1 as [|e ev He _ IH]; [done|].
  cbn. by destruct e.
Qed.

Lemma replay_harmless ev f : Forall harmless ev → replay ev f = f.
Proof.
  intros H. apply replay_inert. eapply Forall_impl; [exact H|].
  by intros [| | | |[]].
Qed.

Lemma split_at {A} (l1 l2 pre post : list A) x :
  l1 ++ l2 = pre ++ x :: post →
  (∃ mid, l1 = pre ++ x :: mid ∧ post = mid ++ l2)
  ∨ (∃ mid, pre = l1 ++ mid ∧ l2 = mid ++ x :: post).
Proof.
  revert pre. induction l1 as [|a l1 IH]; intros pre H.
  - right. exists pre. by cbn in *.
  - destruct pre as [|b pre]; cbn in H; injection H as -> H.
    + left. by exists l1.
    + destruct (IH pre H) as [(mid & -> & ->)|(mid & -> & ->)];
        [left|right]; by exists mid.
Qed.

Lemma harmless_no_open ev pre p post :
  Forall harmless ev → ev ≠ pre ++ EvOpen p :: post.
Proof.
  intros H ->. apply Forall_app in H as [_ H]. by apply Forall_cons in H as [H _].
Qed.

Lemma harmless_no_failure ev pre c e post :
  Forall harmless ev → c ≠ Listdir → ev ≠ pre ++ EvFail c e :: post.
Proof.
  intros H Hc ->. apply Forall_app in H as [_ H].
  apply Forall_cons in H as [H _]. by destruct c.
Qed.

Lemma bracketed_app_harmless ev ev' :
  Forall harmless ev → bracketed ev' → bracketed (ev ++ ev').
Proof.
  intros Hev Hev' pre p post [(mid & H & _)|(mid & _ & H)]%split_at.
  - by destruct (harmless_no_open _ _ _ _ Hev H).
  - by apply (Hev' mid).
Qed.

Lemma fail_stop_app_harmless r ev ev' :
  Forall harmless ev → fail_stop r ev' → fail_stop r (ev ++ ev').
Proof.
  intros Hev Hev' pre c e post [(mid & H & _)|(mid & _ & H)]%split_at Hc.
  - by destruct (harmless_no_failure _ _ _ _ _ Hev Hc H).
  - by apply (Hev' mid c).
Qed.

Lemma fail_stop_harmless r ev : Forall harmless ev → fail_stop r ev.
Proof.
  intros Hev pre c e post H Hc.
  by destruct (harmless_no_failure _ _ _ _ _ Hev Hc H).
Qed.

Lemma bracketed_harmless ev : Forall harmless ev → bracketed ev.
Proof. intros Hev pre p post H. by destruct (harmless_no_open _ _ _ _ Hev H). Qed.

Definition scan_failure (e : event) : Prop :=
  match e with EvFail Listdir _ => True | _ => False end.

Lemma scan_failure_harmless ev : Forall scan_failure ev → Forall harmless ev.
Proof. intros H. eapply Forall_impl; [exact H|]. by intros [| | | |[]]. Qed.

Lemma scan_events_failures sc ur pattern :
  Forall scan_failure (scan_events sc ur pattern).
Proof.
  unfold scan_events, glob. destruct (Path.split pattern) as [d b].
  unfold bind, glob1, os_listdir. cbn. case_bool_decide; cbn.
  - by repeat constructor.
  - destruct (sc !! _); cbn; by repeat constructor.
Qed.

Lemma mkdir_events_ok_harmless ds : Forall harmless (mkdir_events ds (Ok tt)).
Proof.
  unfold mkdir_events. rewrite app_nil_r. induction ds; by constructor.
Qed.

Lemma mkdir_events_fail_stop ds e : fail_stop (Raise e) (mkdir_events ds (Raise e)).
Proof.
  unfold mkdir_events. apply fail_stop_app_harmless.
  - induction ds; by constructor.
  - intros [|? [|? ?]] c e' post H Hc; simplify_eq/=. by split.
Qed.

Lemma mkdir_events_bracketed ds r : bracketed (mkdir_events ds r).
Proof.
  unfold mkdir_events. apply bracketed_app_harmless.
  - induction ds; by constructor.
  - destruct r; intros [|? [|? ?]] c post H; simplify_eq/=.
Qed.

Definition not_fatal (x : event) : Prop :=
  match x with
  | EvFail Listdir _ => True
  | EvFail _ _ => False
  | _ => True
  end.

Lemma fail_stop_app r ev ev' :
  Forall not_fatal ev → fail_stop r ev' → fail_stop r (ev ++ ev').
Proof.
  intros Hev Hev' pre c e post [(mid & -> & _)|(mid & _ & H)]%split_at Hc.
  - apply Forall_app in Hev as [_ Hev]. apply Forall_cons in Hev as [Hev _].
    by destruct c.
  - by apply (Hev' mid c).
Qed.

Lemma opened_then_closed_app p post ev :
  opened_then_closed p post → opened_then_closed p (post ++ ev).
Proof.
  intros [rest [->|[[s ->]|(s & e & ->)]]]; exists (rest ++ ev); cbn; eauto.
Qed.

Lemma bracketed_app ev ev' : bracketed ev → bracketed ev' → bracketed (ev ++ ev').
Proof.
  intros Hev Hev' pre p post [(mid & H & ->)|(mid & _ & H)]%split_at.
  - apply opened_then_closed_app. by apply (Hev pre).
  - by apply (Hev' mid).
Qed.

(** What the events and the stored contents of a list of file blocks are
    like. *)
Record file_phase (targets : list string) (r : res unit) (ev : list event)
    (kvs : list (string * string)) : Prop := {
  fp_stop : fail_stop r ev;
  fp_bracketed : bracketed ev;
  fp_replay : ∀ f, replay ev f = store kvs f;
  fp_opened : ∀ p, EvOpen p ∈ ev → p ∈ targets;
  fp_stored : ∀ p, p ∈ kvs.*1 → EvOpen p ∈ ev;
  fp_no_mkdir : ∀ d, EvMkdir d ∉ ev;
  fp_ok : r = Ok tt → Forall not_fatal ev
}.

(** From [l = pre ++ x :: post] with [l] a given list: the places of [x]. *)
Ltac pick_event :=
  repeat match goal with
  | H' : _ = ?pre ++ _ :: _ |- _ => destruct pre; cbn in H'; simplify_eq
  end.

Lemma act_sem_phase ro sw a :
  let '(r, ev, kvs) := act_sem ro sw a in file_phase [target a] r ev kvs.
Proof.
  unfold act_sem.
  case_bool_decide as Hro.
  { split; try done.
    - intros pre c e post H Hc. pick_event. by split.
    - intros pre p post H. pick_event.
    - intros p H. rewrite list_elem_of_singleton in H. done.
    - intros p H. by apply elem_of_nil in H.
    - intros d H. rewrite list_elem_of_singleton in H. done. }
  assert (Hsimple : ∀ r, r ≠ Ok tt →
    file_phase [target a] r [EvOpen (target a); EvClose (target a)]
      [(target a, "")]).
  { intros r Hr. split; try done.
    - intros pre c e post H Hc. pick_event.
    - intros pre p post H. pick_event. exists []. by left.
    - intros p H. rewrite !elem_of_cons, elem_of_nil in H.
      destruct H as [H|[H|[]]]; simplify_eq. by left.
    - intros p H. cbn in H. rewrite list_elem_of_singleton in H. subst. by left.
    - intros d H. rewrite !elem_of_cons, elem_of_nil in H.
      by destruct H as [H|[H|[]]]. }
  assert (Hwhole : ∀ s,
    file_phase [target a] (Ok tt)
      [EvOpen (target a); EvWrite (target a) s; EvClose (target a)]
      [(target a, s)]).
  { intros s. split; try done.
    - intros pre c e post H Hc. pick_event.
    - intros pre p post H. pick_event. exists []. right. left. by exists s.
    - intros f. cbn. by rewrite lookup_insert_eq, insert_insert_eq.
    - intros p H. rewrite !elem_of_cons, elem_of_nil in H.
      destruct H as [H|[H|[H|[]]]]; simplify_eq. by left.
    - intros p H. cbn in H. rewrite list_elem_of_singleton in H. subst. by left.
    - intros d H. rewrite !elem_of_cons, elem_of_nil in H.
      by destruct H as [H|[H|[H|[]]]].
    - intros _. by repeat constructor. }
  destruct a as [p [s|e]|p name]; cbn [target] in *; [|by apply Hsimple..].
  destruct (sw !! p) as [n|]; [|by apply Hwhole].
  case_bool_decide as Hshort; [|by apply Hwhole].
  split; try done.
  - intros pre c e post H Hc. pick_event. split; [done|]. by repeat constructor.
  - intros pre q post H. pick_event. exists []. right. right. eauto.
  - intros f. cbn. by rewrite lookup_insert_eq, insert_insert_eq.
  - intros q H. rewrite !elem_of_cons, elem_of_nil in H.
    destruct H as [H|[H|[H|[H|[]]]]]; simplify_eq. by left.
  - intros q H. cbn in H. rewrite list_elem_of_singleton in H. subst. by left.
  - intros d H. rewrite !elem_of_cons, elem_of_nil in H.
    by destruct H as [H|[H|[H|[H|[]]]]].
Qed.

Lemma acts_sem_phase ro sw plan :
  let '(r, ev, kvs) := acts_sem ro sw plan in
  file_phase (map target plan) r ev kvs.
Proof.
  induction plan as [|a plan IH]; cbn [acts_sem map].
  { split.
    - intros pre c e post H. by destruct pre.
    - intros pre p post H. by destruct pre.
    - done.
    - intros p H. by apply elem_of_nil in H.
    - intros p H. by apply elem_of_nil in H.
    - intros d H. by apply elem_of_nil in H.
    - done. }
  pose proof (act_sem_phase ro sw a) as Ha.
  destruct (act_sem ro sw a) as [[[[]|e] ev] kvs].
  - destruct (acts_sem ro sw plan) as [[r ev'] kvs'].
    destruct Ha as [Ha1 Ha2 Ha3 Ha4 Ha5 Ha6 Ha7], IH as [Hb1 Hb2 Hb3 Hb4 Hb5 Hb6 Hb7].
    split.
    + apply fail_stop_app; auto.
    + by apply bracketed_app.
    + intros f. by rewrite replay_app, store_app, Ha3, Hb3.
    + intros p [H|H]%elem_of_app.
      * specialize (Ha4 p H). apply list_elem_of_singleton in Ha4 as ->. left.
      * right. auto.
    + intros p. rewrite fmap_app. intros [H|H]%elem_of_app;
        apply elem_of_app; auto.
    + intros d [H|H]%elem_of_app; [by apply (Ha6 d)|by apply (Hb6 d)].
    + intros Hr. apply Forall_app. split; auto.
  - destruct Ha as [Ha1 Ha2 Ha3 Ha4 Ha5 Ha6 Ha7]. split; try done.
    intros p H. specialize (Ha4 p H). apply list_elem_of_singleton in Ha4 as ->.
    left.
Qed.

Lemma mkdir_events_made ds r d : EvMkdir d ∈ mkdir_events ds r → d ∈ ds.
Proof.
  unfold mkdir_events. intros [H|H]%elem_of_app.
  - apply list_elem_of_fmap in H as (d' & [= ->] & H). done.
  - destruct r; [by apply elem_of_nil in H|].
    by apply list_elem_of_singleton in H.
Qed.

Lemma harmless_no_open_in ev p : Forall harmless ev → EvOpen p ∉ ev.
Proof. intros H Hin. rewrite Forall_forall in H. by apply (H _ Hin). Qed.

Lemma mkdir_events_no_open ds r p : EvOpen p ∉ mkdir_events ds r.
Proof.
  unfold mkdir_events. intros [H|H]%elem_of_app.
  - by apply list_elem_of_fmap in H as (d' & [= ] & H).
  - destruct r; [by apply elem_of_nil in H|].
    by apply list_elem_of_singleton in H.
Qed.

Lemma replay_mkdir_events ds r f : replay (mkdir_events ds r) f = f.
Proof.
  apply replay_inert. unfold mkdir_events. apply Forall_app. split.
  - induction ds; by constructor.
  - destruct r; [constructor|]. by repeat constructor.
Qed.

Lemma mode_run_discipline chains plan sev w :
  Forall good_chain chains → Forall scan_failure sev →
  let '(r, w') := mode_run chains plan sev w in
  let ev := trace (mode_run chains plan sev) w in
  handles w' = handles w
  ∧ files w' = replay ev (files w)
  ∧ bracketed ev
  ∧ fail_stop r ev
  ∧ (∀ p, EvOpen p ∈ ev → p ∈ map target plan)
  ∧ (∀ d, EvMkdir d ∈ ev → d ∈ concat chains).
Proof.
  intros Hgood Hscan. pose proof (scan_failure_harmless _ Hscan) as Hsev.
  destruct (mode_run_spec chains plan sev w Hgood) as (rd & ds & Hrun & Hds & _).
  unfold mode_result in Hrun. destruct rd as [[]|e].
  - pose proof (acts_sem_phase (refuse_open w) (short_write w) plan) as Hph.
    destruct (acts_sem _ _ plan) as [[rf fev] kvs].
    destruct Hph as [H1 H2 H3 H4 H5 H6 H7].
    rewrite Hrun. cbv zeta. rewrite (trace_upd _ _ _ _ _ _ Hrun). cbn [handles files upd].
    split_and!.
    + done.
    + by rewrite !replay_app, replay_mkdir_events, (replay_harmless sev), H3.
    + apply bracketed_app_harmless; [done|].
      apply bracketed_app; [apply mkdir_events_bracketed|done].
    + apply fail_stop_app_harmless; [done|].
      apply fail_stop_app; [|done].
      eapply Forall_impl; [apply mkdir_events_ok_harmless|].
      by intros [| | | |[]].
    + intros p [H|[H|H]%elem_of_app]%elem_of_app.
      * by destruct (harmless_no_open_in _ _ Hsev H).
      * by destruct (mkdir_events_no_open _ _ _ H).
      * by apply H4.
    + intros d [H|[H|H]%elem_of_app]%elem_of_app.
      * rewrite Forall_forall in Hscan. by destruct (Hscan _ H).
      * apply Hds. by apply mkdir_events_made in H.
      * by destruct (H6 d).
  - rewrite Hrun. cbv zeta. rewrite (trace_upd _ _ _ _ _ _ Hrun). cbn [handles files upd].
    split_and!.
    + done.
    + by rewrite !replay_app, replay_mkdir_events, (replay_harmless sev).
    + apply bracketed_app_harmless; [done|]. apply mkdir_events_bracketed.
    + apply fail_stop_app_harmless; [done|]. apply mkdir_events_fail_stop.
    + intros p [H|H]%elem_of_app.
      * by destruct (harmless_no_open_in _ _ Hsev H).
      * by destruct (mkdir_events_no_open _ _ _ H).
    + intros d [H|H]%elem_of_app.
      * rewrite Forall_forall in Hscan. by destruct (Hscan _ H).
      * apply Hds. by apply mkdir_events_made in H.
Qed.

Lemma split_scan_failures sc ur : Forall scan_failure (split_scan sc ur).
Proof.
  unfold split_scan, split_patterns. cbn [map concat].
  repeat (apply Forall_app; split; [apply scan_events_failures|]).
  constructor.
Qed.

(** The log and the files of a run of the script. *)
Lemma main_discipline argv w :
  ∃ chains plan,
    (chains = single_chains ∨ chains = split_chains)
    ∧ let '(r, w') := main argv w in
      let ev := trace (main argv) w in
      handles w' = handles w
      ∧ files w' = replay ev (files w)
      ∧ bracketed ev
      ∧ fail_stop r ev
      ∧ (∀ p, EvOpen p ∈ ev → p ∈ map target plan)
      ∧ (∀ d, EvMkdir d ∈ ev → d ∈ concat chains).
Proof.
  unfold main. case_bool_decide.
  - exists single_chains, (single_plan (scan w) (unreadable w)).
    split; [by left|].
    rewrite (trace_ext all_auto _ w (all_auto_mode w)), all_auto_mode.
    apply mode_run_discipline;
      [apply single_chains_good | apply scan_events_failures].
  - exists split_chains, (split_plan (scan w) (unreadable w)).
    split; [by right|].
    rewrite (trace_ext model_tool _ w (model_tool_mode w)), model_tool_mode.
    apply mode_run_discipline;
      [apply split_chains_good | apply split_scan_failures].
Qed.

(** ** Order of the module names *)

Lemma found_globbed sc ur pattern :
  found sc ur pattern
  = Py.sort (map (λ x, Py.drop_last3 (Py.last_item (Py.split "/" x)))
                 (globbed sc ur pattern)).
Proof. unfold found, discover, bind. rewrite glob_sem. reflexivity. Qed.

(** The sorted list does not depend on the sorting algorithm: a list has
    one sorted permutation. *)
Lemma sort_unique (l l' : list string) :
  Sorted String.le l' → l' ≡ₚ l → l' = Py.sort l.
Proof.
  intros Hs Hp. apply (Sorted_unique String.le); [done| |].
  - apply Sorted_merge_sort. apply _.
  - unfold Py.sort. by rewrite merge_sort_Permutation.
Qed.

(** In split-index mode every list of names is sorted before it is used. *)
Lemma discover_sorted pattern w :
  ∃ names, (discover pattern w).1 = Ok names ∧ Sorted String.le names.
Proof.
  rewrite discover_sem. eexists. split; [reflexivity|].
  rewrite found_globbed. apply Sorted_merge_sort. apply _.
Qed.

(** ** Runs that the system does not disturb *)

Definition calm (w : world) : Prop :=
  refuse_mkdir w = ∅ ∧ refuse_open w = ∅ ∧ short_write w = ∅.

Definition put_ok (a : action) : Prop := ∃ p s, a = Put p (Ok s).

Definition text_of (a : action) : string :=
  match a with Put _ (Ok s) => s | _ => "" end.

Definition kv (a : action) : string * string := (target a, text_of a).

Definition whole_write (a : action) : list event :=
  [EvOpen (target a); EvWrite (target a) (text_of a); EvClose (target a)].

Lemma acts_sem_calm plan :
  Forall put_ok plan →
  acts_sem ∅ ∅ plan = (Ok tt, concat (map whole_write plan), map kv plan).
Proof.
  induction 1 as [|a plan (p & s & ->) _ IH]; [done|].
  cbn [acts_sem map concat]. unfold act_sem. cbn [target].
  rewrite bool_decide_eq_false_2 by set_solver.
  rewrite lookup_empty, IH. reflexivity.
Qed.

Definition module_text (template modl : string) : string :=
  match render_module template modl with Ok s => s | Raise _ => "" end.

Lemma render_module_text t m :
  t ∈ module_templates → render_module t m = Ok (module_text t m).
Proof.
  intros Ht. unfold module_text.
  by destruct (render_module_shape t m Ht) as [body ->].
Qed.

Lemma module_actions_put_ok folder t mods :
  t ∈ module_templates → Forall put_ok (module_actions folder t mods).
Proof.
  intros Ht. unfold module_actions. apply Forall_fmap, Forall_forall.
  intros m _. eexists _, _. cbn. by rewrite render_module_text.
Qed.

Definition index_text (f_name files_ : string) : string :=
  match category_index f_name files_ with Ok s => s | Raise _ => "" end.

Lemma category_index_text f_name files_ :
  f_name ∈ ["markov"; "models"; "random"; "tools"; "util"] →
  category_index f_name files_ = Ok (index_text f_name files_).
Proof.
  rewrite !elem_of_cons, elem_of_nil.
  intros [->|[->|[->|[->|[->|[]]]]]]; reflexivity.
Qed.

Lemma split_actions_put_ok markov models solow random tools util :
  Forall put_ok (split_actions markov models solow random tools util).
Proof.
  unfold split_actions, index_actions.
  repeat (apply Forall_app; split;
          [apply module_actions_put_ok; unfold module_templates;
           set_solver|]).
  repeat (apply Forall_cons; split; [eexists _, _; reflexivity|]).
  apply Forall_nil_2.
Qed.

Lemma mode_run_calm chains plan sev w :
  Forall good_chain chains → calm w → Forall put_ok plan →
  ∃ ds,
    mode_run chains plan sev w
    = (Ok tt, upd w (list_to_set ds ∪ dirs w) (store (map kv plan) (files w))
                (sev ++ mkdir_events ds (Ok tt) ++ concat (map whole_write plan)))
    ∧ ds ⊆ concat chains
    ∧ (∀ c parents, c :: parents ∈ chains →
         c ∈ (list_to_set ds ∪ dirs w : gset string) ∨ is_Some (files w !! c)).
Proof.
  intros Hgood (Hmk & Hop & Hsw) Hput.
  destruct (mode_run_spec chains plan sev w Hgood)
    as (rd & ds & Hrun & Hds & Hhead & Hcalm).
  rewrite (Hcalm Hmk) in *. exists ds. rewrite Hrun. unfold mode_result.
  rewrite Hop, Hsw, acts_sem_calm by done. split_and!; [done|done|].
  intros c parents Hin. exact (Hhead eq_refl c parents Hin).
Qed.

(** ** Inclusion blocks *)

Lemma str_app_assoc (s t u : string) : (s +:+ t) +:+ u = s +:+ t +:+ u.
Proof. induction s as [|c s IH]; [done|]. by rewrite !app_cons_str, IH. Qed.

Lemma str_app_nil_r (s : string) : s +:+ "" = s.
Proof. induction s as [|c s IH]; [done|]. by rewrite app_cons_str, IH. Qed.

Lemma str_app_length (s t : string) :
  String.length (s +:+ t) = String.length s + String.length t.
Proof. induction s as [|c s IH]; [done|]. rewrite app_cons_str. simpl. by rewrite IH. Qed.

Lemma str_app_inv_tail (s s' t : string) : s +:+ t = s' +:+ t → s = s'.
Proof.
  revert s'. induction s as [|c s IH]; intros [|c' s'] H; [done|..].
  - apply (f_equal String.length) in H. rewrite !str_app_length in H.
    simpl in H. lia.
  - apply (f_equal String.length) in H. rewrite !str_app_length in H.
    simpl in H. lia.
  - rewrite !app_cons_str in H. injection H as -> H. f_equal. by apply IH.
Qed.

Lemma join_cons sep x y l :
  Py.join sep (x :: y :: l) = x +:+ sep +:+ Py.join sep (y :: l).
Proof. reflexivity. Qed.

Lemma join_snoc sep l x :
  l ≠ [] → Py.join sep (l ++ [x]) = Py.join sep l +:+ sep +:+ x.
Proof.
  induction l as [|a [|b l] IH]; intros H; [done|done|].
  change ((a :: b :: l) ++ [x]) with (a :: b :: (l ++ [x])).
  rewrite !join_cons. change (b :: l ++ [x]) with ((b :: l) ++ [x]).
  rewrite IH by done. by rewrite !str_app_assoc.
Qed.

(** The entries of a category's inclusion block; an empty category leaves
    its bare prefix. *)
Definition toc_entries (prefix : string) (names : list string) : list string :=
  match names with
  | [] => [prefix]
  | _ => map (String.app prefix) names
  end.

Lemma toc_join prefix names :
  toc prefix names = Py.join (Py.nl +:+ "   ") (toc_entries prefix names).
Proof.
  unfold toc. destruct names as [|x l]; [apply str_app_nil_r|].
  unfold toc_entries. revert x. induction l as [|y l IH]; intros x; [done|].
  cbn [map]. rewrite !join_cons. specialize (IH y). cbn [map] in IH.
  rewrite <- IH. by rewrite !str_app_assoc.
Qed.

Lemma toc_entries_nonempty prefix names : toc_entries prefix names ≠ [].
Proof. by destruct names. Qed.

Lemma toc_entries_slash prefix names e :
  has_char "/" prefix = true → e ∈ toc_entries prefix names →
  has_char "/" e = true.
Proof.
  intros Hp. assert (Happ : ∀ n, has_char "/" (prefix +:+ n) = true).
  { intros n. induction prefix as [|c prefix IH]; [done|].
    rewrite app_cons_str. simpl in *. destruct (Ascii.eqb c "/"); [done|].
    by apply IH. }
  destruct names as [|x l]; cbn [toc_entries].
  - by intros ->%list_elem_of_singleton.
  - intros (n & -> & _)%list_elem_of_fmap. apply Happ.
Qed.

(** The entries of the toctree of a document. *)
Inductive toc_state := Before | Options | Entries.

Fixpoint toctree_go (st : toc_state) (lines : list string) : list string :=
  match lines with
  | [] => []
  | l :: ls =>
      match st with
      | Before =>
          if String.eqb l ".. toctree::" then toctree_go Options ls
          else toctree_go Before ls
      | Options =>
          if String.prefix "   :" l then toctree_go Options ls
          else if String.eqb l "" then toctree_go Entries ls
          else []
      | Entries =>
          if String.prefix "   " l
          then String.substring 3 (String.length l - 3) l :: toctree_go Entries ls
          else if String.eqb l "" then toctree_go Entries ls
          else []
      end
  end.

Definition toctree_entries (doc : string) : list string :=
  toctree_go Before (Py.split Py.LF doc).

(** ** Split-index mode, undisturbed *)

Definition module_part (markov models solow random tools util : list string)
    : list action :=
  module_actions ["markov"] markov_module_template markov
  ++ module_actions ["models"] model_module_template models
  ++ module_actions ["models"; "solow"] solow_model_module_template solow
  ++ module_actions ["random"] random_module_template random
  ++ module_actions ["tools"] module_template tools
  ++ module_actions ["util"] util_module_template util.

Lemma split_actions_parts markov models solow random tools util :
  split_actions markov models solow random tools util
  = module_part markov models solow random tools util
    ++ Put "source/index.rst" (Ok split_index_template)
       :: index_actions markov models random tools util.
Proof. unfold split_actions, module_part. by rewrite <- !app_assoc. Qed.

Definition models_block (models : list string) : string :=
  toc "models/" models +:+ Py.nl +:+ "   solow/".

(** The files after an undisturbed run of split-index mode: those of the
    modules, then the six index documents. *)
Lemma split_store markov models solow random tools util f :
  store (map kv (split_actions markov models solow random tools util)) f
  = <["source/util.rst" := index_text "util" (toc "util/" util)]>
    (<["source/tools.rst" := index_text "tools" (toc "tools/" tools)]>
    (<["source/random.rst" := index_text "random" (toc "random/" random)]>
    (<["source/models.rst" := index_text "models" (models_block models)]>
    (<["source/markov.rst" := index_text "markov" (toc "markov/" markov)]>
    (<["source/index.rst" := split_index_template]>
       (store (map kv (module_part markov models solow random tools util)) f)))))).
Proof. rewrite split_actions_parts, map_app, store_app. reflexivity. Qed.

Lemma model_tool_calm w :
  calm w →
  ∃ ds,
    model_tool w
    = (Ok tt,
       upd w (list_to_set ds ∪ dirs w)
         (store (map kv (split_plan (scan w) (unreadable w))) (files w))
         (split_scan (scan w) (unreadable w) ++ mkdir_events ds (Ok tt)
          ++ concat (map whole_write (split_plan (scan w) (unreadable w)))))
    ∧ ds ⊆ concat split_chains
    ∧ (∀ c parents, c :: parents ∈ split_chains →
         c ∈ (list_to_set ds ∪ dirs w : gset string) ∨ is_Some (files w !! c)).
Proof.
  intros Hcalm. rewrite model_tool_mode.
  apply mode_run_calm; [apply split_chains_good | done |].
  apply split_actions_put_ok.
Qed.

(** ** The files of the modules *)

Lemma found_no_slash sc ur pattern : Forall no_slash (found sc ur pattern).
Proof.
  rewrite found_globbed. apply Forall_forall. intros n Hn.
  unfold Py.sort in Hn. rewrite merge_sort_Permutation in Hn.
  apply list_elem_of_fmap in Hn as (x & -> & _).
  apply drop_last3_no_slash, last_segment_no_slash.
Qed.

Lemma found_intro sc ur pattern x :
  x ∈ globbed sc ur pattern →
  Py.drop_last3 (Py.last_item (Py.split "/" x)) ∈ found sc ur pattern.
Proof.
  intros Hx. rewrite found_globbed. unfold Py.sort.
  rewrite merge_sort_Permutation. apply list_elem_of_fmap. eauto.
Qed.

Lemma globbed_intro sc ur pattern d base l n :
  Path.split pattern = (d, base) → String.eqb d "" = false →
  d ∉ ur → sc !! d = Some l → n ∈ l →
  starts_with_dot base = false → starts_with_dot n = false →
  Fnmatch.fnmatch n base = true →
  Path.join d [n] ∈ globbed sc ur pattern.
Proof.
  intros Hsplit Hd Hur Hsc Hn Hbase Hdot Hmatch.
  unfold globbed, glob. rewrite Hsplit. unfold bind, glob1, os_listdir.
  rewrite Hd. cbn [scan unreadable scan_world].
  rewrite bool_decide_eq_false_2, Hsc, Hbase by done. cbn.
  apply list_elem_of_fmap. exists n. split; [done|].
  unfold Fnmatch.filter. apply list_elem_of_In.
  apply filter_In. split; [|done]. apply filter_In. split.
  - by apply list_elem_of_In.
  - by rewrite Hdot.
Qed.

Definition module_table (markov models solow random tools util : list string)
    : list (list string * string * string * list string) :=
  [ (["markov"], "source/markov/", markov_module_template, markov);
    (["models"], "source/models/", model_module_template, models);
    (["models"; "solow"], "source/models/solow/", solow_model_module_template, solow);
    (["random"], "source/random/", random_module_template, random);
    (["tools"], "source/tools/", module_template, tools);
    (["util"], "source/util/", util_module_template, util) ].

Lemma module_actions_kvs folder t names p s :
  (p, s) ∈ map kv (module_actions folder t names)
  ↔ ∃ n, n ∈ names ∧ p = Path.join "source" (folder ++ [n +:+ ".rst"])
         ∧ s = module_text t n.
Proof.
  unfold module_actions. rewrite map_map. rewrite list_elem_of_fmap.
  split.
  - intros (n & [= -> ->] & Hn). by exists n.
  - intros (n & Hn & -> & ->). by exists n.
Qed.

Lemma module_part_kvs markov models solow random tools util p s :
  (p, s) ∈ map kv (module_part markov models solow random tools util)
  ↔ ∃ folder prefix t names n,
      (folder, prefix, t, names)
        ∈ module_table markov models solow random tools util
      ∧ n ∈ names
      ∧ p = Path.join "source" (folder ++ [n +:+ ".rst"])
      ∧ s = module_text t n.
Proof.
  unfold module_part, module_table.
  rewrite !map_app, !elem_of_app, !module_actions_kvs. split.
  - intros [H|[H|[H|[H|[H|H]]]]]; destruct H as (n & Hn & -> & ->);
      eexists _, _, _, _, n; (split; [|done]);
      rewrite !elem_of_cons; eauto 10.
  - intros (folder & prefix & t & names & n & Htab & Hn & -> & ->).
    rewrite !elem_of_cons, elem_of_nil in Htab.
    destruct Htab as [H|[H|[H|[H|[H|[H|[]]]]]]]; injection H as -> -> -> ->;
      eauto 10.
Qed.

Lemma no_slash_not_prefixed m n q :
  no_slash m → has_char "/" q = true → m +:+ ".rst" ≠ q +:+ n +:+ ".rst".
Proof.
  intros Hm Hq H. rewrite <- str_app_assoc in H. apply str_app_inv_tail in H.
  subst m. unfold no_slash in Hm.
  assert (has_char "/" (q +:+ n) = true); [|congruence].
  clear Hm. induction q as [|c q IH]; [done|].
  rewrite app_cons_str. simpl in *. destruct (Ascii.eqb c "/"); [done|]. auto.
Qed.

Lemma same_folder prefix m n :
  prefix +:+ m +:+ ".rst" = prefix +:+ n +:+ ".rst" → m = n.
Proof. intros H%(inj (String.app prefix)). by apply str_app_inv_tail in H. Qed.

(** Two files of modules have the same path only when they are in the same
    directory and have the same name. *)
Lemma module_paths_apart markov models solow random tools util
    f1 p1 t1 l1 f2 p2 t2 l2 m n :
  (f1, p1, t1, l1) ∈ module_table markov models solow random tools util →
  (f2, p2, t2, l2) ∈ module_table markov models solow random tools util →
  no_slash m → no_slash n →
  p1 +:+ m +:+ ".rst" = p2 +:+ n +:+ ".rst" →
  t1 = t2 ∧ m = n.
Proof.
  unfold module_table. rewrite !elem_of_cons, !elem_of_nil.
  intros [H1|[H1|[H1|[H1|[H1|[H1|[]]]]]]] [H2|[H2|[H2|[H2|[H2|[H2|[]]]]]]] Hm Hn H;
    injection H1 as -> -> -> ->; injection H2 as -> -> -> ->;
    first
      [ by split; [|apply same_folder in H]
      | exfalso; apply (inj (String.app "source/models/")) in H;
        first [ by apply (no_slash_not_prefixed m n "solow/") in H
              | symmetry in H; by apply (no_slash_not_prefixed n m "solow/") in H ]
      | exfalso; rewrite !app_cons_str in H; discriminate H ].
Qed.

(** In an undisturbed run of split-index mode, the file of every module
    found holds the module's template, rendered. *)
Lemma module_file_content markov models solow random tools util
    folder prefix t names m f :
  Forall no_slash markov → Forall no_slash models → Forall no_slash solow →
  Forall no_slash random → Forall no_slash tools → Forall no_slash util →
  (folder, prefix, t, names)
    ∈ module_table markov models solow random tools util →
  m ∈ names →
  store (map kv (split_actions markov models solow random tools util)) f
    !! (prefix +:+ m +:+ ".rst")
  = Some (module_text t m).
Proof.
  intros HM HO HS HR HT HU Htab Hm.
  assert (Hall : ∀ f' p' t' l' n,
            (f', p', t', l') ∈ module_table markov models solow random tools util →
            n ∈ l' → no_slash n ∧ (f', p') ∈ module_folders).
  { intros f' p' t' l' n Htab' Hn. unfold module_table in Htab'.
    rewrite !elem_of_cons, elem_of_nil in Htab'.
    rewrite Forall_forall in HM, HO, HS, HR, HT, HU.
    unfold module_folders. rewrite !elem_of_cons.
    destruct Htab' as [H|[H|[H|[H|[H|[H|[]]]]]]]; injection H as -> -> -> ->;
      split; auto 10. }
  destruct (Hall _ _ _ _ _ Htab Hm) as [Hmslash Hfolder].
  rewrite split_store.
  assert (Hidx : ∀ q, q ∈ ["source/util.rst"; "source/tools.rst";
                            "source/random.rst"; "source/models.rst";
                            "source/markov.rst"; "source/index.rst"] →
                      q ≠ prefix +:+ m +:+ ".rst").
  { intros q Hq Heq. unfold module_folders in Hfolder.
    rewrite !elem_of_cons, elem_of_nil in Hq.
    rewrite !elem_of_cons, elem_of_nil in Hfolder.
    destruct Hfolder as [H|[H|[H|[H|[H|[H|[]]]]]]]; injection H as -> ->;
      destruct Hq as [->|[->|[->|[->|[->|[->|[]]]]]]];
      rewrite ?app_cons_str in Heq; try discriminate Heq;
      injection Heq as Heq; rewrite app_nil_l_str in Heq;
      (assert (has_char "/" m = has_char "/" (m +:+ ".rst")) as Hc
         by (clear; induction m as [|c m IH]; [done|];
             rewrite app_cons_str; simpl; by rewrite IH));
      rewrite <- Heq in Hc; unfold no_slash in Hmslash;
      rewrite Hmslash in Hc; discriminate Hc. }
  rewrite !lookup_insert_ne by (apply Hidx; set_solver).
  apply store_lookup_agree.
  - apply list_elem_of_fmap. exists (prefix +:+ m +:+ ".rst", module_text t m).
    split; [done|]. apply module_part_kvs.
    exists folder, prefix, t, names, m. split_and!; try done.
    symmetry. by apply join_split.
  - intros s' (f' & p' & t' & l' & n & Htab' & Hn & Hp & ->)%module_part_kvs.
    destruct (Hall _ _ _ _ _ Htab' Hn) as [Hnslash Hfolder'].
    rewrite (join_split f' p' n) in Hp by done.
    destruct (module_paths_apart _ _ _ _ _ _ _ _ _ _ _ _ _ _ m n Htab Htab'
                Hmslash Hnslash Hp) as [-> ->]. done.
Qed.

(** ** The output trees of the two modes *)

Definition split_indexes : list string :=
  [ "source/index.rst"; "source/markov.rst"; "source/models.rst";
    "source/random.rst"; "source/tools.rst"; "source/util.rst" ].

Definition split_directories : list string :=
  [ "source/markov"; "source/models"; "source/models/solow";
    "source/random"; "source/tools"; "source/util" ].

Definition single_module_path (p : string) : Prop :=
  ∃ n, no_slash n ∧ p = "source/modules/" +:+ n +:+ ".rst".

Definition split_module_path (p : string) : Prop :=
  ∃ folder prefix n,
    (folder, prefix) ∈ module_folders ∧ no_slash n ∧ p = prefix +:+ n +:+ ".rst".

Lemma single_targets sc ur p :
  p ∈ map target (single_plan sc ur) →
  p = "source/index.rst" ∨ single_module_path p.
Proof.
  unfold single_plan, single_actions. rewrite map_app, map_map.
  intros [H|H]%elem_of_app.
  - right. apply list_elem_of_fmap in H as (modl & -> & Hm). cbn [target].
    unfold single_names in Hm. apply list_elem_of_fmap in Hm as (x & -> & _).
    eexists. split; [|apply join_single];
      apply first_segment_no_slash, last_segment_no_slash.
  - left. by apply list_elem_of_singleton in H.
Qed.

Lemma target_kv l p : p ∈ map target l → ∃ s, (p, s) ∈ map kv l.
Proof.
  intros (a & -> & Ha)%list_elem_of_fmap. exists (text_of a).
  apply list_elem_of_fmap. by exists a.
Qed.

Lemma module_table_facts sc ur f' p' t' l' n :
  (f', p', t', l')
    ∈ module_table
        (found sc ur "../quantecon/markov/[a-z0-9]*.py")
        (found sc ur "../quantecon/models/[a-z0-9]*.py")
        (found sc ur "../quantecon/models/solow/[a-z0-9]*.py")
        (found sc ur "../quantecon/random/[a-z0-9]*.py")
        (found sc ur "../quantecon/[a-z0-9]*.py")
        (found sc ur "../quantecon/util/[a-z0-9]*.py") →
  n ∈ l' → no_slash n ∧ (f', p') ∈ module_folders.
Proof.
  unfold module_table, module_folders. rewrite !elem_of_cons, elem_of_nil.
  intros [H|[H|[H|[H|[H|[H|[]]]]]]] Hn; injection H as -> -> -> ->;
    (split; [|by eauto 10]);
    (eapply Forall_forall; [apply found_no_slash|exact Hn]).
Qed.

Lemma split_targets sc ur p :
  p ∈ map target (split_plan sc ur) → p ∈ split_indexes ∨ split_module_path p.
Proof.
  unfold split_plan. rewrite split_actions_parts, map_app.
  intros [H|H]%elem_of_app.
  - right. apply target_kv in H as [s H].
    apply module_part_kvs in H as (f' & p' & t' & l' & n & Htab & Hn & -> & _).
    destruct (module_table_facts _ _ _ _ _ _ _ Htab Hn) as [Hslash Hfolder].
    exists f', p', n. split_and!; try done. by apply join_split.
  - left. exact H.
Qed.

Lemma modes_share_index_only p :
  single_module_path p → (p ∉ split_indexes) ∧ ¬ split_module_path p.
Proof.
  intros (n & Hn & ->). split.
  - unfold split_indexes. rewrite !elem_of_cons, elem_of_nil.
    intros [H|[H|[H|[H|[H|[H|[]]]]]]];
      rewrite ?app_cons_str in H; discriminate H.
  - intros (folder & prefix & m & Hfolder & Hm & H).
    unfold module_folders in Hfolder. rewrite !elem_of_cons, elem_of_nil in Hfolder.
    destruct Hfolder as [E|[E|[E|[E|[E|[E|[]]]]]]]; injection E as -> ->;
      rewrite ?app_cons_str in H; discriminate H.
Qed.

Lemma all_auto_log w :
  let ev := trace all_auto w in
  (∀ d, EvMkdir d ∈ ev → d = "source" ∨ d = "source/modules")
  ∧ (∀ p, EvOpen p ∈ ev → p = "source/index.rst" ∨ single_module_path p).
Proof.
  pose proof (mode_run_discipline single_chains
    (single_plan (scan w) (unreadable w))
    (scan_events (scan w) (unreadable w) "../quantecon/[a-z0-9]*.py") w
    single_chains_good (scan_events_failures _ _ _)) as H.
  rewrite (trace_ext all_auto _ w (all_auto_mode w)).
  destruct (mode_run _ _ _ w) as [r w']. cbv zeta in *.
  destruct H as (_ & _ & _ & _ & Hopen & Hmk). split.
  - intros d Hd. specialize (Hmk d Hd). cbn in Hmk.
    rewrite !elem_of_cons, elem_of_nil in Hmk. naive_solver.
  - intros p Hp. by apply (single_targets (scan w) (unreadable w)), Hopen.
Qed.

Lemma model_tool_log w :
  let ev := trace model_tool w in
  (∀ d, EvMkdir d ∈ ev → d ∈ "source" :: split_directories)
  ∧ (∀ p, EvOpen p ∈ ev → p ∈ split_indexes ∨ split_module_path p).
Proof.
  pose proof (mode_run_discipline split_chains
    (split_plan (scan w) (unreadable w))
    (split_scan (scan w) (unreadable w)) w
    split_chains_good (split_scan_failures _ _)) as H.
  rewrite (trace_ext model_tool _ w (model_tool_mode w)).
  destruct (mode_run _ _ _ w) as [r w']. cbv zeta in *.
  destruct H as (_ & _ & _ & _ & Hopen & Hmk). split.
  - intros d Hd. specialize (Hmk d Hd). cbn in Hmk.
    unfold split_directories. rewrite !elem_of_cons, elem_of_nil in Hmk.
    rewrite !elem_of_cons. naive_solver.
  - intros p Hp. by apply (split_targets (scan w) (unreadable w)), Hopen.
Qed.

(** ** The category indexes *)

Definition category_table : list (string * string * string * list string) :=
  [ ("markov", "markov/", "../quantecon/markov/[a-z0-9]*.py", []);
    ("models", "models/", "../quantecon/models/[a-z0-9]*.py", ["solow/"]);
    ("random", "random/", "../quantecon/random/[a-z0-9]*.py", []);
    ("tools", "tools/", "../quantecon/[a-z0-9]*.py", []);
    ("util", "util/", "../quantecon/util/[a-z0-9]*.py", []) ].

Lemma models_block_join models :
  models_block models
  = Py.join (Py.nl +:+ "   ") (toc_entries "models/" models ++ ["solow/"]).
Proof.
  unfold models_block. rewrite join_snoc by apply toc_entries_nonempty.
  by rewrite toc_join, !str_app_assoc.
Qed.

(** In an undisturbed run of split-index mode each category index holds
    the category's template filled with its entries: the sorted names found
    for the category, each behind the category's prefix (the bare prefix
    when none is found), and for models the fixed entry [solow/] last. *)
Lemma category_index_contents w :
  calm w →
  ∃ w', model_tool w = (Ok tt, w')
        ∧ ∀ c prefix pattern extra,
            (c, prefix, pattern, extra) ∈ category_table →
            let names := found (scan w) (unreadable w) pattern in
            Sorted String.le names
            ∧ files w' !! ("source/" +:+ c +:+ ".rst")
              = Some (index_text c
                        (Py.join (Py.nl +:+ "   ")
                           (toc_entries prefix names ++ extra))).
Proof.
  intros Hcalm. destruct (model_tool_calm w Hcalm) as (ds & Hrun & _).
  eexists. split; [exact Hrun|].
  intros c prefix pattern extra Htab names. split.
  { unfold names. rewrite found_globbed. apply Sorted_merge_sort. apply _. }
  cbn [files upd]. unfold split_plan. rewrite split_store.
  unfold category_table in Htab. rewrite !elem_of_cons, elem_of_nil in Htab.
  unfold names.
  destruct Htab as [H|[H|[H|[H|[H|[]]]]]]; injection H as -> -> -> ->;
    rewrite ?app_nil_r, <- ?models_block_join, <- ?toc_join;
    change ("source/" +:+ ?c +:+ ".rst") with ("source/" +:+ (c +:+ ".rst"));
    cbn [String.append];
    rewrite ?lookup_insert_ne by done; by rewrite lookup_insert_eq.
Qed.

(** ** The document of a category *)

Lemma split_lines (m rest : string) :
  has_char Py.LF m = false →
  Py.split Py.LF (m +:+ Py.nl +:+ rest) = m :: Py.split Py.LF rest.
Proof. apply split_line. Qed.

Definition category_document (f_name files_ : string) : string :=
  Py.capitalize f_name +:+ Py.nl
  +:+ Py.mul "=" (Py.len f_name) +:+ Py.nl +:+ Py.nl
  +:+ ".. toctree::" +:+ Py.nl
  +:+ "   :maxdepth: 2" +:+ Py.nl +:+ Py.nl
  +:+ "   " +:+ files_ +:+ Py.nl.

Lemma category_index_document f_name files_ :
  category_index f_name files_ = Ok (category_document f_name files_).
Proof. reflexivity. Qed.

Lemma lower_all_length s : String.length (Py.lower_all s) = String.length s.
Proof. induction s as [|c s IH]; [done|]. simpl. by rewrite IH. Qed.

Lemma capitalize_no_LF s : has_char Py.LF s = false → has_char Py.LF (Py.capitalize s) = false.
Proof.
  intros Hname. destruct s as [|c s]; [done|]. simpl in *.
  apply orb_false_iff in Hname as [Hc Hs]. apply orb_false_iff. split.
  - unfold Py.upper. destruct (Py.is_lower c) eqn:Hl; [|done].
    destruct (Ascii.eqb (ascii_of_N _) _) eqn:E; [|done]. apply Ascii.eqb_eq in E.
    unfold Py.is_lower in Hl. apply andb_true_iff in Hl as [H1 H2].
    apply N.leb_le in H1, H2.
    apply (f_equal N_of_ascii) in E. rewrite N_ascii_embedding in E by lia.
    change (N_of_ascii Py.LF) with 10%N in E. lia.
  - clear Hc. induction s as [|d s IH]; [done|]. simpl in *.
    apply orb_false_iff in Hs as [Hd Hs]. rewrite (IH Hs), orb_false_r.
    unfold Py.lower. destruct (Py.is_upper d) eqn:Hu; [|done].
    destruct (Ascii.eqb (ascii_of_N _) _) eqn:E; [|done]. apply Ascii.eqb_eq in E.
    unfold Py.is_upper in Hu. apply andb_true_iff in Hu as [H1 H2].
    apply N.leb_le in H1, H2.
    apply (f_equal N_of_ascii) in E. rewrite N_ascii_embedding in E by lia.
    change (N_of_ascii Py.LF) with 10%N in E. lia.
Qed.

Lemma category_document_lines f_name files_ :
  has_char Py.LF f_name = false →
  Py.split Py.LF (category_document f_name files_)
  = Py.capitalize f_name :: Py.mul "=" (Py.len f_name) :: ""
    :: ".. toctree::" :: "   :maxdepth: 2" :: ""
    :: Py.split Py.LF ("   " +:+ files_ +:+ Py.nl).
Proof.
  intros Hname. unfold category_document.
  rewrite (split_lines _ _ (capitalize_no_LF _ Hname)).
  rewrite (split_lines _ _ (mul_eq_no_LF _)). reflexivity.
Qed.

(** ** The inclusion block of a category index, read back *)

Lemma split_entry e rest :
  has_char Py.LF e = false →
  Py.split Py.LF ("   " +:+ e +:+ Py.nl +:+ rest)
  = ("   " +:+ e) :: Py.split Py.LF rest.
Proof.
  intros He. rewrite <- (split_line ("   " +:+ e) rest); [reflexivity|].
  exact He.
Qed.

Lemma entry_lines entries :
  entries ≠ [] → Forall (λ e, has_char Py.LF e = false) entries →
  Py.split Py.LF ("   " +:+ Py.join (Py.nl +:+ "   ") entries +:+ Py.nl)
  = map (String.app "   ") entries ++ [""].
Proof.
  intros Hne Hall. induction Hall as [|e [|e' l] He Hl IH]; [done|..].
  - change (Py.join (Py.nl +:+ "   ") [e]) with e.
    change ("   " +:+ e +:+ Py.nl) with ("   " +:+ e +:+ Py.nl +:+ "").
    by rewrite split_entry.
  - rewrite join_cons, !str_app_assoc.
    change (Py.nl +:+ "   " +:+ ?x) with (Py.nl +:+ ("   " +:+ x)).
    rewrite split_entry by done. cbn [map app]. f_equal. by apply IH.
Qed.

Lemma substring_all e : String.substring 0 (String.length e) e = e.
Proof. induction e as [|c e IH]; [done|]. simpl. by rewrite IH. Qed.

Lemma toctree_entry_lines entries :
  toctree_go Entries (map (String.app "   ") entries ++ [""]) = entries.
Proof.
  induction entries as [|e l IH]; [done|].
  cbn [map app toctree_go].
  assert (Hp : String.prefix "   " ("   " +:+ e) = true) by (by destruct e).
  rewrite Hp.
  change (String.substring 3 (String.length ("   " +:+ e) - 3) ("   " +:+ e))
    with (String.substring 0 (String.length e - 0) e).
  by rewrite Nat.sub_0_r, substring_all, IH.
Qed.

Lemma category_read_back c prefix pattern extra entries :
  (c, prefix, pattern, extra) ∈ category_table →
  entries ≠ [] → Forall (λ e, has_char Py.LF e = false) entries →
  toctree_entries (category_document c (Py.join (Py.nl +:+ "   ") entries))
  = entries.
Proof.
  intros Htab Hne Hall. unfold toctree_entries.
  assert (Hc : c ∈ ["markov"; "models"; "random"; "tools"; "util"]).
  { unfold category_table in Htab. rewrite !elem_of_cons, elem_of_nil in Htab.
    destruct Htab as [H|[H|[H|[H|[H|[]]]]]]; injection H as -> _ _ _; set_solver. }
  rewrite category_document_lines, entry_lines by
    (try done; rewrite !elem_of_cons, elem_of_nil in Hc;
     by destruct Hc as [->|[->|[->|[->|[->|[]]]]]]).
  rewrite <- (toctree_entry_lines entries) at 2.
  rewrite !elem_of_cons, elem_of_nil in Hc.
  by destruct Hc as [->|[->|[->|[->|[->|[]]]]]].
Qed.

Lemma index_text_document c files_ : index_text c files_ = category_document c files_.
Proof. reflexivity. Qed.

Lemma prefixed_no_LF prefix names extra :
  Forall (λ e, has_char Py.LF e = false) (prefix :: extra) →
  Forall (λ n, has_char Py.LF n = false) names →
  Forall (λ e, has_char Py.LF e = false) (toc_entries prefix names ++ extra).
Proof.
  intros [Hp He]%Forall_cons Hn. apply Forall_app. split; [|done].
  destruct names as [|n l]; [by constructor|].
  unfold toc_entries. apply Forall_fmap. eapply Forall_impl; [exact Hn|].
  intros m Hm. cbn. clear -Hp Hm. induction prefix as [|c p IH]; [done|].
  rewrite app_cons_str. simpl in *. apply orb_false_iff in Hp as [-> Hp]. auto.
Qed.

(** * Results *)

(** ** The underline of a module document *)

(** C1, as amended: the document rendered for a module name from any of
    the six module templates is the name, a line feed, the character [=]
    repeated as many times as the name has characters, a line feed and the
    rest of the template; when the name has no line feed in it, the name is
    the first line of the document and that underline is its second line.
    An empty name has an empty underline. *)
Theorem underline_matches_name (t m : string) :
  t ∈ module_templates →
  ∃ doc body,
    render_module t m = Ok doc
    ∧ doc = m +:+ Py.nl +:+ Py.mul "=" (Py.len m) +:+ Py.nl +:+ body
    ∧ Py.len (Py.mul "=" (Py.len m)) = Py.len m
    ∧ (has_char Py.LF m = false →
       line 0 doc = Some m ∧ line 1 doc = Some (Py.mul "=" (Py.len m))).
Proof.
  intros Ht. destruct (render_module_shape t m Ht) as [body Hdoc].
  eexists _, body. split; [exact Hdoc|]. split; [reflexivity|].
  split; [apply len_mul_eq|]. intros Hm.
  unfold line. rewrite (split_line _ _ Hm), (split_line _ _ (mul_eq_no_LF _)).
  by split.
Qed.

Lemma underline_matches_name_witness :
  ∃ doc body,
    render_module markov_module_template "ergodicity" = Ok doc
    ∧ doc = "ergodicity" +:+ Py.nl +:+ Py.mul "=" (Py.len "ergodicity")
            +:+ Py.nl +:+ body
    ∧ Py.len (Py.mul "=" (Py.len "ergodicity")) = Py.len "ergodicity"
    ∧ (has_char Py.LF "ergodicity" = false →
       line 0 doc = Some "ergodicity"
       ∧ line 1 doc = Some (Py.mul "=" (Py.len "ergodicity"))).
Proof.
  apply (underline_matches_name markov_module_template "ergodicity").
  unfold module_templates. apply list_elem_of_here.
Defined.

(** A file name with a line feed in it matches the pattern, and the second
    line of its document is the rest of the name, not the underline. *)
Definition world_with_line_feed : world :=
  World {[ "../quantecon/markov" := ["a
b.py"] ]} ∅ ∅ ∅ [] ∅ ∅ ∅ [].

Definition line_feed_name : string := "a
b".

Lemma underline_line_feed_counterexample :
  (discover "../quantecon/markov/[a-z0-9]*.py" world_with_line_feed).1
    = Ok [line_feed_name]
  ∧ ∃ doc, render_module markov_module_template line_feed_name = Ok doc
      ∧ files (model_tool world_with_line_feed).2
          !! ("source/markov/" +:+ line_feed_name +:+ ".rst") = Some doc
      ∧ line 1 doc = Some "b"
      ∧ line 1 doc ≠ Some (Py.mul "=" (Py.len line_feed_name)).
Proof.
  split; [by vm_compute|].
  eexists. split; [reflexivity|]. split; [by vm_compute|].
  split; [by vm_compute|]. by vm_compute.
Qed.

(** ** Mode selection *)

Lemma all_auto_is_not_model_tool : all_auto ≠ model_tool.
Proof.
  intros H. apply (f_equal (λ m : M unit, log (m empty_world).2)) in H.
  vm_compute in H. discriminate H.
Qed.

(** C2: the script runs [all_auto] exactly when the literal [single] is
    among its arguments, and [model_tool] exactly when it is not; [prog] is
    the script's own name, the first element of [sys.argv]. *)
Theorem mode_selection (prog : string) (args : list string) :
  (main (prog :: args) = all_auto ↔ "single" ∈ args)
  ∧ (main (prog :: args) = model_tool ↔ "single" ∉ args).
Proof.
  unfold main. cbn [tail]. case_bool_decide as Hin; split; split; intros H; try done.
  - by destruct all_auto_is_not_model_tool.
  - by destruct all_auto_is_not_model_tool.
Qed.

(** ** Single-index mode *)

Definition scan_or_mkdir (e : event) : Prop :=
  match e with
  | EvFail Listdir _ | EvMkdir _ => True
  | _ => False
  end.

Lemma mkdir_events_ok_kinds ds : Forall scan_or_mkdir (mkdir_events ds (Ok tt)).
Proof.
  unfold mkdir_events. rewrite app_nil_r. induction ds; by constructor.
Qed.

Lemma scan_failure_kinds ev : Forall scan_failure ev → Forall scan_or_mkdir ev.
Proof. intros H. eapply Forall_impl; [exact H|]. by intros [| | | |[]]. Qed.

Lemma no_write_in ev :
  Forall (λ e, match e with EvWrite _ _ => False | _ => True end) ev →
  ∀ q s, EvWrite q s ∉ ev.
Proof. intros H q s Hin. rewrite Forall_forall in H. by apply (H _ Hin). Qed.

Lemma all_auto_stops (w : world) (x : string) (xs : list string) :
  (glob "../quantecon/[a-z0-9]*.py" w).1 = Ok (x :: xs) →
  let name := Py.first_item (Py.split "." (Py.last_item (Py.split "/" x))) in
  let p := "source/modules/" +:+ name +:+ ".rst" in
  let '(r, w') := all_auto w in
  let ev := trace all_auto w in
  (∃ e, r = Raise e)
  ∧ (∀ q s, EvWrite q s ∉ ev)
  ∧ (EvOpen "source/index.rst" ∉ ev)
  ∧ (files w' = files w ∨ files w' = <[p := ""]> (files w))
  ∧ (refuse_mkdir w = ∅ → p ∉ refuse_open w →
       r = Raise (NameError "gen_module")
       ∧ exists_b "source/modules" w' = true
       ∧ files w' = <[p := ""]> (files w)
       ∧ (∃ before, ev = before ++ [EvOpen p; EvClose p]
                    ∧ Forall scan_or_mkdir before)).
Proof.
  intros Hglob name p.
  rewrite glob_sem in Hglob. cbn [fst] in Hglob. injection Hglob as Hglob.
  assert (Hname : no_slash name).
  { apply first_segment_no_slash, last_segment_no_slash. }
  assert (Hplan : single_plan (scan w) (unreadable w)
                  = Call p "gen_module"
                    :: tail (single_plan (scan w) (unreadable w))).
  { unfold single_plan, single_actions, single_names. rewrite Hglob.
    cbn [map app tail]. by rewrite join_single. }
  assert (Hp : p ≠ "source/index.rst").
  { unfold p. intros H. cbn in H. discriminate H. }
  rewrite (trace_ext all_auto _ w (all_auto_mode w)), all_auto_mode.
  pose proof (scan_events_failures (scan w) (unreadable w)
                "../quantecon/[a-z0-9]*.py") as Hscan.
  destruct (mode_run_spec single_chains (single_plan (scan w) (unreadable w))
              (scan_events (scan w) (unreadable w) "../quantecon/[a-z0-9]*.py")
              w single_chains_good) as (rd & ds & Hrun & Hds & Hhead & Hcalm).
  rewrite Hrun. unfold mode_result in *. rewrite Hplan in *. cbn [acts_sem] in *.
  unfold act_sem in *. cbn [target] in *.
  destruct rd as [[]|e].
  - case_bool_decide as Hro.
    + (* the open is refused *)
      rewrite (trace_upd _ _ _ _ _ _ Hrun). cbv zeta. cbn [files upd store foldl].
      split; [eauto|]. split.
      { apply no_write_in. rewrite !Forall_app. split_and!.
        - eapply Forall_impl; [exact Hscan|]. by intros [| | | |[]].
        - eapply Forall_impl; [apply mkdir_events_ok_kinds|]. by intros [| | | |[]].
        - by repeat constructor. }
      split.
      { intros [H|[H|H]%elem_of_app]%elem_of_app.
        - by destruct (harmless_no_open_in _ _ (scan_failure_harmless _ Hscan) H).
        - by destruct (mkdir_events_no_open _ _ _ H).
        - by apply list_elem_of_singleton in H. }
      split; [by left|]. intros _ Hopen. done.
    + (* the call of the undefined function *)
      rewrite (trace_upd _ _ _ _ _ _ Hrun). cbv zeta. cbn [files upd store foldl fst snd].
      split; [eauto|]. split.
      { apply no_write_in. rewrite !Forall_app. split_and!.
        - eapply Forall_impl; [exact Hscan|]. by intros [| | | |[]].
        - eapply Forall_impl; [apply mkdir_events_ok_kinds|]. by intros [| | | |[]].
        - by repeat constructor. }
      split.
      { intros [H|[H|H]%elem_of_app]%elem_of_app.
        - by destruct (harmless_no_open_in _ _ (scan_failure_harmless _ Hscan) H).
        - by destruct (mkdir_events_no_open _ _ _ H).
        - rewrite !elem_of_cons, elem_of_nil in H.
          destruct H as [H|[H|[]]]; simplify_eq. }
      split; [by right|]. intros _ _.
      split; [done|]. split.
      { unfold exists_b. cbn [dirs files upd].
        destruct (Hhead eq_refl "source/modules" ["source"]) as [H|H]; [left|..];
          apply orb_true_iff; [left|right]; apply bool_decide_eq_true; [done|].
        apply lookup_insert_is_Some'. by right. }
      split; [done|].
      exists (scan_events (scan w) (unreadable w) "../quantecon/[a-z0-9]*.py"
              ++ mkdir_events ds (Ok tt)).
      split; [by rewrite <- app_assoc|].
      apply Forall_app. split;
        [by apply scan_failure_kinds | apply mkdir_events_ok_kinds].
  - (* a directory is refused *)
    rewrite (trace_upd _ _ _ _ _ _ Hrun). cbv zeta. cbn [files upd].
    split; [eauto|]. split.
    { apply no_write_in. rewrite !Forall_app. split_and!.
      - eapply Forall_impl; [exact Hscan|]. by intros [| | | |[]].
      - unfold mkdir_events. apply Forall_app. split; [|by repeat constructor].
        clear. induction ds; by constructor. }
    split.
    { intros [H|H]%elem_of_app.
      - by destruct (harmless_no_open_in _ _ (scan_failure_harmless _ Hscan) H).
      - by destruct (mkdir_events_no_open _ _ _ H). }
    split; [by left|]. intros Hempty _. by specialize (Hcalm Hempty).
Qed.

(** C3: when the scan of the package finds a module, single-index mode
    ends in an exception: nothing is ever written to a file and the index
    is neither opened nor changed.  The only file touched is the first
    module's, emptied by the open.  When the system refuses neither the
    directories nor that open, the exception is the [NameError] of
    [gen_module], raised with [source/modules] in place and the first
    module's file opened and released. *)
Theorem single_mode_name_error (w : world) (x : string) (xs : list string) :
  (glob "../quantecon/[a-z0-9]*.py" w).1 = Ok (x :: xs) →
  let name := Py.first_item (Py.split "." (Py.last_item (Py.split "/" x))) in
  let p := "source/modules/" +:+ name +:+ ".rst" in
  let '(r, w') := all_auto w in
  let ev := trace all_auto w in
  (∃ e, r = Raise e)
  ∧ (∀ q s, EvWrite q s ∉ ev)
  ∧ (EvOpen "source/index.rst" ∉ ev)
  ∧ files w' !! "source/index.rst" = files w !! "source/index.rst"
  ∧ (files w' = files w ∨ files w' = <[p := ""]> (files w))
  ∧ (refuse_mkdir w = ∅ → p ∉ refuse_open w →
       r = Raise (NameError "gen_module")
       ∧ exists_b "source/modules" w' = true
       ∧ files w' = <[p := ""]> (files w)
       ∧ (∃ before, ev = before ++ [EvOpen p; EvClose p]
                    ∧ Forall scan_or_mkdir before)).
Proof.
  intros Hglob name p. pose proof (all_auto_stops w x xs Hglob) as H.
  cbv zeta in H. fold name in H. fold p in H.
  destruct (all_auto w) as [r w']. destruct H as (H1 & H2 & H3 & H4 & H5).
  split_and!; try done.
  destruct H4 as [-> | ->]; [done|].
  apply lookup_insert_ne. unfold p. intros H. cbn in H. discriminate H.
Qed.

Definition world_unsorted : world :=
  World {[ "../quantecon" := ["b.py"; "a.py"] ]} ∅ ∅ ∅ [] ∅ ∅ ∅ [].

Lemma single_mode_name_error_witness :
  (glob "../quantecon/[a-z0-9]*.py" world_unsorted).1
    = Ok ["../quantecon/b.py"; "../quantecon/a.py"]
  ∧ let '(r, w') := all_auto world_unsorted in
    let ev := trace all_auto world_unsorted in
    (∃ e, r = Raise e)
    ∧ (∀ q s, EvWrite q s ∉ ev)
    ∧ (EvOpen "source/index.rst" ∉ ev)
    ∧ files w' !! "source/index.rst" = files world_unsorted !! "source/index.rst"
    ∧ (files w' = files world_unsorted
       ∨ files w' = <["source/modules/b.rst" := ""]> (files world_unsorted))
    ∧ (refuse_mkdir world_unsorted = ∅ →
       "source/modules/b.rst" ∉ refuse_open world_unsorted →
         r = Raise (NameError "gen_module")
         ∧ exists_b "source/modules" w' = true
         ∧ files w' = <["source/modules/b.rst" := ""]> (files world_unsorted)
         ∧ (∃ before, ev = before ++ [EvOpen "source/modules/b.rst";
                                      EvClose "source/modules/b.rst"]
                      ∧ Forall scan_or_mkdir before)).
Proof.
  split; [by vm_compute|].
  apply (single_mode_name_error world_unsorted "../quantecon/b.py"
           ["../quantecon/a.py"]).
  by vm_compute.
Defined.

(** ** Order of the names in single-index mode *)

(** C4 fails in single-index mode: [all_auto] takes the names in the order
    of the scan.  With [b.py] listed before [a.py], the first file it opens
    is that of [b], and the index it would write lists [b] first; the
    sibling [model_tool] sorts the same scan. *)
Theorem all_auto_scan_order :
  single_names (scan world_unsorted) (unreadable world_unsorted)
    = ["b.py"; "a.py"]
  ∧ Py.sort ["b.py"; "a.py"] = ["a.py"; "b.py"]
  ∧ trace all_auto world_unsorted
    = [EvMkdir "source"; EvMkdir "source/modules";
       EvOpen "source/modules/b.rst"; EvClose "source/modules/b.rst"]
  ∧ map target (single_plan (scan world_unsorted) (unreadable world_unsorted))
    = ["source/modules/b.rst"; "source/modules/a.rst"; "source/index.rst"]
  ∧ (∃ doc, single_index ["b.py"; "a.py"] = Ok doc
            ∧ line 9 doc = Some "   modules/b"
            ∧ line 10 doc = Some "   modules/a")
  ∧ (discover "../quantecon/[a-z0-9]*.py" world_unsorted).1 = Ok ["a"; "b"].
Proof.
  split; [by vm_compute|]. split; [by vm_compute|]. split; [by vm_compute|].
  split; [by vm_compute|]. split; [|by vm_compute].
  eexists. split; [by vm_compute|]. split; by vm_compute.
Qed.

(** ** Idempotence *)

(** C5: a second run on the world the first run left gives the same
    result, leaves the same directories and byte for byte the same files,
    and opens, writes and closes the same files with the same bytes as the
    first did. *)
Theorem generation_idempotent (argv : list string) (w : world) :
  let '(r1, w1) := main argv w in
  let '(r2, w2) := main argv w1 in
  r2 = r1 ∧ dirs w2 = dirs w1 ∧ files w2 = files w1
  ∧ file_events (trace (main argv) w1) = file_events (trace (main argv) w).
Proof.
  unfold main. case_bool_decide.
  - pose proof (mode_run_again single_chains (single_plan (scan w) (unreadable w))
      (scan_events (scan w) (unreadable w) "../quantecon/[a-z0-9]*.py") w
      single_chains_good) as Hagain.
    pose proof (mode_run_env single_chains (single_plan (scan w) (unreadable w))
      (scan_events (scan w) (unreadable w) "../quantecon/[a-z0-9]*.py") w
      single_chains_good) as (Hsc & Hur & _).
    rewrite (trace_ext all_auto _ w (all_auto_mode w)).
    rewrite all_auto_mode.
    destruct (mode_run _ _ _ w) as [r1 w1]. cbn [snd] in Hsc, Hur.
    rewrite (trace_ext all_auto _ w1 (all_auto_mode w1)).
    rewrite all_auto_mode, Hsc, Hur. exact Hagain.
  - pose proof (mode_run_again split_chains (split_plan (scan w) (unreadable w))
      (split_scan (scan w) (unreadable w)) w split_chains_good) as Hagain.
    pose proof (mode_run_env split_chains (split_plan (scan w) (unreadable w))
      (split_scan (scan w) (unreadable w)) w split_chains_good) as (Hsc & Hur & _).
    rewrite (trace_ext model_tool _ w (model_tool_mode w)).
    rewrite model_tool_mode.
    destruct (mode_run _ _ _ w) as [r1 w1]. cbn [snd] in Hsc, Hur.
    rewrite (trace_ext model_tool _ w1 (model_tool_mode w1)).
    rewrite model_tool_mode, Hsc, Hur. exact Hagain.
Qed.

(** ** The end-to-end example of split-index mode *)

Definition world_example : world :=
  World {[ "../quantecon/markov" := ["ergodicity.py"];
           "../quantecon/models" := ["lucastree.py"] ]}
        ∅ ∅ ∅ [] ∅ ∅ ∅ [].

(** The underline of [ergodicity] has ten characters, not eight. *)
Lemma example_underline_counterexample :
  (model_tool world_example).1 = Ok tt
  ∧ ∃ doc,
      files (model_tool world_example).2 !! "source/markov/ergodicity.rst"
        = Some doc
      ∧ line 1 doc = Some "=========="
      ∧ Py.len "==========" = 10
      ∧ line 1 doc ≠ Some "========".
Proof.
  split; [by vm_compute|]. eexists. split; [by vm_compute|].
  split; [by vm_compute|]. split; [by vm_compute|]. by vm_compute.
Qed.

(** C6, as amended: in an undisturbed run of split-index mode on a tree
    with [markov/ergodicity.py] and [models/lucastree.py],
    [source/markov/ergodicity.rst] holds the markov template rendered for
    [ergodicity], with an underline of ten characters,
    [source/models/lucastree.rst] holds the models template rendered for
    [lucastree], and the inclusion block of [source/markov.rst] has the
    entry [markov/ergodicity]. *)
Theorem split_mode_example (w : world) (lm lo : list string) :
  calm w →
  "../quantecon/markov" ∉ unreadable w →
  scan w !! "../quantecon/markov" = Some lm → "ergodicity.py" ∈ lm →
  "../quantecon/models" ∉ unreadable w →
  scan w !! "../quantecon/models" = Some lo → "lucastree.py" ∈ lo →
  ∃ w' erg luc markov idx,
    model_tool w = (Ok tt, w')
    ∧ render_module markov_module_template "ergodicity" = Ok erg
    ∧ files w' !! "source/markov/ergodicity.rst" = Some erg
    ∧ line 0 erg = Some "ergodicity"
    ∧ line 1 erg = Some "=========="
    ∧ render_module model_module_template "lucastree" = Ok luc
    ∧ files w' !! "source/models/lucastree.rst" = Some luc
    ∧ line 0 luc = Some "lucastree"
    ∧ line 1 luc = Some "========="
    ∧ "markov/ergodicity" ∈ map (String.app "markov/") markov
    ∧ category_index "markov"
        (Py.join (Py.nl +:+ "   ") (map (String.app "markov/") markov)) = Ok idx
    ∧ files w' !! "source/markov.rst" = Some idx.
Proof.
  intros Hcalm Hur1 Hsc1 Hin1 Hur2 Hsc2 Hin2.
  destruct (model_tool_calm w Hcalm) as (ds & Hrun & _).
  set (markov := found (scan w) (unreadable w) "../quantecon/markov/[a-z0-9]*.py").
  set (models := found (scan w) (unreadable w) "../quantecon/models/[a-z0-9]*.py").
  assert (Herg : "ergodicity" ∈ markov).
  { apply (found_intro _ _ _ "../quantecon/markov/ergodicity.py").
    by apply (globbed_intro _ _ _ "../quantecon/markov" "[a-z0-9]*.py" lm
                "ergodicity.py"). }
  assert (Hluc : "lucastree" ∈ models).
  { apply (found_intro _ _ _ "../quantecon/models/lucastree.py").
    by apply (globbed_intro _ _ _ "../quantecon/models" "[a-z0-9]*.py" lo
                "lucastree.py"). }
  eexists _, _, _, markov, _. split; [exact Hrun|].
  cbn [files upd]. unfold split_plan.
  split; [reflexivity|]. split.
  { apply (module_file_content _ _ _ _ _ _ ["markov"] "source/markov/"
             markov_module_template markov "ergodicity");
      try apply found_no_slash; [|done].
    unfold module_table. apply list_elem_of_here. }
  split; [by vm_compute|]. split; [by vm_compute|].
  split; [reflexivity|]. split.
  { apply (module_file_content _ _ _ _ _ _ ["models"] "source/models/"
             model_module_template models "lucastree");
      try apply found_no_slash; [|done].
    unfold module_table. apply list_elem_of_further, list_elem_of_here. }
  split; [by vm_compute|]. split; [by vm_compute|].
  split.
  { apply list_elem_of_fmap. by exists "ergodicity". }
  split; [by apply category_index_text; set_solver|].
  rewrite split_store. rewrite !lookup_insert_ne, lookup_insert_eq by done.
  do 2 f_equal. rewrite toc_join. fold markov.
  destruct markov; [by apply elem_of_nil in Herg|done].
Qed.

Lemma world_example_calm : calm world_example.
Proof. by split_and!. Qed.

Lemma split_mode_example_witness :
  ∃ w' erg luc markov idx,
    model_tool world_example = (Ok tt, w')
    ∧ render_module markov_module_template "ergodicity" = Ok erg
    ∧ files w' !! "source/markov/ergodicity.rst" = Some erg
    ∧ line 0 erg = Some "ergodicity"
    ∧ line 1 erg = Some "=========="
    ∧ render_module model_module_template "lucastree" = Ok luc
    ∧ files w' !! "source/models/lucastree.rst" = Some luc
    ∧ line 0 luc = Some "lucastree"
    ∧ line 1 luc = Some "========="
    ∧ "markov/ergodicity" ∈ map (String.app "markov/") markov
    ∧ category_index "markov"
        (Py.join (Py.nl +:+ "   ") (map (String.app "markov/") markov)) = Ok idx
    ∧ files w' !! "source/markov.rst" = Some idx.
Proof.
  apply (split_mode_example world_example ["ergodicity.py"] ["lucastree.py"]).
  - exact world_example_calm.
  - by vm_compute.
  - by vm_compute.
  - apply list_elem_of_here.
  - by vm_compute.
  - by vm_compute.
  - apply list_elem_of_here.
Defined.

(** ** The output paths of the two modes *)

(** Both modes write [source/index.rst]. *)
Lemma index_shared_counterexample :
  EvOpen "source/index.rst" ∈ trace (main ["qe_apidoc.py"; "single"]) empty_world
  ∧ EvOpen "source/index.rst" ∈ trace (main ["qe_apidoc.py"]) empty_world
  ∧ EvOpen "source/index.rst" ∈ trace (main ["qe_apidoc.py"; "foo"]) empty_world.
Proof. split_and!; apply (bool_decide_unpack _); by vm_compute. Qed.

Lemma split_calm_layout w :
  calm w →
  ∃ w', model_tool w = (Ok tt, w')
        ∧ (∀ d, d ∈ split_directories → exists_b d w' = true)
        ∧ (∀ p, p ∈ split_indexes →
             EvOpen p ∈ trace model_tool w ∧ is_Some (files w' !! p)).
Proof.
  intros Hcalm. destruct (model_tool_calm w Hcalm) as (ds & Hrun & _ & Hhead).
  eexists. split; [exact Hrun|]. split.
  - intros d Hd. unfold exists_b. cbn [dirs files upd].
    assert (Hchain : ∃ parents, d :: parents ∈ split_chains).
    { unfold split_directories, split_chains in *.
      rewrite !elem_of_cons, elem_of_nil in Hd.
      destruct Hd as [->|[->|[->|[->|[->|[->|[]]]]]]]; eexists;
        rewrite !elem_of_cons; eauto 10. }
    destruct Hchain as [parents Hchain].
    apply orb_true_iff.
    destruct (Hhead d parents Hchain) as [H|H]; [left|right];
      apply bool_decide_eq_true; [done|by apply store_is_Some].
  - intros p Hp. split.
    + rewrite (trace_upd _ _ _ _ _ _ Hrun). apply elem_of_app. right.
      apply elem_of_app. right. unfold split_plan. rewrite split_actions_parts.
      rewrite map_app, concat_app. apply elem_of_app. right.
      cbn [map concat whole_write index_actions target app].
      unfold split_indexes in Hp. rewrite !elem_of_cons, elem_of_nil in Hp.
      rewrite !elem_of_cons.
      destruct Hp as [->|[->|[->|[->|[->|[->|[]]]]]]];
        repeat first [by left | right].
    + cbn [files upd]. unfold split_plan. rewrite split_store.
      unfold split_indexes in Hp. rewrite !elem_of_cons, elem_of_nil in Hp.
      destruct Hp as [->|[->|[->|[->|[->|[->|[]]]]]]];
        rewrite ?lookup_insert_ne by done; rewrite lookup_insert_eq; eauto.
Qed.

Lemma single_calm_empty w :
  calm w → (glob "../quantecon/[a-z0-9]*.py" w).1 = Ok [] →
  ∃ w' doc, all_auto w = (Ok tt, w')
            ∧ exists_b "source/modules" w' = true
            ∧ single_index [] = Ok doc
            ∧ files w' !! "source/index.rst" = Some doc
            ∧ EvOpen "source/index.rst" ∈ trace all_auto w.
Proof.
  intros Hcalm Hglob. rewrite glob_sem in Hglob. injection Hglob as Hglob.
  assert (Hplan : single_plan (scan w) (unreadable w)
                  = [Put "source/index.rst" (single_index [])]).
  { unfold single_plan, single_names. by rewrite Hglob. }
  assert (Hput : Forall put_ok (single_plan (scan w) (unreadable w))).
  { rewrite Hplan. constructor; [|constructor]. eexists _, _. reflexivity. }
  destruct (mode_run_calm single_chains _
              (scan_events (scan w) (unreadable w) "../quantecon/[a-z0-9]*.py")
              w single_chains_good Hcalm Hput) as (ds & Hrun & _ & Hhead).
  rewrite <- all_auto_mode in Hrun. rewrite Hplan in Hrun.
  eexists _, _. split; [exact Hrun|]. split.
  { unfold exists_b. cbn [dirs files upd]. apply orb_true_iff.
    destruct (Hhead "source/modules" ["source"]) as [H|H]; [left|left|right];
      apply bool_decide_eq_true; [done|by apply store_is_Some]. }
  split; [reflexivity|]. split.
  - cbn [files upd map store foldl kv target text_of fst snd].
    by rewrite lookup_insert_eq.
  - rewrite (trace_upd _ _ _ _ _ _ Hrun). apply elem_of_app. right.
    apply elem_of_app. right. left.
Qed.

(** C7, as amended.  With [single] among the arguments the script makes no
    directory but [source] and [source/modules] and opens no file but
    [source/index.rst] and files right inside [source/modules]; when the
    scan finds no module and the system refuses nothing, it makes
    [source/modules] and writes the one index.  Without [single] (no
    argument, or [foo]) it makes no directory but [source] and the six
    category directories and opens no file but the six index documents and
    files right inside a category directory; when the system refuses
    nothing, the six directories are there and the six index documents are
    written.  A file of a module in one mode is never a path of the other
    mode: the only file both modes can open is [source/index.rst]. *)
Theorem mode_output_trees (prog : string) :
  (∀ args w, "single" ∈ args →
     let ev := trace (main (prog :: args)) w in
     (∀ d, EvMkdir d ∈ ev → d = "source" ∨ d = "source/modules")
     ∧ (∀ p, EvOpen p ∈ ev → p = "source/index.rst" ∨ single_module_path p)
     ∧ (calm w → (glob "../quantecon/[a-z0-9]*.py" w).1 = Ok [] →
        ∃ w' doc, main (prog :: args) w = (Ok tt, w')
                  ∧ exists_b "source/modules" w' = true
                  ∧ single_index [] = Ok doc
                  ∧ files w' !! "source/index.rst" = Some doc
                  ∧ EvOpen "source/index.rst" ∈ ev))
  ∧ (∀ args w, "single" ∉ args →
     let ev := trace (main (prog :: args)) w in
     (∀ d, EvMkdir d ∈ ev → d ∈ "source" :: split_directories)
     ∧ (∀ p, EvOpen p ∈ ev → p ∈ split_indexes ∨ split_module_path p)
     ∧ (calm w →
        ∃ w', main (prog :: args) w = (Ok tt, w')
              ∧ (∀ d, d ∈ split_directories → exists_b d w' = true)
              ∧ (∀ p, p ∈ split_indexes →
                   EvOpen p ∈ ev ∧ is_Some (files w' !! p))))
  ∧ (∀ args1 args2 w1 w2 p,
       "single" ∈ args1 → "single" ∉ args2 →
       EvOpen p ∈ trace (main (prog :: args1)) w1 →
       EvOpen p ∈ trace (main (prog :: args2)) w2 →
       p = "source/index.rst")
  ∧ (∀ p, single_module_path p → (p ∉ split_indexes) ∧ ¬ split_module_path p).
Proof.
  assert (Hsingle : ∀ args, "single" ∈ args → main (prog :: args) = all_auto).
  { intros args H. unfold main. cbn [tail]. by rewrite bool_decide_eq_true_2. }
  assert (Hsplit : ∀ args, "single" ∉ args → main (prog :: args) = model_tool).
  { intros args H. unfold main. cbn [tail]. by rewrite bool_decide_eq_false_2. }
  split_and!.
  - intros args w Hargs. rewrite (Hsingle args Hargs). cbv zeta.
    destruct (all_auto_log w) as [H1 H2]. split_and!; [done|done|].
    apply single_calm_empty.
  - intros args w Hargs. rewrite (Hsplit args Hargs). cbv zeta.
    destruct (model_tool_log w) as [H1 H2]. split_and!; [done|done|].
    apply split_calm_layout.
  - intros args1 args2 w1 w2 p H1 H2. rewrite (Hsingle args1 H1), (Hsplit args2 H2).
    intros Hp1 Hp2.
    destruct (proj2 (all_auto_log w1) p Hp1) as [->|Hs]; [done|].
    destruct (modes_share_index_only p Hs) as [Hn1 Hn2].
    by destruct (proj2 (model_tool_log w2) p Hp2).
  - apply modes_share_index_only.
Qed.

(** ** A category without module *)

Definition world_empty_util : world :=
  World {[ "../quantecon/markov" := ["ergodicity.py"];
           "../quantecon/util" := ["__init__.py"] ]}
        ∅ ∅ ∅ [] ∅ ∅ ∅ [].

(** C8 fails for a category without module: the join of an empty list
    leaves the category's bare prefix as the one entry of its index. *)
Theorem empty_category_index :
  (discover "../quantecon/util/[a-z0-9]*.py" world_empty_util).1 = Ok []
  ∧ (model_tool world_empty_util).1 = Ok tt
  ∧ ∃ doc,
      files (model_tool world_empty_util).2 !! "source/util.rst" = Some doc
      ∧ toctree_entries doc = ["util/"]
      ∧ line 6 doc = Some "   util/".
Proof.
  split; [by vm_compute|]. split; [by vm_compute|].
  eexists. split; [by vm_compute|]. split; by vm_compute.
Qed.

(** ** The index of the util category *)

(** A file name with a line feed in it puts a line of its own choice in
    the index of its category: here the entry [util] in the index of
    markov, in a run that the system does not disturb. *)
Definition world_util_entry : world :=
  World {[ "../quantecon/markov" := ["a
   util.py"] ]} ∅ ∅ ∅ [] ∅ ∅ ∅ [].

Lemma util_entry_counterexample :
  calm world_util_entry
  ∧ (model_tool world_util_entry).1 = Ok tt
  ∧ (∃ util, files (model_tool world_util_entry).2 !! "source/util.rst"
               = Some util
             ∧ line 0 util = Some "Util")
  ∧ ∃ doc,
      files (model_tool world_util_entry).2 !! "source/markov.rst" = Some doc
      ∧ line 6 doc = Some "   markov/a"
      ∧ line 7 doc = Some "   util"
      ∧ "util" ∈ toctree_entries doc.
Proof.
  split; [by split_and!|]. split; [by vm_compute|].
  split; [eexists; split; by vm_compute|].
  eexists. split; [by vm_compute|]. split; [by vm_compute|].
  split; [by vm_compute|]. apply (bool_decide_unpack _). by vm_compute.
Qed.

(** C9, as amended: in a run of split-index mode that the system does not
    disturb, [source/util.rst] is opened and written, with the index of
    the util category; the top-level index is the fixed template, whose
    toctree lists markov, models, random and tools and not util; and the
    toctree of the index of a category, read back from the file written,
    has only entries with a slash in them, so that none is [util], when
    no name found for the category has a line feed in it. *)
Theorem util_index_unreferenced (w : world) :
  calm w →
  ∃ w' doc,
    model_tool w = (Ok tt, w')
    ∧ category_index "util"
        (toc "util/" (found (scan w) (unreadable w) "../quantecon/util/[a-z0-9]*.py"))
      = Ok doc
    ∧ files w' !! "source/util.rst" = Some doc
    ∧ EvOpen "source/util.rst" ∈ trace model_tool w
    ∧ files w' !! "source/index.rst" = Some split_index_template
    ∧ toctree_entries split_index_template = ["markov"; "models"; "random"; "tools"]
    ∧ ("util" ∉ toctree_entries split_index_template)
    ∧ (∀ c prefix pattern extra names,
         (c, prefix, pattern, extra) ∈ category_table →
         (discover pattern w).1 = Ok names →
         Forall (λ n, has_char Py.LF n = false) names →
         ∃ idx,
           files w' !! ("source/" +:+ c +:+ ".rst") = Some idx
           ∧ Forall (λ e, has_char "/" e = true) (toctree_entries idx)
           ∧ ("util" ∉ toctree_entries idx)).
Proof.
  intros Hcalm. destruct (model_tool_calm w Hcalm) as (ds & Hrun & _).
  destruct (category_index_contents w Hcalm) as (w'' & Hrun' & Hcat).
  rewrite Hrun in Hrun'. injection Hrun' as <-.
  eexists _, _. split; [exact Hrun|].
  split; [by apply category_index_text; set_solver|].
  split.
  { cbn [files upd]. unfold split_plan. rewrite split_store.
    by rewrite lookup_insert_eq. }
  split.
  { rewrite (trace_upd _ _ _ _ _ _ Hrun). apply elem_of_app. right.
    apply elem_of_app. right. unfold split_plan. rewrite split_actions_parts.
    rewrite map_app, concat_app. apply elem_of_app. right.
    cbn [map concat whole_write index_actions target app].
    rewrite !elem_of_cons. repeat first [by left | right]. }
  split.
  { cbn [files upd]. unfold split_plan. rewrite split_store.
    by rewrite !lookup_insert_ne, lookup_insert_eq by done. }
  split; [by vm_compute|].
  split; [apply (bool_decide_unpack _); by vm_compute|].
  intros c prefix pattern extra names Htab Hnames Hlf.
  rewrite discover_sem in Hnames. injection Hnames as <-.
  destruct (Hcat c prefix pattern extra Htab) as [_ Hfile].
  eexists. split; [exact Hfile|].
  rewrite index_text_document.
  assert (Hprefix : has_char "/" prefix = true
                    ∧ Forall (λ e, has_char "/" e = true) extra
                    ∧ Forall (λ e, has_char Py.LF e = false) (prefix :: extra)).
  { unfold category_table in Htab. rewrite !elem_of_cons, elem_of_nil in Htab.
    destruct Htab as [H|[H|[H|[H|[H|[]]]]]]; injection H as _ -> _ ->;
      split_and!; by repeat constructor. }
  destruct Hprefix as (Hp & Hextra & Hplf).
  rewrite (category_read_back c prefix pattern extra); [|done| |].
  - assert (Hslash : Forall (λ e, has_char "/" e = true)
              (toc_entries prefix (found (scan w) (unreadable w) pattern) ++ extra)).
    { apply Forall_app. split; [|done]. apply Forall_forall. intros e He.
      by apply (toc_entries_slash prefix
                  (found (scan w) (unreadable w) pattern) e Hp). }
    split; [exact Hslash|].
    intros Hin. rewrite Forall_forall in Hslash. by specialize (Hslash _ Hin).
  - intros Happ. apply app_eq_nil in Happ as [Happ _].
    by apply toc_entries_nonempty in Happ.
  - by apply prefixed_no_LF.
Qed.

Lemma util_index_unreferenced_witness :
  ∃ w' doc,
    model_tool world_example = (Ok tt, w')
    ∧ category_index "util"
        (toc "util/" (found (scan world_example) (unreadable world_example)
                        "../quantecon/util/[a-z0-9]*.py"))
      = Ok doc
    ∧ files w' !! "source/util.rst" = Some doc
    ∧ EvOpen "source/util.rst" ∈ trace model_tool world_example
    ∧ files w' !! "source/index.rst" = Some split_index_template
    ∧ toctree_entries split_index_template = ["markov"; "models"; "random"; "tools"]
    ∧ ("util" ∉ toctree_entries split_index_template)
    ∧ (∀ c prefix pattern extra names,
         (c, prefix, pattern, extra) ∈ category_table →
         (discover pattern world_example).1 = Ok names →
         Forall (λ n, has_char Py.LF n = false) names →
         ∃ idx,
           files w' !! ("source/" +:+ c +:+ ".rst") = Some idx
           ∧ Forall (λ e, has_char "/" e = true) (toctree_entries idx)
           ∧ ("util" ∉ toctree_entries idx)).
Proof. apply (util_index_unreferenced world_example). exact world_example_calm. Defined.

(** ** The file writer and errors *)

(** The writer's block, [with open(p, "w") as f: f.write(s)]: the handle
    is released whatever happens, and when the block ends normally the file
    holds [s] and nothing of what it held before. *)
Lemma write_block p s w :
  let '(r, w') := with_open p (λ f, file_write f s) w in
  handles w' = handles w ∧ (r = Ok tt → files w' !! p = Some s).
Proof.
  change (with_open p (λ f, file_write f s) w) with (do_action (Put p (Ok s)) w).
  rewrite do_action_sem. unfold act_sem. cbn [target].
  case_bool_decide; [done|].
  destruct (short_write w !! p) as [n|]; [case_bool_decide|]; cbn; try done;
    split; try done; intros _; apply lookup_insert_eq.
Qed.

(** C10, as amended: the writer's block releases its handle whatever
    happens and, when it ends normally, leaves the file with exactly the
    text written; a run releases every handle it opens; its files are the
    files before with every opened file emptied and then holding what was
    written to it; in the log an open is followed by its release, after a
    whole write, a failed write or no write; an error of a directory
    creation, an open or a write is the result of the run and only releases
    follow it in the log.  (A failed scan of a directory is not such an
    error: [glob] never raises.) *)
Theorem writer_discipline (argv : list string) (w : world) :
  (∀ p s, let '(r, w') := with_open p (λ f, file_write f s) w in
          handles w' = handles w ∧ (r = Ok tt → files w' !! p = Some s))
  ∧ (let '(r, w') := main argv w in
     let ev := trace (main argv) w in
     handles w' = handles w
     ∧ files w' = replay ev (files w)
     ∧ bracketed ev
     ∧ fail_stop r ev)
  ∧ (∀ pattern, ∃ names, (glob pattern w).1 = Ok names).
Proof.
  split; [intros p s; apply write_block|]. split.
  - destruct (main_discipline argv w) as (chains & plan & _ & H).
    destruct (main argv w) as [r w']. cbv zeta in *.
    destruct H as (H1 & H2 & H3 & H4 & _). done.
  - intros pattern. rewrite glob_sem. eauto.
Qed.

(** A scanned directory that cannot be read: the run goes on to the end
    and writes its documents after the error. *)
Definition world_unreadable_markov : world :=
  World {[ "../quantecon/markov" := ["ergodicity.py"] ]}
        {[ "../quantecon/markov" ]} ∅ ∅ [] ∅ ∅ ∅ [].

Lemma scan_error_counterexample :
  (os_listdir "../quantecon/markov" world_unreadable_markov).1
    = Raise (OSError EACCES "../quantecon/markov")
  ∧ (model_tool world_unreadable_markov).1 = Ok tt
  ∧ ∃ post,
      trace model_tool world_unreadable_markov
        = EvFail Listdir (OSError EACCES "../quantecon/markov") :: post
      ∧ EvOpen "source/index.rst" ∈ post
      ∧ EvWrite "source/index.rst" split_index_template ∈ post.
Proof.
  split; [by vm_compute|]. split; [by vm_compute|].
  eexists. split; [by vm_compute|].
  split; apply (bool_decide_unpack _); by vm_compute.
Qed.

(** * Further properties *)

(** ** The helper [source_join] *)

(** X1: [source_join] puts a relative name under [source]; an absolute
    name is returned as it is, since [os.path.join] drops what comes
    before an absolute component.  Different names give different
    paths. *)
Theorem source_join_paths (f g : string) :
  source_join f = (if Path.starts_with_slash f then f else "source/" +:+ f)
  ∧ (source_join f = source_join g → f = g).
Proof.
  assert (Hjoin : ∀ x, source_join x
            = if Path.starts_with_slash x then x else "source/" +:+ x).
  { intros x. unfold source_join, Path.join, Path.join2. cbn [foldl].
    by destruct (Path.starts_with_slash x). }
  split; [apply Hjoin|]. rewrite !Hjoin.
  destruct f as [|c f], g as [|d g]; cbn [Path.starts_with_slash].
  - done.
  - destruct (Ascii.eqb d "/") eqn:Hd; [|discriminate].
    apply Ascii.eqb_eq in Hd as ->. discriminate.
  - destruct (Ascii.eqb c "/") eqn:Hc; [|discriminate].
    apply Ascii.eqb_eq in Hc as ->. discriminate.
  - destruct (Ascii.eqb c "/") eqn:Hc, (Ascii.eqb d "/") eqn:Hd; try done.
    + apply Ascii.eqb_eq in Hc as ->. discriminate.
    + apply Ascii.eqb_eq in Hd as ->. discriminate.
    + intros H. by apply (inj (String.app "source/")) in H.
Qed.

(** ** Which files of the package are modules *)

Definition is_digit (c : ascii) : bool :=
  (N.leb 48 (N_of_ascii c) && N.leb (N_of_ascii c) 57)%bool.

(** The scanned directory of each pattern of the script. *)
Definition scanned : list (string * string) :=
  [ ("../quantecon/markov/[a-z0-9]*.py", "../quantecon/markov");
    ("../quantecon/models/[a-z0-9]*.py", "../quantecon/models");
    ("../quantecon/models/solow/[a-z0-9]*.py", "../quantecon/models/solow");
    ("../quantecon/random/[a-z0-9]*.py", "../quantecon/random");
    ("../quantecon/[a-z0-9]*.py", "../quantecon");
    ("../quantecon/util/[a-z0-9]*.py", "../quantecon/util") ].

Lemma matches_lit c rest s :
  Fnmatch.matches (Fnmatch.Lit c :: rest) s = true
  ↔ ∃ s', s = String c s' ∧ Fnmatch.matches rest s' = true.
Proof.
  destruct s as [|d s]; cbn [Fnmatch.matches].
  - split; [done|]. by intros (s' & H & _).
  - rewrite andb_true_iff. split.
    + intros [<-%Ascii.eqb_eq H]. by exists s.
    + intros (s' & [= <- <-] & H). split; [apply Ascii.eqb_refl|done].
Qed.

Lemma matches_extension s :
  Fnmatch.matches [Fnmatch.Lit "."; Fnmatch.Lit "p"; Fnmatch.Lit "y"] s = true
  ↔ s = ".py".
Proof.
  rewrite matches_lit. split.
  - intros (s1 & -> & (s2 & -> & (s3 & -> & H)%matches_lit)%matches_lit).
    cbn in H. by apply String.eqb_eq in H as ->.
  - intros ->. by exists "py".
Qed.

Lemma matches_star rest s :
  Fnmatch.matches (Fnmatch.Star :: rest) s
  = (Fnmatch.matches rest s
     || match s with
        | String _ s' => Fnmatch.matches (Fnmatch.Star :: rest) s'
        | "" => false
        end)%bool.
Proof. by destruct s. Qed.

Lemma matches_star_extension s :
  Fnmatch.matches
    [Fnmatch.Star; Fnmatch.Lit "."; Fnmatch.Lit "p"; Fnmatch.Lit "y"] s = true
  ↔ ∃ r, s = r +:+ ".py".
Proof.
  induction s as [|c s IH]; rewrite matches_star, orb_true_iff, matches_extension.
  - split; [by intros [|]|]. by intros [[|] H].
  - rewrite IH. split.
    + intros [H|[r ->]]; [by exists ""|by exists (String c r)].
    + intros [[|c' r] H]; [by left|]. right. exists r.
      rewrite app_cons_str in H. by injection H.
Qed.

Lemma matches_class neg rs rest s :
  Fnmatch.matches (Fnmatch.Class neg rs :: rest) s = true
  ↔ ∃ c s', s = String c s' ∧ Fnmatch.in_class neg rs c = true
            ∧ Fnmatch.matches rest s' = true.
Proof.
  destruct s as [|d s]; cbn [Fnmatch.matches].
  - split; [done|]. by intros (c & s' & H & _).
  - rewrite andb_true_iff. split.
    + intros [Hd H]. by exists d, s.
    + by intros (c & s' & [= <- <-] & Hc & H).
Qed.

(** What the pattern of every scan matches: a lowercase letter or a digit,
    anything, and the extension. *)
Lemma fnmatch_module n :
  Fnmatch.fnmatch n "[a-z0-9]*.py" = true
  ↔ ∃ c r, n = String c (r +:+ ".py") ∧ (Py.is_lower c || is_digit c)%bool = true.
Proof.
  unfold Fnmatch.fnmatch.
  change (Fnmatch.items None "[a-z0-9]*.py")
    with [Fnmatch.Class false [("a"%char, "z"%char); ("0"%char, "9"%char)];
          Fnmatch.Star; Fnmatch.Lit "."; Fnmatch.Lit "p"; Fnmatch.Lit "y"].
  rewrite matches_class.
  assert (Hc : ∀ c, Fnmatch.in_class false
                      [("a"%char, "z"%char); ("0"%char, "9"%char)] c
                    = (Py.is_lower c || is_digit c)%bool).
  { intros c. unfold Fnmatch.in_class, Fnmatch.in_range, Py.is_lower, is_digit.
    cbn. by rewrite orb_false_r. }
  split.
  - intros (c & s' & -> & Hin & [r ->]%matches_star_extension).
    exists c, r. by rewrite <- Hc.
  - intros (c & r & -> & Hin). exists c, (r +:+ ".py").
    rewrite Hc. split_and!; [done|done|]. apply matches_star_extension. by exists r.
Qed.

Lemma split_no_slash n : no_slash n → Py.split "/" n = [n].
Proof.
  unfold no_slash. induction n as [|c n IH]; intros H; [done|].
  simpl in H. apply orb_false_iff in H as [Hc H].
  cbn [Py.split]. by rewrite Hc, (IH H).
Qed.

Lemma split_after d n :
  no_slash n →
  ∃ seg front, Py.split "/" (d +:+ "/" +:+ n) = seg :: front ++ [n].
Proof.
  intros Hn. induction d as [|c d (seg & front & IH)].
  - exists "", []. change ("" +:+ "/" +:+ n) with (String "/" n). cbn [Py.split].
    by rewrite Ascii.eqb_refl, (split_no_slash n Hn).
  - rewrite app_cons_str. cbn [Py.split]. rewrite IH.
    destruct (Ascii.eqb c "/"); [by exists "", (seg :: front)|].
    by exists (String c seg), front.
Qed.

Lemma last_segment_after d n :
  no_slash n → Py.last_item (Py.split "/" (d +:+ "/" +:+ n)) = n.
Proof.
  intros Hn. destruct (split_after d n Hn) as (seg & front & ->).
  unfold Py.last_item. change (seg :: front ++ [n]) with ((seg :: front) ++ [n]).
  apply last_last.
Qed.

Lemma substring_app a b : String.substring 0 (String.length a) (a +:+ b) = a.
Proof.
  induction a as [|c a IH]; [by destruct b|].
  rewrite app_cons_str. simpl. by rewrite IH.
Qed.

Lemma drop_extension n : Py.drop_last3 (n +:+ ".py") = n.
Proof.
  unfold Py.drop_last3. rewrite str_app_length.
  replace (String.length n + String.length ".py" - 3) with (String.length n)
    by (simpl; lia).
  apply substring_app.
Qed.

Lemma no_slash_relative n : no_slash n → Path.starts_with_slash n = false.
Proof.
  destruct n as [|c n]; [done|]. unfold no_slash. simpl.
  by intros [Hc _]%orb_false_iff.
Qed.

Lemma scanned_split pattern d :
  (pattern, d) ∈ scanned →
  Path.split pattern = (d, "[a-z0-9]*.py") ∧ String.eqb d "" = false
  ∧ ∀ n, no_slash n → Path.join d [n] = d +:+ "/" +:+ n.
Proof.
  unfold scanned. rewrite !elem_of_cons, elem_of_nil.
  intros [H|[H|[H|[H|[H|[H|[]]]]]]]; injection H as -> ->;
    (split; [by vm_compute|]); (split; [by vm_compute|]);
    intros n Hn; unfold Path.join, Path.join2; cbn [foldl];
    by rewrite (no_slash_relative n Hn).
Qed.

Lemma globbed_listing sc ur pattern d base l :
  Path.split pattern = (d, base) → String.eqb d "" = false →
  d ∉ ur → sc !! d = Some l → starts_with_dot base = false →
  globbed sc ur pattern
  = map (λ n, Path.join d [n])
        (Fnmatch.filter (List.filter (λ x, negb (starts_with_dot x)) l) base).
Proof.
  intros Hsplit Hd Hur Hsc Hbase.
  unfold globbed, glob. rewrite Hsplit. unfold bind, glob1, os_listdir.
  rewrite Hd. cbn [scan unreadable scan_world].
  by rewrite bool_decide_eq_false_2, Hsc, Hbase by done.
Qed.

Lemma NoDup_list_filter {A} (f : A → bool) (l : list A) :
  NoDup l → NoDup (List.filter f l).
Proof.
  induction 1 as [|x l Hx Hnd IH]; cbn; [constructor|].
  destruct (f x); [|done]. constructor; [|done].
  intros [Hin _]%list_elem_of_In%filter_In. by apply Hx, list_elem_of_In.
Qed.

(** The name of a module, from the path [glob] returns for its file. *)
Definition stem (x : string) : string :=
  Py.drop_last3 (Py.last_item (Py.split "/" x)).

Lemma module_start c :
  (Py.is_lower c || is_digit c)%bool = true → Ascii.eqb c "." = false.
Proof.
  intros H. destruct (Ascii.eqb c ".") eqn:Hc; [|done].
  apply Ascii.eqb_eq in Hc as ->. by vm_compute in H.
Qed.

(** X2: for each of the six patterns, when the scanned directory can be
    listed, the names [discover] returns are the [n] such that [n.py] is
    in the listing and [n] starts with a lowercase letter or a digit:
    names that start with an underscore, an uppercase letter or a dot, and
    files with another extension, are left out.  The names come in
    ascending order, and each once when the listing has each file once.
    (A listing holds names, without slash.) *)
Theorem discovered_modules (w : world) (pattern d : string) (l : list string) :
  (pattern, d) ∈ scanned →
  d ∉ unreadable w → scan w !! d = Some l → Forall no_slash l →
  ∃ names,
    (discover pattern w).1 = Ok names
    ∧ Sorted String.le names
    ∧ (NoDup l → NoDup names)
    ∧ ∀ n, n ∈ names ↔
        (n +:+ ".py") ∈ l
        ∧ ∃ c r, n = String c r ∧ (Py.is_lower c || is_digit c)%bool = true.
Proof.
  intros Hpat Hur Hsc Hl.
  destruct (scanned_split pattern d Hpat) as (Hsplit & Hd & Hjoin).
  rewrite discover_sem. eexists. split; [reflexivity|].
  rewrite found_globbed.
  rewrite (globbed_listing _ _ _ d "[a-z0-9]*.py" l) by done.
  set (kept := Fnmatch.filter _ _).
  assert (Hkept : ∀ e, e ∈ kept ↔
            e ∈ l ∧ ∃ c r, e = String c (r +:+ ".py")
                           ∧ (Py.is_lower c || is_digit c)%bool = true).
  { intros e. unfold kept, Fnmatch.filter.
    rewrite !list_elem_of_In, !filter_In, <- !list_elem_of_In, fnmatch_module.
    split.
    - by intros [[He _] H].
    - intros [He (c & r & -> & Hc)]. split_and!; [done| |by exists c, r].
      cbn. by rewrite (module_start c Hc). }
  assert (Hstem : ∀ e c r, e ∈ l → e = String c (r +:+ ".py") →
            stem (Path.join d [e]) = String c r).
  { intros e c r He ->. rewrite Forall_forall in Hl.
    unfold stem. rewrite Hjoin, last_segment_after by auto.
    by rewrite <- app_cons_str, drop_extension. }
  fold stem. rewrite map_map.
  split; [apply Sorted_merge_sort; apply _|]. split.
  - intros Hnd. unfold Py.sort. rewrite merge_sort_Permutation.
    apply NoDup_fmap_2_strong.
    + intros e1 e2 [He1 (c1 & r1 & E1 & _)]%Hkept [He2 (c2 & r2 & E2 & _)]%Hkept.
      rewrite (Hstem e1 c1 r1), (Hstem e2 c2 r2) by done.
      intros [= -> ->]. by rewrite E1, E2.
    + unfold kept, Fnmatch.filter. by do 2 apply NoDup_list_filter.
  - intros n. unfold Py.sort. rewrite merge_sort_Permutation, list_elem_of_fmap.
    split.
    + intros (e & -> & [He (c & r & E & Hc)]%Hkept).
      rewrite (Hstem e c r) by done. rewrite app_cons_str, <- E. eauto.
    + intros [He (c & r & -> & Hc)]. exists (String c r +:+ ".py").
      rewrite app_cons_str in He |- *. split.
      * by rewrite (Hstem _ c r).
      * apply Hkept. eauto.
Qed.

Definition world_package : world :=
  World {[ "../quantecon/util" :=
             ["numba.py"; "__init__.py"; "array.py"; "Notes.py"; "array.pyc";
              ".hidden.py"; "common_messages.py"; "2d.py"] ]}
        ∅ ∅ ∅ [] ∅ ∅ ∅ [].

Lemma discovered_modules_witness :
  ∃ names,
    (discover "../quantecon/util/[a-z0-9]*.py" world_package).1 = Ok names
    ∧ Sorted String.le names
    ∧ (NoDup ["numba.py"; "__init__.py"; "array.py"; "Notes.py"; "array.pyc";
              ".hidden.py"; "common_messages.py"; "2d.py"] → NoDup names)
    ∧ ∀ n, n ∈ names ↔
        (n +:+ ".py") ∈ ["numba.py"; "__init__.py"; "array.py"; "Notes.py";
                         "array.pyc"; ".hidden.py"; "common_messages.py"; "2d.py"]
        ∧ ∃ c r, n = String c r ∧ (Py.is_lower c || is_digit c)%bool = true.
Proof.
  apply (discovered_modules world_package "../quantecon/util/[a-z0-9]*.py"
           "../quantecon/util").
  - unfold scanned. do 5 apply list_elem_of_further. apply list_elem_of_here.
  - apply not_elem_of_empty.
  - reflexivity.
  - repeat constructor.
Defined.

(** X3: a directory of the package that is missing or cannot be read is
    taken for a directory without module: [discover] returns the empty
    list, and the error of [os.listdir] is logged and nothing else
    happens. *)
Theorem unscanned_category (w : world) (pattern d : string) :
  (pattern, d) ∈ scanned →
  d ∈ unreadable w ∨ scan w !! d = None →
  ∃ code, discover pattern w
          = (Ok [], emit (EvFail Listdir (OSError code d)) w)
          ∧ (code = EACCES ∨ code = ENOENT).
Proof.
  intros Hpat Hd. destruct (scanned_split pattern d Hpat) as (Hsplit & Hne & _).
  unfold discover, glob. rewrite Hsplit.
  unfold bind, glob1, os_listdir. rewrite Hne.
  case_bool_decide as Hur.
  - exists EACCES. split; [reflexivity|by left].
  - destruct Hd as [Hd|Hd]; [done|]. rewrite Hd.
    exists ENOENT. split; [reflexivity|by right].
Qed.

Lemma unscanned_category_witness :
  ∃ code, discover "../quantecon/random/[a-z0-9]*.py" empty_world
          = (Ok [], emit (EvFail Listdir (OSError code "../quantecon/random"))
                         empty_world)
          ∧ (code = EACCES ∨ code = ENOENT).
Proof.
  apply (unscanned_category empty_world "../quantecon/random/[a-z0-9]*.py"
           "../quantecon/random").
  - unfold scanned. do 3 apply list_elem_of_further. apply list_elem_of_here.
  - right. reflexivity.
Defined.

(** ** Directories that are made, directories that are refused *)

Lemma mkdir_in_events d ds r : EvMkdir d ∈ mkdir_events ds r ↔ d ∈ ds.
Proof.
  split; [apply mkdir_events_made|]. intros H. unfold mkdir_events.
  apply elem_of_app. left. apply list_elem_of_fmap. by exists d.
Qed.

(** [os.mkdir] is called for a path only when nothing is there, so that
    the one error it can end in is a refusal of the system. *)
Lemma ensure_chain_fresh chain :
  NoDup chain → ∀ w, ∃ r ds,
    ensure_chain chain w
      = (r, upd w (list_to_set ds ∪ dirs w) (files w) (mkdir_events ds r))
    ∧ (∀ d, d ∈ ds → d ∈ chain ∧ exists_b d w = false)
    ∧ (∀ e, r = Raise e →
         ∃ d, d ∈ chain ∧ e = OSError EACCES d ∧ d ∈ refuse_mkdir w
              ∧ exists_b d w = false).
Proof.
  induction chain as [|c parents IH]; intros Hnd w.
  { exists (Ok tt), []. cbn. unfold ret, mkdir_events. cbn.
    rewrite (left_id_L ∅ (∪)), upd_id. split_and!; try done.
    intros d Hd. by apply elem_of_nil in Hd. }
  apply NoDup_cons in Hnd as [Hc Hnd].
  destruct (exists_b c w) eqn:Hex.
  { exists (Ok tt), []. rewrite ensure_chain_skip by done.
    unfold mkdir_events. cbn. rewrite (left_id_L ∅ (∪)), upd_id.
    split_and!; try done. intros d Hd. by apply elem_of_nil in Hd. }
  destruct (IH Hnd w) as (ra & ds & Hrun & Hfresh & Herr).
  cbn [ensure_chain]. rewrite bind_exists, Hex. cbn [negb].
  rewrite bind_run, Hrun.
  destruct ra as [[]|e].
  - assert (Hexc : exists_b c (upd w (list_to_set ds ∪ dirs w) (files w)
                                 (mkdir_events ds (Ok tt))) = false).
    { unfold exists_b in *. cbn [dirs files upd].
      apply orb_false_iff in Hex as [Hd Hf]. rewrite Hf, orb_false_r.
      apply bool_decide_eq_false. apply bool_decide_eq_false in Hd.
      intros [Hin%elem_of_list_to_set|Hin]%elem_of_union; [|done].
      by destruct (Hfresh c Hin) as [Hin' _]. }
    rewrite os_mkdir_sem, Hexc. cbn [refuse_mkdir upd].
    case_bool_decide as Href.
    + exists (Raise (OSError EACCES c)), ds. rewrite upd_upd.
      cbn [dirs files upd].
      split; [unfold mkdir_events; cbn; by rewrite app_nil_r|].
      split.
      { intros d Hd. destruct (Hfresh d Hd). split; [by right|done]. }
      intros e [= <-]. exists c. split_and!; try done. left.
    + exists (Ok tt), (ds ++ [c]). rewrite upd_upd. cbn [dirs files upd].
      split.
      { unfold mkdir_events. rewrite map_app, !app_nil_r. cbn.
        do 2 f_equal. rewrite list_to_set_app_L. cbn. set_solver. }
      split; [|done].
      intros d [Hd|Hd%list_elem_of_singleton]%elem_of_app.
      * destruct (Hfresh d Hd). split; [by right|done].
      * subst. split; [left|done].
  - exists (Raise e), ds. split; [done|]. split.
    { intros d Hd. destruct (Hfresh d Hd). split; [by right|done]. }
    intros e' [= <-]. destruct (Herr e eq_refl) as (d & Hd & He & Hr & Hx).
    exists d. split_and!; try done. by right.
Qed.

Lemma exists_b_before p w d ev :
  dirs w ⊆ d → exists_b p (upd w d (files w) ev) = false → exists_b p w = false.
Proof.
  intros Hd H. destruct (exists_b p w) eqn:Hp; [|done].
  by rewrite (exists_b_mono p w d ev Hd Hp) in H.
Qed.

Lemma ensure_all_fresh chains :
  Forall good_chain chains → ∀ w, ∃ r ds,
    for_each chains ensure_chain w
      = (r, upd w (list_to_set ds ∪ dirs w) (files w) (mkdir_events ds r))
    ∧ (∀ d, d ∈ ds → d ∈ concat chains ∧ exists_b d w = false)
    ∧ (∀ e, r = Raise e →
         ∃ d, d ∈ concat chains ∧ e = OSError EACCES d ∧ d ∈ refuse_mkdir w
              ∧ exists_b d w = false).
Proof.
  induction chains as [|ch chains IH]; intros Hgood w.
  { exists (Ok tt), []. cbn. unfold ret, mkdir_events. cbn.
    rewrite (left_id_L ∅ (∪)), upd_id. split_and!; try done.
    intros d Hd. by apply elem_of_nil in Hd. }
  apply Forall_cons in Hgood as [[Hnd Hne] Hgood].
  destruct (ensure_chain_fresh ch Hnd w) as (r1 & ds1 & Hrun1 & Hfresh1 & Herr1).
  cbn [for_each]. rewrite bind_run, Hrun1.
  destruct r1 as [[]|e].
  - destruct (IH Hgood (upd w (list_to_set ds1 ∪ dirs w) (files w)
                               (mkdir_events ds1 (Ok tt))))
      as (r2 & ds2 & Hrun2 & Hfresh2 & Herr2).
    exists r2, (ds1 ++ ds2). rewrite Hrun2, upd_upd.
    cbn [dirs files upd refuse_mkdir] in *.
    rewrite mkdir_events_app, list_to_set_app_L.
    assert (Hset : list_to_set ds2 ∪ (list_to_set ds1 ∪ dirs w)
                   = list_to_set ds1 ∪ list_to_set ds2 ∪ dirs w :> gset string)
      by set_solver.
    rewrite Hset. split; [done|]. split.
    + intros d [Hd|Hd]%elem_of_app.
      * destruct (Hfresh1 d Hd). split; [cbn [concat]; set_solver|done].
      * destruct (Hfresh2 d Hd) as [Hin Hx]. split; [cbn [concat]; set_solver|].
        eapply exists_b_before; [|exact Hx]. set_solver.
    + intros e Hr. destruct (Herr2 e Hr) as (d & Hd & He & Href & Hx).
      exists d. split_and!; try done; [cbn [concat]; set_solver|].
      eapply exists_b_before; [|exact Hx]. set_solver.
  - exists (Raise e), ds1. split; [done|]. split.
    { intros d Hd. destruct (Hfresh1 d Hd). split; [cbn [concat]; set_solver|done]. }
    intros e' [= <-]. destruct (Herr1 e eq_refl) as (d & Hd & He & Href & Hx).
    exists d. split_and!; try done. cbn [concat]. set_solver.
Qed.

(** ** The result of a run, whatever the system refuses *)

Definition mode_of (argv : list string) (w : world)
    : list (list string) * list action * list event :=
  if bool_decide ("single" ∈ tail argv)
  then (single_chains, single_plan (scan w) (unreadable w),
        scan_events (scan w) (unreadable w) "../quantecon/[a-z0-9]*.py")
  else (split_chains, split_plan (scan w) (unreadable w),
        split_scan (scan w) (unreadable w)).

Lemma main_mode argv w :
  let '(chains, plan, sev) := mode_of argv w in
  main argv w = mode_run chains plan sev w
  ∧ Forall good_chain chains ∧ Forall scan_failure sev.
Proof.
  unfold mode_of, main. case_bool_decide.
  - split; [apply all_auto_mode|].
    split; [apply single_chains_good|apply scan_events_failures].
  - split; [apply model_tool_mode|].
    split; [apply split_chains_good|apply split_scan_failures].
Qed.

Lemma mode_run_fresh chains plan sev w :
  Forall good_chain chains → ∃ rd ds,
    mode_run chains plan sev w = mode_result w plan sev rd ds
    ∧ (∀ d, d ∈ ds → d ∈ concat chains ∧ exists_b d w = false)
    ∧ (∀ e, rd = Raise e →
         ∃ d, d ∈ concat chains ∧ e = OSError EACCES d ∧ d ∈ refuse_mkdir w
              ∧ exists_b d w = false).
Proof.
  intros Hgood.
  destruct (ensure_all_fresh chains Hgood (upd w (dirs w) (files w) sev))
    as (rd & ds & Hrun & Hfresh & Herr).
  exists rd, ds. split; [|by split].
  unfold mode_run. rewrite bind_run, Hrun. cbn [dirs files upd].
  rewrite upd_upd. destruct rd as [[]|e]; [|done].
  rewrite for_each_actions. cbn [refuse_open short_write upd dirs files mode_result].
  destruct (acts_sem _ _ plan) as [[rf fev] kvs].
  by rewrite upd_upd, <- app_assoc.
Qed.

(** What a file block logs and how it can fail. *)
Definition block_error (ro : gset string) (sw : gmap string nat) (a : action)
    (e : exn) : Prop :=
  (e = IOError EACCES (target a) ∧ target a ∈ ro)
  ∨ (e = IOError ENOSPC (target a) ∧ is_Some (sw !! target a))
  ∨ (∃ name, a = Call (target a) name ∧ e = NameError name)
  ∨ a = Put (target a) (Raise e).

Lemma act_sem_kinds ro sw a :
  let '(r, ev, kvs) := act_sem ro sw a in
  Forall (λ e, is_file_event e = true) ev
  ∧ ∀ e, r = Raise e → block_error ro sw a e.
Proof.
  unfold act_sem, block_error. case_bool_decide as Hro.
  { split; [by repeat constructor|]. intros e [= <-]. by left. }
  destruct a as [p [s|e0]|p name]; cbn [target] in *.
  - destruct (sw !! p) as [n|] eqn:Hsw; [case_bool_decide|];
      (split; [by repeat constructor|]); intros e; try done.
    intros [= <-]. right. left. eauto.
  - split; [by repeat constructor|]. intros e [= <-]. by do 3 right.
  - split; [by repeat constructor|]. intros e [= <-]. do 2 right. left. eauto.
Qed.

Lemma acts_sem_kinds ro sw l :
  let '(r, ev, kvs) := acts_sem ro sw l in
  Forall (λ e, is_file_event e = true) ev
  ∧ ∀ e, r = Raise e → ∃ a, a ∈ l ∧ block_error ro sw a e.
Proof.
  induction l as [|a l IH]; cbn [acts_sem]; [by split|].
  pose proof (act_sem_kinds ro sw a) as Ha.
  destruct (act_sem ro sw a) as [[[[]|e] ev] kvs].
  - destruct (acts_sem ro sw l) as [[r ev'] kvs'].
    destruct Ha as [Ha _], IH as [Hev Herr].
    split; [by apply Forall_app|].
    intros e Hr. destruct (Herr e Hr) as (b & Hb & H). exists b. split; [by right|done].
  - destruct Ha as [Ha Herr]. split; [done|].
    intros e' [= <-]. exists a. split; [left|auto].
Qed.

Lemma single_index_ok names : ∃ s, single_index names = Ok s.
Proof. eexists. reflexivity. Qed.

(** The file blocks of a run: each writes a text, except the blocks of
    single-index mode that call [gen_module]. *)
Lemma mode_blocks argv w a :
  a ∈ (mode_of argv w).1.2 →
  put_ok a ∨ ("single" ∈ tail argv ∧ a = Call (target a) "gen_module").
Proof.
  unfold mode_of. case_bool_decide as Hs; cbn [fst snd].
  - unfold single_plan, single_actions.
    intros [(m & -> & _)%list_elem_of_fmap|Hidx%list_elem_of_singleton]%elem_of_app;
      [|subst a].
    + by right.
    + left. destruct (single_index_ok (single_names (scan w) (unreadable w)))
        as [s Hs']. rewrite Hs'. by eexists _, _.
  - intros Ha. left. unfold split_plan in Ha.
    pose proof (split_actions_put_ok
      (found (scan w) (unreadable w) "../quantecon/markov/[a-z0-9]*.py")
      (found (scan w) (unreadable w) "../quantecon/models/[a-z0-9]*.py")
      (found (scan w) (unreadable w) "../quantecon/models/solow/[a-z0-9]*.py")
      (found (scan w) (unreadable w) "../quantecon/random/[a-z0-9]*.py")
      (found (scan w) (unreadable w) "../quantecon/[a-z0-9]*.py")
      (found (scan w) (unreadable w) "../quantecon/util/[a-z0-9]*.py")) as H.
    rewrite Forall_forall in H. auto.
Qed.

Lemma module_path_under_source p :
  single_module_path p ∨ split_module_path p ∨ p ∈ split_indexes →
  String.prefix "source/" p = true.
Proof.
  intros [(n & _ & ->)|[(folder & prefix & n & Hf & _ & ->)|Hp]].
  - reflexivity.
  - unfold module_folders in Hf. rewrite !elem_of_cons, elem_of_nil in Hf.
    destruct Hf as [E|[E|[E|[E|[E|[E|[]]]]]]]; by injection E as -> ->.
  - unfold split_indexes in Hp. rewrite !elem_of_cons, elem_of_nil in Hp.
    by destruct Hp as [->|[->|[->|[->|[->|[->|[]]]]]]].
Qed.

Lemma mode_paths argv w :
  (∀ p, p ∈ map target (mode_of argv w).1.2 → String.prefix "source/" p = true)
  ∧ (∀ d, d ∈ concat (mode_of argv w).1.1 →
       d ∈ "source" :: "source/modules" :: split_directories).
Proof.
  unfold mode_of. case_bool_decide; cbn [fst snd]; split.
  - intros p [->|Hp]%single_targets; [done|].
    apply module_path_under_source. by left.
  - intros d Hd. cbn in Hd. rewrite !elem_of_cons, elem_of_nil in Hd.
    rewrite !elem_of_cons. naive_solver.
  - intros p [Hp|Hp]%split_targets; apply module_path_under_source; auto.
  - intros d Hd. cbn in Hd. unfold split_directories.
    rewrite !elem_of_cons, elem_of_nil in Hd.
    rewrite !elem_of_cons. naive_solver.
Qed.

(** The shape of every run: the scan, then the directories, then, when
    the directories are there, the file blocks. *)
Lemma main_shape argv w :
  ∃ chains plan sev rd ds,
    mode_of argv w = (chains, plan, sev)
    ∧ Forall scan_failure sev
    ∧ main argv w = mode_result w plan sev rd ds
    ∧ (∀ d, d ∈ ds → d ∈ concat chains ∧ exists_b d w = false)
    ∧ (∀ e, rd = Raise e →
         ∃ d, d ∈ concat chains ∧ e = OSError EACCES d ∧ d ∈ refuse_mkdir w
              ∧ exists_b d w = false).
Proof.
  pose proof (main_mode argv w) as H.
  destruct (mode_of argv w) as [[chains plan] sev].
  destruct H as (Hmain & Hgood & Hscan).
  destruct (mode_run_fresh chains plan sev w Hgood) as (rd & ds & Hrun & Hfresh & Herr).
  exists chains, plan, sev, rd, ds. rewrite Hmain. by split_and!.
Qed.

Lemma scan_failure_in sev e :
  Forall scan_failure sev → e ∈ sev → ∃ x, e = EvFail Listdir x.
Proof.
  intros H Hin. rewrite Forall_forall in H. specialize (H e Hin).
  destruct e as [| | | |[] x]; try done. by exists x.
Qed.

Lemma file_event_in ev e :
  Forall (λ e, is_file_event e = true) ev → e ∈ ev → is_file_event e = true.
Proof. intros H Hin. rewrite Forall_forall in H. auto. Qed.

(** X4: a run ends in an exception only when the system refuses a
    directory that was not there, an open or a write, or, in single-index
    mode, at the call of the function that is not defined: no lookup,
    index or [format] of the script ever fails. *)
Theorem run_errors (argv : list string) (w : world) (e : exn) :
  (main argv w).1 = Raise e →
  (e = NameError "gen_module" ∧ "single" ∈ tail argv)
  ∨ (∃ d, e = OSError EACCES d ∧ d ∈ refuse_mkdir w ∧ exists_b d w = false)
  ∨ (∃ p, e = IOError EACCES p ∧ p ∈ refuse_open w)
  ∨ (∃ p, e = IOError ENOSPC p ∧ is_Some (short_write w !! p)).
Proof.
  destruct (main_shape argv w)
    as (chains & plan & sev & rd & ds & Hmode & Hscan & -> & Hfresh & Herr).
  unfold mode_result. destruct rd as [[]|e'].
  - pose proof (acts_sem_kinds (refuse_open w) (short_write w) plan) as Hk.
    destruct (acts_sem _ _ plan) as [[rf fev] kvs]. cbn [fst].
    intros ->. destruct Hk as [_ Hk].
    destruct (Hk e eq_refl) as (a & Ha & Hblock).
    assert (Hin : a ∈ (mode_of argv w).1.2) by by rewrite Hmode.
    destruct Hblock as [[-> H]|[[-> H]|[(name & Hcall & ->)|Hput]]].
    + do 2 right. left. eauto.
    + do 3 right. eauto.
    + left. destruct (mode_blocks argv w a Hin) as [(p & s & ->)|[Hs Hc]]; [done|].
      rewrite Hc in Hcall. by injection Hcall as <-.
    + destruct (mode_blocks argv w a Hin) as [(p & s & ->)|[Hs Hc]]; [done|].
      by rewrite Hc in Hput.
  - cbn [fst]. intros [= <-].
    destruct (Herr e' eq_refl) as (d & _ & -> & Hd & Hx). right. left. eauto.
Qed.

Definition world_refused_index : world :=
  World {[ "../quantecon/markov" := ["ergodicity.py"];
           "../quantecon/models" := ["lucastree.py"] ]}
        ∅ ∅ ∅ [] ∅ {[ "source/util.rst" ]} ∅ [].

Lemma run_errors_witness :
  (IOError EACCES "source/util.rst" = NameError "gen_module"
   ∧ "single" ∈ tail ["qe_apidoc.py"])
  ∨ (∃ d, IOError EACCES "source/util.rst" = OSError EACCES d
          ∧ d ∈ refuse_mkdir world_refused_index
          ∧ exists_b d world_refused_index = false)
  ∨ (∃ p, IOError EACCES "source/util.rst" = IOError EACCES p
          ∧ p ∈ refuse_open world_refused_index)
  ∨ (∃ p, IOError EACCES "source/util.rst" = IOError ENOSPC p
          ∧ is_Some (short_write world_refused_index !! p)).
Proof.
  apply (run_errors ["qe_apidoc.py"] world_refused_index). by vm_compute.
Defined.

Lemma mode_result_parts w plan sev rd ds :
  ∃ rf fev kvs,
    mode_result w plan sev rd ds
    = (rf, upd w (list_to_set ds ∪ dirs w) (store kvs (files w))
             (sev ++ mkdir_events ds rd ++ fev))
    ∧ Forall (λ e, is_file_event e = true) fev
    ∧ (∀ p, p ∈ kvs.*1 → EvOpen p ∈ fev)
    ∧ (∀ p, EvOpen p ∈ fev → p ∈ map target plan)
    ∧ (∀ e, rd = Raise e → rf = Raise e ∧ fev = [] ∧ kvs = [])
    ∧ (rd = Ok tt → acts_sem (refuse_open w) (short_write w) plan = (rf, fev, kvs)).
Proof.
  unfold mode_result. destruct rd as [[]|e].
  - pose proof (acts_sem_kinds (refuse_open w) (short_write w) plan) as Hk.
    pose proof (acts_sem_phase (refuse_open w) (short_write w) plan) as Hp.
    destruct (acts_sem _ _ plan) as [[rf fev] kvs].
    destruct Hk as [Hk _], Hp as [_ _ _ Hopened Hstored _ _].
    exists rf, fev, kvs. by split_and!.
  - exists (Raise e), [], []. rewrite app_nil_r. split_and!; try done.
    + intros p Hp. by apply elem_of_nil in Hp.
    + intros p Hp. by apply elem_of_nil in Hp.
Qed.

Lemma mkdir_events_kinds ds rd e :
  e ∈ mkdir_events ds rd →
  (∃ d, e = EvMkdir d ∧ d ∈ ds) ∨ (∃ x, e = EvFail Mkdir x ∧ rd = Raise x).
Proof.
  unfold mkdir_events. intros [(d & -> & Hd)%list_elem_of_fmap|H]%elem_of_app.
  - left. eauto.
  - destruct rd as [[]|x]; [by apply elem_of_nil in H|].
    apply list_elem_of_singleton in H as ->. right. eauto.
Qed.

(** X5: a directory is made only where nothing was before the run,
    file or directory; it is [source], [source/modules] or a category
    directory, and it is there after the run. *)
Theorem directories_made (argv : list string) (w : world) (d : string) :
  EvMkdir d ∈ trace (main argv) w →
  exists_b d w = false
  ∧ d ∈ dirs (main argv w).2
  ∧ d ∈ "source" :: "source/modules" :: split_directories.
Proof.
  destruct (main_shape argv w)
    as (chains & plan & sev & rd & ds & Hmode & Hscan & Hrun & Hfresh & Herr).
  destruct (mode_result_parts w plan sev rd ds)
    as (rf & fev & kvs & Hres & Hfev & _).
  rewrite Hres in Hrun. rewrite (trace_upd _ _ _ _ _ _ Hrun), Hrun. cbn [snd dirs upd].
  intros [H|[H|H]%elem_of_app]%elem_of_app.
  - by destruct (scan_failure_in _ _ Hscan H).
  - apply mkdir_in_events in H. destruct (Hfresh d H) as [Hin Hx].
    split; [done|]. split; [set_solver|].
    apply (proj2 (mode_paths argv w)). by rewrite Hmode.
  - by apply (file_event_in _ _ Hfev) in H.
Qed.

Lemma directories_made_witness :
  exists_b "source/models/solow" empty_world = false
  ∧ "source/models/solow" ∈ dirs (main ["qe_apidoc.py"] empty_world).2
  ∧ "source/models/solow" ∈ "source" :: "source/modules" :: split_directories.
Proof.
  apply (directories_made ["qe_apidoc.py"] empty_world "source/models/solow").
  apply (bool_decide_unpack _). by vm_compute.
Defined.

(** X6: when the system refuses a directory, the run ends with that
    error before any file is opened, and no file is changed.  The
    directory is one that was not there. *)
Theorem refused_directory (argv : list string) (w : world) (e : exn) :
  EvFail Mkdir e ∈ trace (main argv) w →
  (main argv w).1 = Raise e
  ∧ (∃ d, e = OSError EACCES d ∧ d ∈ refuse_mkdir w ∧ exists_b d w = false)
  ∧ files (main argv w).2 = files w
  ∧ (∀ p, EvOpen p ∉ trace (main argv) w).
Proof.
  destruct (main_shape argv w)
    as (chains & plan & sev & rd & ds & Hmode & Hscan & Hrun & Hfresh & Herr).
  destruct (mode_result_parts w plan sev rd ds)
    as (rf & fev & kvs & Hres & Hfev & _ & _ & Hstop & _).
  rewrite Hres in Hrun. rewrite (trace_upd _ _ _ _ _ _ Hrun), Hrun.
  cbn [fst snd files upd].
  intros [H|[H|H]%elem_of_app]%elem_of_app.
  - by destruct (scan_failure_in _ _ Hscan H).
  - apply mkdir_events_kinds in H as [(d & [=] & _)|(x & [= <-] & ->)].
    destruct (Hstop e eq_refl) as (-> & -> & ->).
    destruct (Herr e eq_refl) as (d & _ & He & Hd & Hx).
    split; [done|]. split; [eauto|]. split; [done|].
    intros p [Hp|[Hp|Hp]%elem_of_app]%elem_of_app.
    + by destruct (scan_failure_in _ _ Hscan Hp).
    + by destruct (mkdir_events_no_open _ _ _ Hp).
    + by apply elem_of_nil in Hp.
  - by apply (file_event_in _ _ Hfev) in H.
Qed.

Definition world_read_only : world :=
  World {[ "../quantecon/markov" := ["ergodicity.py"] ]}
        ∅ {[ "source" ]} ∅ [] {[ "source/models" ]} ∅ ∅ [].

Lemma refused_directory_witness :
  (main ["qe_apidoc.py"] world_read_only).1
    = Raise (OSError EACCES "source/models")
  ∧ (∃ d, OSError EACCES "source/models" = OSError EACCES d
          ∧ d ∈ refuse_mkdir world_read_only
          ∧ exists_b d world_read_only = false)
  ∧ files (main ["qe_apidoc.py"] world_read_only).2 = files world_read_only
  ∧ (∀ p, EvOpen p ∉ trace (main ["qe_apidoc.py"]) world_read_only).
Proof.
  apply (refused_directory ["qe_apidoc.py"] world_read_only
           (OSError EACCES "source/models")).
  apply (bool_decide_unpack _). by vm_compute.
Defined.

(** X7: a run removes nothing and changes nothing but the files it
    opens, all under [source]: every directory and every file of before is
    there after, a file that is not opened holds what it held, and a
    directory that is new was made by the run. *)
Theorem run_leaves_the_rest (argv : list string) (w : world) :
  let w' := (main argv w).2 in
  let ev := trace (main argv) w in
  dirs w ⊆ dirs w'
  ∧ (∀ d, d ∈ dirs w' → d ∈ dirs w ∨ EvMkdir d ∈ ev)
  ∧ (∀ p, is_Some (files w !! p) → is_Some (files w' !! p))
  ∧ (∀ p, EvOpen p ∉ ev → files w' !! p = files w !! p)
  ∧ (∀ p, EvOpen p ∈ ev → String.prefix "source/" p = true).
Proof.
  destruct (main_shape argv w)
    as (chains & plan & sev & rd & ds & Hmode & Hscan & Hrun & Hfresh & Herr).
  destruct (mode_result_parts w plan sev rd ds)
    as (rf & fev & kvs & Hres & Hfev & Hstored & Hopened & _).
  rewrite Hres in Hrun. cbv zeta.
  rewrite (trace_upd _ _ _ _ _ _ Hrun), Hrun. cbn [snd dirs files upd].
  split_and!.
  - set_solver.
  - intros d [Hd%elem_of_list_to_set|Hd]%elem_of_union; [right|by left].
    apply elem_of_app. right. apply elem_of_app. left. by apply mkdir_in_events.
  - intros p. apply store_is_Some.
  - intros p Hp. apply store_lookup_other. intros Hin. apply Hp.
    apply elem_of_app. right. apply elem_of_app. right. auto.
  - intros p [Hp|[Hp|Hp]%elem_of_app]%elem_of_app.
    + by destruct (scan_failure_in _ _ Hscan Hp).
    + by destruct (mkdir_events_no_open _ _ _ Hp).
    + apply (proj1 (mode_paths argv w)). rewrite Hmode. auto.
Qed.

(** ** The writer's block, whatever the system does *)

(** X8: [with open(p, "w") as f: f.write(s)] touches no file but [p].
    When the open is refused, [p] is left as it was; otherwise what [p]
    held is lost and [p] holds [s], or, when the write fails, the part of
    [s] that was taken. *)
Theorem write_block_outcomes (p s : string) (w : world) :
  let '(r, w') := with_open p (λ f, file_write f s) w in
  (∀ q, q ≠ p → files w' !! q = files w !! q)
  ∧ (r = Ok tt ∧ files w' !! p = Some s
     ∨ r = Raise (IOError EACCES p) ∧ p ∈ refuse_open w ∧ files w' = files w
     ∨ r = Raise (IOError ENOSPC p)
       ∧ ∃ n, n < String.length s
              ∧ files w' !! p = Some (String.substring 0 n s)).
Proof.
  change (with_open p (λ f, file_write f s) w) with (do_action (Put p (Ok s)) w).
  rewrite do_action_sem. unfold act_sem. cbn [target].
  case_bool_decide as Hro; [split; [done|]; right; left; by split_and!|].
  destruct (short_write w !! p) as [n|]; [case_bool_decide as Hn|];
    cbn [files upd store foldl fst snd];
    (split; [intros q Hq; by apply lookup_insert_ne|]).
  - do 2 right. split; [done|]. exists n. split; [done|apply lookup_insert_eq].
  - left. split; [done|apply lookup_insert_eq].
  - left. split; [done|apply lookup_insert_eq].
Qed.

(** ** The document of a module *)

(** The package that the directive of each template names. *)
Definition packages : list (string * string) :=
  [ (markov_module_template, "markov."); (model_module_template, "models.");
    (solow_model_module_template, "models.solow.");
    (random_module_template, "random."); (module_template, "");
    (util_module_template, "util.") ].

Definition module_document (pkg m : string) : string :=
  m +:+ Py.nl +:+ Py.mul "=" (Py.len m) +:+ Py.nl +:+ Py.nl
  +:+ ".. automodule:: quantecon." +:+ pkg +:+ m +:+ Py.nl
  +:+ "    :members:" +:+ Py.nl
  +:+ "    :undoc-members:" +:+ Py.nl
  +:+ "    :show-inheritance:" +:+ Py.nl.

Lemma render_module_document t pkg m :
  (t, pkg) ∈ packages → render_module t m = Ok (module_document pkg m).
Proof.
  unfold packages. rewrite !elem_of_cons, elem_of_nil.
  intros [H|[H|[H|[H|[H|[H|[]]]]]]]; injection H as -> ->; reflexivity.
Qed.

(** X9: the whole text of a module's document: the name, its underline,
    an empty line, the directive for the module in the package of its
    template, and the three options.  For a name without line feed these
    are the eight lines of the document. *)
Theorem module_document_text (t pkg m : string) :
  (t, pkg) ∈ packages →
  render_module t m = Ok (module_document pkg m)
  ∧ (has_char Py.LF m = false →
     Py.split Py.LF (module_document pkg m)
     = [ m; Py.mul "=" (Py.len m); "";
         ".. automodule:: quantecon." +:+ pkg +:+ m;
         "    :members:"; "    :undoc-members:"; "    :show-inheritance:"; "" ]).
Proof.
  intros Ht. split; [by apply render_module_document|]. intros Hm.
  assert (Hpkg : has_char Py.LF (".. automodule:: quantecon." +:+ pkg +:+ m) = false).
  { unfold packages in Ht. rewrite !elem_of_cons, elem_of_nil in Ht.
    destruct Ht as [H|[H|[H|[H|[H|[H|[]]]]]]]; injection H as _ ->; exact Hm. }
  unfold module_document.
  rewrite (split_lines m _ Hm), (split_lines _ _ (mul_eq_no_LF _)).
  change (Py.nl +:+ ?x) with ("" +:+ Py.nl +:+ x).
  rewrite (split_lines "" _ eq_refl).
  rewrite <- (str_app_assoc pkg m).
  rewrite <- (str_app_assoc ".. automodule:: quantecon." (pkg +:+ m)).
  rewrite (split_lines _ _ Hpkg). reflexivity.
Qed.

Lemma module_document_text_witness :
  render_module solow_model_module_template "model"
    = Ok (module_document "models.solow." "model")
  ∧ (has_char Py.LF "model" = false →
     Py.split Py.LF (module_document "models.solow." "model")
     = [ "model"; Py.mul "=" (Py.len "model"); "";
         ".. automodule:: quantecon." +:+ "models.solow." +:+ "model";
         "    :members:"; "    :undoc-members:"; "    :show-inheritance:"; "" ]).
Proof.
  apply (module_document_text solow_model_module_template "models.solow." "model").
  unfold packages. do 2 apply list_elem_of_further. apply list_elem_of_here.
Defined.

(** ** The documents of the modules found *)

(** The pattern of each category, the directory of its documents and the
    package of its modules. *)
Definition categories : list (string * string * string) :=
  [ ("../quantecon/markov/[a-z0-9]*.py", "source/markov/", "markov.");
    ("../quantecon/models/[a-z0-9]*.py", "source/models/", "models.");
    ("../quantecon/models/solow/[a-z0-9]*.py", "source/models/solow/",
     "models.solow.");
    ("../quantecon/random/[a-z0-9]*.py", "source/random/", "random.");
    ("../quantecon/[a-z0-9]*.py", "source/tools/", "");
    ("../quantecon/util/[a-z0-9]*.py", "source/util/", "util.") ].

Definition found_table (sc : gmap string (list string)) (ur : gset string)
    : list (list string * string * string * list string) :=
  module_table
    (found sc ur "../quantecon/markov/[a-z0-9]*.py")
    (found sc ur "../quantecon/models/[a-z0-9]*.py")
    (found sc ur "../quantecon/models/solow/[a-z0-9]*.py")
    (found sc ur "../quantecon/random/[a-z0-9]*.py")
    (found sc ur "../quantecon/[a-z0-9]*.py")
    (found sc ur "../quantecon/util/[a-z0-9]*.py").

Lemma categories_table sc ur pattern folder pkg :
  (pattern, folder, pkg) ∈ categories →
  ∃ segments t,
    (segments, folder, t, found sc ur pattern) ∈ found_table sc ur
    ∧ (t, pkg) ∈ packages.
Proof.
  unfold categories, found_table, module_table, packages.
  rewrite !elem_of_cons, elem_of_nil.
  intros [H|[H|[H|[H|[H|[H|[]]]]]]]; injection H as -> -> ->;
    eexists _, _; rewrite !elem_of_cons; split; eauto 10.
Qed.

Lemma module_path_not_index segments prefix n :
  (segments, prefix) ∈ module_folders → prefix +:+ n +:+ ".rst" ∉ split_indexes.
Proof.
  unfold module_folders, split_indexes. rewrite !elem_of_cons, !elem_of_nil.
  intros [E|[E|[E|[E|[E|[E|[]]]]]]]; injection E as -> ->;
    intros [H|[H|[H|[H|[H|[H|[]]]]]]];
    rewrite ?app_cons_str in H; discriminate H.
Qed.

Lemma module_part_content sc ur f pattern folder pkg m :
  (pattern, folder, pkg) ∈ categories → m ∈ found sc ur pattern →
  store (map kv (split_plan sc ur)) f !! (folder +:+ m +:+ ".rst")
    = Some (module_document pkg m)
  ∧ ∀ markov models solow random tools util,
      found_table sc ur = module_table markov models solow random tools util →
      store (map kv (module_part markov models solow random tools util)) f
        !! (folder +:+ m +:+ ".rst")
      = Some (module_document pkg m).
Proof.
  intros Hcat Hm.
  destruct (categories_table sc ur _ _ _ Hcat) as (segments & t & Htab & Hpkg).
  assert (Hdoc : module_text t m = module_document pkg m).
  { unfold module_text. by rewrite (render_module_document t pkg m Hpkg). }
  assert (Hwhole : store (map kv (split_plan sc ur)) f !! (folder +:+ m +:+ ".rst")
                   = Some (module_document pkg m)).
  { rewrite <- Hdoc. unfold split_plan.
    eapply module_file_content; try apply found_no_slash; [exact Htab|done]. }
  split; [exact Hwhole|].
  intros markov models solow random tools util Heq.
  unfold found_table, module_table in Heq.
  injection Heq as <- <- <- <- <- <-.
  unfold split_plan in Hwhole. rewrite split_store in Hwhole.
  destruct (module_table_facts _ _ _ _ _ _ _ Htab Hm) as [_ Hfolder].
  pose proof (module_path_not_index segments folder m Hfolder) as Hidx.
  unfold split_indexes in Hidx. rewrite !elem_of_cons, elem_of_nil in Hidx.
  rewrite !lookup_insert_ne in Hwhole by (intros E; apply Hidx; auto 10).
  exact Hwhole.
Qed.

(** X10: in a run of split-index mode that the system does not disturb,
    every module found in a category has its document in the directory of
    the category, with the directive for the package of the category. *)
Theorem every_module_documented (w : world) :
  calm w →
  ∃ w', model_tool w = (Ok tt, w')
        ∧ ∀ pattern folder pkg names m,
            (pattern, folder, pkg) ∈ categories →
            (discover pattern w).1 = Ok names → m ∈ names →
            files w' !! (folder +:+ m +:+ ".rst") = Some (module_document pkg m).
Proof.
  intros Hcalm. destruct (model_tool_calm w Hcalm) as (ds & Hrun & _).
  eexists. split; [exact Hrun|].
  intros pattern folder pkg names m Hcat Hnames Hm.
  rewrite discover_sem in Hnames. injection Hnames as <-.
  cbn [files upd]. by apply (module_part_content _ _ _ pattern).
Qed.

Lemma every_module_documented_witness :
  ∃ w', model_tool world_example = (Ok tt, w')
        ∧ ∀ pattern folder pkg names m,
            (pattern, folder, pkg) ∈ categories →
            (discover pattern world_example).1 = Ok names → m ∈ names →
            files w' !! (folder +:+ m +:+ ".rst") = Some (module_document pkg m).
Proof. apply (every_module_documented world_example). by split_and!. Defined.

(** ** The indexes come after the modules *)

Lemma acts_sem_app ro sw l1 l2 :
  acts_sem ro sw (l1 ++ l2)
  = match acts_sem ro sw l1 with
    | (Ok _, ev, kvs) =>
        let '(r, ev', kvs') := acts_sem ro sw l2 in (r, ev ++ ev', kvs ++ kvs')
    | (Raise e, ev, kvs) => (Raise e, ev, kvs)
    end.
Proof.
  induction l1 as [|a l1 IH]; cbn [acts_sem app].
  - by destruct (acts_sem ro sw l2) as [[r ev] kvs].
  - destruct (act_sem ro sw a) as [[[[]|e] ev] kvs]; [|done].
    rewrite IH. destruct (acts_sem ro sw l1) as [[[[]|e1] ev1] kvs1]; [|done].
    destruct (acts_sem ro sw l2) as [[r2 ev2] kvs2].
    by rewrite !app_assoc.
Qed.

(** Blocks that all end normally have written their whole texts. *)
Lemma acts_sem_ok ro sw l ev kvs :
  Forall put_ok l → acts_sem ro sw l = (Ok tt, ev, kvs) → kvs = map kv l.
Proof.
  intros Hput. revert ev kvs.
  induction Hput as [|a l (p & s & ->) _ IH]; intros ev kvs; cbn [acts_sem map].
  - by intros [= <- <-].
  - unfold act_sem. cbn [target]. case_bool_decide; [done|].
    assert (Hgo : ∀ ev0,
      (let '(r, ev', kvs') := acts_sem ro sw l in
       (r, ev0 ++ ev', [(p, s)] ++ kvs')) = (Ok (), ev, kvs) →
      kvs = kv (Put p (Ok s)) :: map kv l).
    { intros ev0. destruct (acts_sem ro sw l) as [[r ev'] kvs'] eqn:Hl.
      intros [= -> <- <-]. by rewrite (IH ev' kvs'). }
    destruct (sw !! p) as [n|]; [case_bool_decide; [done|]|]; apply Hgo.
Qed.

Lemma module_part_targets sc ur q :
  q ∈ map target
        (module_part
           (found sc ur "../quantecon/markov/[a-z0-9]*.py")
           (found sc ur "../quantecon/models/[a-z0-9]*.py")
           (found sc ur "../quantecon/models/solow/[a-z0-9]*.py")
           (found sc ur "../quantecon/random/[a-z0-9]*.py")
           (found sc ur "../quantecon/[a-z0-9]*.py")
           (found sc ur "../quantecon/util/[a-z0-9]*.py")) →
  q ∉ split_indexes.
Proof.
  intros [s H]%target_kv.
  apply module_part_kvs in H as (f' & p' & t' & l' & n & Htab & Hn & -> & _).
  destruct (module_table_facts _ _ _ _ _ _ _ Htab Hn) as [Hslash Hfolder].
  rewrite (join_split f' p' n) by done. by apply (module_path_not_index f').
Qed.

(** X11: whatever the system refuses, when a run of split-index mode
    opens one of its six index documents, the document of every module
    found is already written in full: a failure among the modules ends the
    run before any index is opened. *)
Theorem indexes_after_modules (w : world) (q pattern folder pkg : string)
    (names : list string) (m : string) :
  q ∈ split_indexes → EvOpen q ∈ trace model_tool w →
  (pattern, folder, pkg) ∈ categories →
  (discover pattern w).1 = Ok names → m ∈ names →
  files (model_tool w).2 !! (folder +:+ m +:+ ".rst")
  = Some (module_document pkg m).
Proof.
  intros Hq Hopen Hcat Hnames Hm.
  rewrite discover_sem in Hnames. injection Hnames as <-.
  rewrite (trace_ext model_tool _ w (model_tool_mode w)) in Hopen.
  rewrite model_tool_mode.
  pose proof (split_scan_failures (scan w) (unreadable w)) as Hscan.
  destruct (mode_run_fresh split_chains (split_plan (scan w) (unreadable w))
              (split_scan (scan w) (unreadable w)) w split_chains_good)
    as (rd & ds & Hrun & _).
  destruct (mode_result_parts w (split_plan (scan w) (unreadable w))
              (split_scan (scan w) (unreadable w)) rd ds)
    as (rf & fev & kvs & Hres & _ & _ & _ & Hstop & Hacts).
  rewrite Hres in Hrun. rewrite (trace_upd _ _ _ _ _ _ Hrun) in Hopen.
  rewrite Hrun. cbn [snd files upd].
  apply elem_of_app in Hopen as [Hopen|[Hopen|Hopen]%elem_of_app].
  { by destruct (scan_failure_in _ _ Hscan Hopen). }
  { by destruct (mkdir_events_no_open _ _ _ Hopen). }
  destruct rd as [[]|e].
  2:{ destruct (Hstop e eq_refl) as (_ & -> & _). by apply elem_of_nil in Hopen. }
  specialize (Hacts eq_refl). unfold split_plan in Hacts.
  rewrite split_actions_parts, acts_sem_app in Hacts.
  set (modules := module_part _ _ _ _ _ _) in Hacts.
  set (indexes := Put "source/index.rst" _ :: _) in Hacts.
  pose proof (acts_sem_phase (refuse_open w) (short_write w) modules) as Hph1.
  pose proof (acts_sem_phase (refuse_open w) (short_write w) indexes) as Hph2.
  assert (Hput : Forall put_ok modules).
  { pose proof (split_actions_put_ok
      (found (scan w) (unreadable w) "../quantecon/markov/[a-z0-9]*.py")
      (found (scan w) (unreadable w) "../quantecon/models/[a-z0-9]*.py")
      (found (scan w) (unreadable w) "../quantecon/models/solow/[a-z0-9]*.py")
      (found (scan w) (unreadable w) "../quantecon/random/[a-z0-9]*.py")
      (found (scan w) (unreadable w) "../quantecon/[a-z0-9]*.py")
      (found (scan w) (unreadable w) "../quantecon/util/[a-z0-9]*.py")) as H.
    rewrite split_actions_parts in H. by apply Forall_app in H as [H _]. }
  destruct (acts_sem _ _ modules) as [[[[]|e1] ev1] kvs1] eqn:H1.
  - destruct (acts_sem _ _ indexes) as [[r2 ev2] kvs2].
    injection Hacts as <- <- <-.
    rewrite (acts_sem_ok (refuse_open w) (short_write w) modules ev1 kvs1 Hput H1),
      store_app.
    destruct Hph2 as [_ _ _ Hopened2 Hstored2 _ _].
    destruct (categories_table (scan w) (unreadable w) _ _ _ Hcat)
      as (segments & t & Htab & _).
    unfold found_table in Htab.
    destruct (module_table_facts _ _ _ _ _ _ _ Htab Hm) as [_ Hfolder].
    rewrite store_lookup_other.
    + subst modules.
      by apply (proj2 (module_part_content (scan w) (unreadable w) (files w)
                         pattern folder pkg m Hcat Hm)).
    + intros Hin%Hstored2%Hopened2.
      by apply (module_path_not_index segments folder m Hfolder).
  - injection Hacts as <- <- <-.
    destruct Hph1 as [_ _ _ Hopened1 _ _ _].
    by destruct (module_part_targets _ _ _ (Hopened1 q Hopen)).
Qed.

Lemma indexes_after_modules_witness :
  files (model_tool world_refused_index).2
    !! ("source/models/" +:+ "lucastree" +:+ ".rst")
  = Some (module_document "models." "lucastree").
Proof.
  apply (indexes_after_modules world_refused_index "source/index.rst"
           "../quantecon/models/[a-z0-9]*.py" "source/models/" "models."
           ["lucastree"] "lucastree").
  - apply list_elem_of_here.
  - apply (bool_decide_unpack _). by vm_compute.
  - unfold categories. apply list_elem_of_further, list_elem_of_here.
  - by vm_compute.
  - apply list_elem_of_here.
Defined.

(** ** Single-index mode that ends normally *)

(** X12: single-index mode ends normally only when the scan finds no
    module; the one file it then changes is the index, whose inclusion
    block is one empty entry. *)
Theorem single_mode_success (w w' : world) :
  all_auto w = (Ok tt, w') →
  (glob "../quantecon/[a-z0-9]*.py" w).1 = Ok []
  ∧ ∃ doc, single_index [] = Ok doc
      ∧ files w' = <["source/index.rst" := doc]> (files w)
      ∧ line 9 doc = Some "   "
      ∧ toctree_entries doc = [""].
Proof.
  intros Hall.
  destruct (globbed (scan w) (unreadable w) "../quantecon/[a-z0-9]*.py")
    as [|x xs] eqn:Hglob.
  2:{ pose proof (all_auto_stops w x xs) as H. rewrite glob_sem, Hglob in H.
      specialize (H eq_refl). cbv zeta in H. rewrite Hall in H.
      by destruct H as [[e He] _]. }
  split; [by rewrite glob_sem, Hglob|].
  eexists. split; [reflexivity|].
  split; [|split; by vm_compute].
  assert (Hplan : single_plan (scan w) (unreadable w)
                  = [Put "source/index.rst" (single_index [])]).
  { unfold single_plan, single_names. by rewrite Hglob. }
  rewrite all_auto_mode in Hall.
  destruct (mode_run_fresh single_chains (single_plan (scan w) (unreadable w))
              (scan_events (scan w) (unreadable w) "../quantecon/[a-z0-9]*.py")
              w single_chains_good) as (rd & ds & Hrun & _).
  destruct (mode_result_parts w (single_plan (scan w) (unreadable w))
              (scan_events (scan w) (unreadable w) "../quantecon/[a-z0-9]*.py")
              rd ds)
    as (rf & fev & kvs & Hres & _ & _ & _ & Hstop & Hacts).
  rewrite Hres, Hall in Hrun. injection Hrun as <- ->.
  destruct rd as [[]|e]; [|by destruct (Hstop e eq_refl)].
  specialize (Hacts eq_refl). rewrite Hplan in Hacts.
  apply acts_sem_ok in Hacts as ->; [done|].
  constructor; [|constructor]. by eexists _, _.
Qed.

Lemma single_mode_success_witness :
  (glob "../quantecon/[a-z0-9]*.py" empty_world).1 = Ok []
  ∧ ∃ doc, single_index [] = Ok doc
      ∧ files (all_auto empty_world).2
        = <["source/index.rst" := doc]> (files empty_world)
      ∧ line 9 doc = Some "   "
      ∧ toctree_entries doc = [""].
Proof.
  apply (single_mode_success empty_world (all_auto empty_world).2).
  by vm_compute.
Defined.

(** ** The text of a category index *)

(** X13: the index of a category, for every name and every inclusion
    block: the name capitalized, an underline as long as it, and the
    toctree with the block as its entries. *)
Theorem category_document_text (f_name files_ : string) :
  category_index f_name files_ = Ok (category_document f_name files_)
  ∧ Py.len (Py.mul "=" (Py.len f_name)) = Py.len (Py.capitalize f_name)
  ∧ (has_char Py.LF f_name = false →
     Py.split Py.LF (category_document f_name files_)
     = Py.capitalize f_name :: Py.mul "=" (Py.len f_name) :: ""
       :: ".. toctree::" :: "   :maxdepth: 2" :: ""
       :: Py.split Py.LF ("   " +:+ files_ +:+ Py.nl)).
Proof.
  split; [reflexivity|]. split; [|apply category_document_lines].
  rewrite len_mul_eq. unfold Py.len. destruct f_name as [|c s]; [done|].
  simpl. by rewrite lower_all_length.
Qed.

(** ** The toctree of a category index *)

(** X14: in a run of split-index mode that the system does not disturb,
    the index of a category is the category's document, and its toctree,
    read back, lists the modules found, in ascending order, each behind
    the prefix of the category; the index of models has [solow/] as its
    last entry.  (A name with a line feed in it would break the block.) *)
Theorem category_toctrees (w : world) (c prefix pattern : string)
    (extra names : list string) :
  calm w → (c, prefix, pattern, extra) ∈ category_table →
  (discover pattern w).1 = Ok names →
  Forall (λ n, has_char Py.LF n = false) names →
  ∃ w' doc,
    model_tool w = (Ok tt, w')
    ∧ files w' !! ("source/" +:+ c +:+ ".rst") = Some doc
    ∧ doc = category_document c
              (Py.join (Py.nl +:+ "   ") (toc_entries prefix names ++ extra))
    ∧ Sorted String.le names
    ∧ toctree_entries doc = toc_entries prefix names ++ extra
    ∧ (names ≠ [] → toctree_entries doc = map (String.app prefix) names ++ extra).
Proof.
  intros Hcalm Htab Hnames Hlf.
  rewrite discover_sem in Hnames. injection Hnames as <-.
  destruct (category_index_contents w Hcalm) as (w' & Hrun & Hcat).
  destruct (Hcat c prefix pattern extra Htab) as [Hsorted Hfile].
  exists w'. eexists. split; [exact Hrun|]. split; [exact Hfile|].
  rewrite index_text_document. split; [done|]. split; [done|].
  assert (Hback : toctree_entries
            (category_document c
               (Py.join (Py.nl +:+ "   ")
                  (toc_entries prefix
                     (found (scan w) (unreadable w) pattern) ++ extra)))
          = toc_entries prefix (found (scan w) (unreadable w) pattern) ++ extra).
  { apply (category_read_back c prefix pattern extra); [done| |].
    - intros Happ. apply app_eq_nil in Happ as [Happ _].
      by apply toc_entries_nonempty in Happ.
    - apply prefixed_no_LF; [|done].
      unfold category_table in Htab. rewrite !elem_of_cons, elem_of_nil in Htab.
      destruct Htab as [H|[H|[H|[H|[H|[]]]]]]; injection H as _ -> _ ->;
        by repeat constructor. }
  split; [exact Hback|]. intros Hne. rewrite Hback.
  by destruct (found _ _ _).
Qed.

Lemma category_toctrees_witness :
  ∃ w' doc,
    model_tool world_example = (Ok tt, w')
    ∧ files w' !! ("source/" +:+ "models" +:+ ".rst") = Some doc
    ∧ doc = category_document "models"
              (Py.join (Py.nl +:+ "   ")
                 (toc_entries "models/" ["lucastree"] ++ ["solow/"]))
    ∧ Sorted String.le ["lucastree"]
    ∧ toctree_entries doc = toc_entries "models/" ["lucastree"] ++ ["solow/"]
    ∧ (["lucastree"] ≠ [] →
       toctree_entries doc = map (String.app "models/") ["lucastree"] ++ ["solow/"]).
Proof.
  apply (category_toctrees world_example "models" "models/"
           "../quantecon/models/[a-z0-9]*.py" ["solow/"] ["lucastree"]).
  - by split_and!.
  - unfold category_table. apply list_elem_of_further, list_elem_of_here.
  - by vm_compute.
  - by repeat constructor.
Defined.

(** ** The documents of the solow modules *)





(** ** Everything a run of split-index mode writes *)

(** The names [discover] returns for a pattern. *)
Definition discovered (pattern : string) (w : world) : list string :=
  match (discover pattern w).1 with
  | Ok names => names
  | Raise _ => []
  end.

(** The documents of the modules, in the order of the six loops of the
    script, and the six index documents, in the order the script writes
    them. *)
Definition module_documents (w : world) : list (string * string) :=
  concat (map (λ '(pattern, folder, pkg),
                 map (λ m, (folder +:+ m +:+ ".rst", module_document pkg m))
                     (discovered pattern w))
              categories).

Definition index_documents (w : world) : list (string * string) :=
  ("source/index.rst", split_index_template)
  :: map (λ '(c, prefix, pattern, extra),
            ("source/" +:+ c +:+ ".rst",
             category_document c
               (Py.join (Py.nl +:+ "   ")
                  (toc_entries prefix (discovered pattern w) ++ extra))))
         category_table.

Definition written (doc : string * string) : list event :=
  [EvOpen doc.1; EvWrite doc.1 doc.2; EvClose doc.1].

Lemma discovered_found pattern w :
  discovered pattern w = found (scan w) (unreadable w) pattern.
Proof. unfold discovered. by rewrite discover_sem. Qed.

Lemma module_actions_documents sc ur segments folder t pkg pattern :
  (segments, folder) ∈ module_folders → (t, pkg) ∈ packages →
  map kv (module_actions segments t (found sc ur pattern))
  = map (λ m, (folder +:+ m +:+ ".rst", module_document pkg m))
        (found sc ur pattern).
Proof.
  intros Hfolder Hpkg. unfold module_actions. rewrite map_map.
  apply Forall_fmap_ext. eapply Forall_impl; [apply found_no_slash|].
  intros m Hm. unfold kv. cbn [target text_of].
  rewrite (join_split segments folder m Hfolder Hm).
  by rewrite (render_module_document t pkg m Hpkg).
Qed.

Lemma split_plan_documents w :
  map kv (split_plan (scan w) (unreadable w))
  = module_documents w ++ index_documents w.
Proof.
  unfold split_plan. rewrite split_actions_parts, map_app. f_equal.
  - unfold module_part, module_documents, categories.
    cbn [map concat]. rewrite !discovered_found, !map_app, app_nil_r.
    repeat (f_equal; [apply module_actions_documents;
                      [unfold module_folders|unfold packages];
                      rewrite !elem_of_cons; auto 10|]).
    apply module_actions_documents;
      [unfold module_folders|unfold packages]; rewrite !elem_of_cons; auto 10.
  - unfold index_documents, index_actions, category_table.
    cbn [map]. rewrite !discovered_found, !app_nil_r.
    unfold kv. cbn [target text_of category_index].
    rewrite <- !toc_join, <- models_block_join. reflexivity.
Qed.

Lemma whole_write_written a : whole_write a = written (kv a).
Proof. reflexivity. Qed.

Lemma file_events_written docs :
  file_events (concat (map written docs)) = concat (map written docs).
Proof.
  induction docs as [|d docs IH]; [done|].
  cbn [map concat]. by rewrite file_events_app, IH.
Qed.

Lemma scan_failure_file_events ev : Forall scan_failure ev → file_events ev = [].
Proof.
  induction 1 as [|e ev He _ IH]; [done|].
  by destruct e as [| | | |[] x].
Qed.

(** X16: a run of split-index mode that the system does not disturb
    ends normally; for each document in turn it logs one open, one write
    of the whole text and one close, the modules first, category by
    category in the order of the names, then the six indexes; the files
    after the run are the files before with these documents put in. *)
Theorem split_mode_output (w : world) :
  calm w →
  ∃ w',
    model_tool w = (Ok tt, w')
    ∧ file_events (trace model_tool w)
      = concat (map written (module_documents w ++ index_documents w))
    ∧ files w' = store (module_documents w ++ index_documents w) (files w).
Proof.
  intros Hcalm. destruct (model_tool_calm w Hcalm) as (ds & Hrun & _).
  eexists. split; [exact Hrun|].
  rewrite (trace_upd _ _ _ _ _ _ Hrun). cbn [files upd].
  rewrite <- split_plan_documents. split; [|done].
  rewrite !file_events_app, file_events_mkdir.
  rewrite (scan_failure_file_events _ (split_scan_failures _ _)). cbn [app].
  rewrite <- (file_events_written (map kv _)), map_map. reflexivity.
Qed.

Lemma split_mode_output_witness :
  ∃ w',
    model_tool world_example = (Ok tt, w')
    ∧ file_events (trace model_tool world_example)
      = concat (map written (module_documents world_example
                             ++ index_documents world_example))
    ∧ files w' = store (module_documents world_example
                        ++ index_documents world_example) (files world_example).
Proof. apply (split_mode_output world_example). by split_and!. Defined.
